(** * Uniphier ALSA audio HAL (audio_hw.c): output stream write path

    A shallow embedding of the output-stream half of [audio_hw.c] and the
    properties of its write path, standby life cycle, threshold controller
    and presentation position.

    Conventions of the embedding.
    - Machine integers are [Z] with the conversions written out.  [int] and
      [unsigned int] have 32 bits, [uint64_t] and [int64_t] have 64;
      [long], [size_t] and [ssize_t] have the width of the ABI the module
      is built for, 32 or 64 bits, a constant of the build.
    - The file is compiled without [ALWAYS_ALSA_OPEN]; the embedding follows
      the branches of that build.
    - Calls into tinyalsa, the resampler, the audio router, [malloc]/[free]
      and [usleep] are recorded, in program order, in an effect log.  What
      the libraries answer is an input of each entry point.
    - The entry points take both mutexes around their bodies; the embedding
      is of one entry point running at a time, which is what the locks
      give.
    - A function returns [None] where the C code dereferences a NULL
      pointer or runs a loop that cannot end.  Division is [Z]'s; the
      properties of calls that divide assume the divisor is not zero. *)

From Stdlib Require Import ZArith Lia List Bool String.
From stdpp Require Import base option list gmap.

Local Open Scope Z_scope.

(** ** Machine integers *)

Definition wrap_unsigned (w : Z) (z : Z) : Z := z mod 2 ^ w.
Definition wrap_signed (w : Z) (z : Z) : Z :=
  (z + 2 ^ (w - 1)) mod 2 ^ w - 2 ^ (w - 1).

Definition to_int (z : Z) : Z := wrap_signed 32 z.
Definition to_uint (z : Z) : Z := wrap_unsigned 32 z.
Definition to_uint64 (z : Z) : Z := wrap_unsigned 64 z.
Definition to_int64 (z : Z) : Z := wrap_signed 64 z.

Definition INT_MIN : Z := - 2 ^ 31.
Definition INT_MAX : Z := 2 ^ 31 - 1.

(** C's conversion of a scalar to [bool]. *)
Definition nonzero (z : Z) : bool := negb (z =? 0).

(** ** Constants of the platform headers *)

(** errno.h *)
Definition ENOMEM : Z := 12.
Definition EPIPE : Z := 32.

(** system/audio.h *)
Definition AUDIO_DEVICE_OUT_SPEAKER : Z := 0x2.
Definition AUDIO_DEVICE_OUT_WIRED_HEADSET : Z := 0x4.
Definition AUDIO_DEVICE_OUT_WIRED_HEADPHONE : Z := 0x8.
Definition AUDIO_DEVICE_OUT_BLUETOOTH_SCO : Z := 0x10.
Definition AUDIO_DEVICE_OUT_BLUETOOTH_SCO_HEADSET : Z := 0x20.
Definition AUDIO_DEVICE_OUT_BLUETOOTH_SCO_CARKIT : Z := 0x40.
Definition AUDIO_DEVICE_OUT_ALL_SCO : Z :=
  Z.lor AUDIO_DEVICE_OUT_BLUETOOTH_SCO
    (Z.lor AUDIO_DEVICE_OUT_BLUETOOTH_SCO_HEADSET
       AUDIO_DEVICE_OUT_BLUETOOTH_SCO_CARKIT).
Definition AUDIO_DEVICE_OUT_ANLG_DOCK_HEADSET : Z := 0x800.
Definition AUDIO_DEVICE_BIT_IN : Z := 0x80000000.
Definition AUDIO_DEVICE_IN_BUILTIN_MIC : Z := Z.lor AUDIO_DEVICE_BIT_IN 0x4.
Definition AUDIO_CHANNEL_OUT_STEREO : Z := 0x3.
Definition AUDIO_FORMAT_PCM_16_BIT : Z := 0x1.
Definition AUDIO_FORMAT_PCM_8_BIT : Z := 0x2.
Definition AUDIO_FORMAT_PCM_32_BIT : Z := 0x3.
Definition AUDIO_FORMAT_PCM_8_24_BIT : Z := 0x4.

(** [audio_bytes_per_sample] of system/audio.h, on the linear PCM formats. *)
Definition audio_bytes_per_sample (format : Z) : Z :=
  if (format =? AUDIO_FORMAT_PCM_32_BIT) || (format =? AUDIO_FORMAT_PCM_8_24_BIT)
  then 4
  else if format =? AUDIO_FORMAT_PCM_16_BIT then 2
  else if format =? AUDIO_FORMAT_PCM_8_BIT then 1
  else 0.

(** ** Constants fixed by the build

    [audio_hw.c] uses these macros and does not define them; they come from
    the build flags of the board.  [LONG_BIT] is the width of [long],
    [size_t] and [ssize_t] in the ABI of the build. *)
Record build_config := {
  LONG_BIT : Z;
  OUT_PERIOD_SIZE : Z;
  OUT_SHORT_PERIOD_COUNT : Z;
  OUT_LONG_PERIOD_COUNT : Z;
  NUM_OF_CHANNELS : Z;
  OUT_SAMPLING_RATE : Z;
  PCM_CARD : Z;
  PCM_DEVICE : Z
}.

(** ** Data model *)

Inductive out_buffer_type :=
| OUT_BUFFER_TYPE_UNKNOWN
| OUT_BUFFER_TYPE_SHORT
| OUT_BUFFER_TYPE_LONG.

Inductive orientation_t :=
| ORIENTATION_LANDSCAPE
| ORIENTATION_PORTRAIT
| ORIENTATION_SQUARE
| ORIENTATION_UNDEFINED.

Inductive pcm_format := PCM_FORMAT_S16_LE | PCM_FORMAT_S32_LE.

#[global] Instance out_buffer_type_eq_dec : EqDecision out_buffer_type.
Proof. solve_decision. Defined.
#[global] Instance orientation_eq_dec : EqDecision orientation_t.
Proof. solve_decision. Defined.
#[global] Instance pcm_format_eq_dec : EqDecision pcm_format.
Proof. solve_decision. Defined.

(** tinyalsa's [struct pcm_config]; every count is an [unsigned int]. *)
Record pcm_config_t := {
  channels : Z;
  rate : Z;
  period_size : Z;
  period_count : Z;
  format : pcm_format;
  start_threshold : Z
}.

#[global] Instance pcm_config_eq_dec : EqDecision pcm_config_t.
Proof. solve_decision. Defined.

(** tinyalsa's [struct pcm], as far as the HAL can see it: the descriptor.
    [pcm_is_ready] is [fd >= 0]; [pcm_open] never returns NULL, a failed
    open returns a handle that is not ready.  [pcm_close] ends the life of
    a handle: a later use of it has no defined result. *)
Record pcm_t := { pcm_fd : Z }.

#[global] Instance pcm_eq_dec : EqDecision pcm_t.
Proof. solve_decision. Defined.

Definition bad_pcm : pcm_t := {| pcm_fd := -1 |}.
Definition pcm_is_ready (p : pcm_t) : bool := 0 <=? pcm_fd p.

(** Addresses of heap objects. *)
Abbreviation addr := nat (only parsing).

Record timespec := { tv_sec : Z; tv_nsec : Z }.

(** [struct stream_out].  A pointer field is an [option]: [None] is NULL.
    [pcm_config] points to the global [pcm_config_out] or is NULL; the
    global is written once, in [adev_open], so the field holds the value
    pointed to.  The function table [stream], the mutex and the back
    pointer [dev] (there is one device) carry no data. *)
Record stream_out := {
  pcm : option pcm_t;
  pcm_config : option pcm_config_t;
  standby : bool;
  written : Z;
  resampler : option addr;
  buffer : option addr;
  buffer_frames : Z;
  write_threshold : Z;
  cur_write_threshold : Z;
  buffer_type : out_buffer_type
}.

(** [struct audio_device].  [active_out] is the address of a stream. *)
Record audio_device := {
  out_device : Z;
  in_device : Z;
  adev_standby : bool;
  mic_mute : bool;
  orientation : orientation_t;
  screen_off : bool;
  active_out : option addr
}.

(** Calls that leave the HAL, in program order. *)
Inductive event :=
| EvPcmOpen (card device : Z) (config : option pcm_config_t)
| EvPcmClose (p : option pcm_t)
| EvCreateResampler (in_rate out_rate nchannels : Z)
| EvReleaseResampler (r : addr)
| EvMalloc (nbytes : Z)
| EvFree (b : addr)
| EvResample (r : addr) (in_frames : Z)
| EvPcmWrite (p : option pcm_t) (data : list Z) (count : Z)
| EvUsleep (usec : Z)
| EvRouteReset
| EvRouteApplyPath (name : string)
| EvRouteUpdateMixer.

(** What one entry point works on: the stream, its device and the log. *)
Record hal_state := {
  dev : audio_device;
  out : stream_out;
  log : list event
}.

(** The device with the streams opened on it, by address, and the log. *)
Record world := {
  w_dev : audio_device;
  w_streams : gmap nat stream_out;
  w_log : list event
}.

(** *** Field updates *)

Definition set_pcm (v : option pcm_t) (s : stream_out) : stream_out :=
  {| pcm := v; pcm_config := pcm_config s; standby := standby s;
     written := written s; resampler := resampler s; buffer := buffer s;
     buffer_frames := buffer_frames s; write_threshold := write_threshold s;
     cur_write_threshold := cur_write_threshold s;
     buffer_type := buffer_type s |}.

Definition set_pcm_config (v : option pcm_config_t) (s : stream_out) : stream_out :=
  {| pcm := pcm s; pcm_config := v; standby := standby s;
     written := written s; resampler := resampler s; buffer := buffer s;
     buffer_frames := buffer_frames s; write_threshold := write_threshold s;
     cur_write_threshold := cur_write_threshold s;
     buffer_type := buffer_type s |}.

Definition set_standby (v : bool) (s : stream_out) : stream_out :=
  {| pcm := pcm s; pcm_config := pcm_config s; standby := v;
     written := written s; resampler := resampler s; buffer := buffer s;
     buffer_frames := buffer_frames s; write_threshold := write_threshold s;
     cur_write_threshold := cur_write_threshold s;
     buffer_type := buffer_type s |}.

Definition set_written (v : Z) (s : stream_out) : stream_out :=
  {| pcm := pcm s; pcm_config := pcm_config s; standby := standby s;
     written := v; resampler := resampler s; buffer := buffer s;
     buffer_frames := buffer_frames s; write_threshold := write_threshold s;
     cur_write_threshold := cur_write_threshold s;
     buffer_type := buffer_type s |}.

Definition set_resampler (v : option addr) (s : stream_out) : stream_out :=
  {| pcm := pcm s; pcm_config := pcm_config s; standby := standby s;
     written := written s; resampler := v; buffer := buffer s;
     buffer_frames := buffer_frames s; write_threshold := write_threshold s;
     cur_write_threshold := cur_write_threshold s;
     buffer_type := buffer_type s |}.

Definition set_buffer (v : option addr) (s : stream_out) : stream_out :=
  {| pcm := pcm s; pcm_config := pcm_config s; standby := standby s;
     written := written s; resampler := resampler s; buffer := v;
     buffer_frames := buffer_frames s; write_threshold := write_threshold s;
     cur_write_threshold := cur_write_threshold s;
     buffer_type := buffer_type s |}.

Definition set_buffer_frames (v : Z) (s : stream_out) : stream_out :=
  {| pcm := pcm s; pcm_config := pcm_config s; standby := standby s;
     written := written s; resampler := resampler s; buffer := buffer s;
     buffer_frames := v; write_threshold := write_threshold s;
     cur_write_threshold := cur_write_threshold s;
     buffer_type := buffer_type s |}.

Definition set_write_threshold (v : Z) (s : stream_out) : stream_out :=
  {| pcm := pcm s; pcm_config := pcm_config s; standby := standby s;
     written := written s; resampler := resampler s; buffer := buffer s;
     buffer_frames := buffer_frames s; write_threshold := v;
     cur_write_threshold := cur_write_threshold s;
     buffer_type := buffer_type s |}.

Definition set_cur_write_threshold (v : Z) (s : stream_out) : stream_out :=
  {| pcm := pcm s; pcm_config := pcm_config s; standby := standby s;
     written := written s; resampler := resampler s; buffer := buffer s;
     buffer_frames := buffer_frames s; write_threshold := write_threshold s;
     cur_write_threshold := v;
     buffer_type := buffer_type s |}.

Definition set_buffer_type (v : out_buffer_type) (s : stream_out) : stream_out :=
  {| pcm := pcm s; pcm_config := pcm_config s; standby := standby s;
     written := written s; resampler := resampler s; buffer := buffer s;
     buffer_frames := buffer_frames s; write_threshold := write_threshold s;
     cur_write_threshold := cur_write_threshold s;
     buffer_type := v |}.

Definition set_out_device (v : Z) (d : audio_device) : audio_device :=
  {| out_device := v; in_device := in_device d; adev_standby := adev_standby d;
     mic_mute := mic_mute d; orientation := orientation d;
     screen_off := screen_off d; active_out := active_out d |}.

Definition set_active_out (v : option addr) (d : audio_device) : audio_device :=
  {| out_device := out_device d; in_device := in_device d;
     adev_standby := adev_standby d; mic_mute := mic_mute d;
     orientation := orientation d; screen_off := screen_off d;
     active_out := v |}.

Definition set_orientation (v : orientation_t) (d : audio_device) : audio_device :=
  {| out_device := out_device d; in_device := in_device d;
     adev_standby := adev_standby d; mic_mute := mic_mute d;
     orientation := v; screen_off := screen_off d;
     active_out := active_out d |}.

Definition set_screen_off (v : bool) (d : audio_device) : audio_device :=
  {| out_device := out_device d; in_device := in_device d;
     adev_standby := adev_standby d; mic_mute := mic_mute d;
     orientation := orientation d; screen_off := v;
     active_out := active_out d |}.

Definition set_mic_mute (v : bool) (d : audio_device) : audio_device :=
  {| out_device := out_device d; in_device := in_device d;
     adev_standby := adev_standby d; mic_mute := v;
     orientation := orientation d; screen_off := screen_off d;
     active_out := active_out d |}.

Definition with_out (f : stream_out -> stream_out) (σ : hal_state) : hal_state :=
  {| dev := dev σ; out := f (out σ); log := log σ |}.

Definition with_dev (f : audio_device -> audio_device) (σ : hal_state) : hal_state :=
  {| dev := f (dev σ); out := out σ; log := log σ |}.

Definition emit (e : event) (σ : hal_state) : hal_state :=
  {| dev := dev σ; out := out σ; log := log σ ++ [e] |}.

Definition emit_all (es : list event) (σ : hal_state) : hal_state :=
  {| dev := dev σ; out := out σ; log := log σ ++ es |}.

(** ** What the libraries answer during one call of [out_write]

    The HAL cannot tell these values in advance; each call of [out_write]
    takes them as an input.  [hw_htimestamp] lists the outcomes of the
    successive calls of [pcm_get_htimestamp] made by the throttling loop:
    [Some avail] when the call returns 0 and stores [avail], [None] when it
    returns a negative value (tinyalsa leaves the output untouched then); a
    call past the end of the list fails as well. *)
Record hw_answers := {
  hw_pcm_open : pcm_t;
  hw_create_resampler : option addr;
  hw_malloc : option addr;
  hw_htimestamp : list (option Z);
  hw_buffer_size : Z;
  hw_resample : Z * list Z;
  hw_pcm_write : Z
}.

(** tinyalsa's [pcm_open]: with a NULL configuration it returns its static
    bad handle, otherwise whatever the hardware allows. *)
Definition pcm_open (config : option pcm_config_t) (answer : pcm_t) : pcm_t :=
  match config with
  | None => bad_pcm
  | Some _ => answer
  end.

(** audio_hw.h *)
Definition audio_channel_count_from_out_mask (channel : Z) : Z := 2.

Definition MIN_WRITE_SLEEP_US : Z := 1000.

Section Hal.

Variable bc : build_config.

Definition to_long (z : Z) : Z := wrap_signed (LONG_BIT bc) z.
Definition to_size_t (z : Z) : Z := wrap_unsigned (LONG_BIT bc) z.
Definition to_ssize_t (z : Z) : Z := wrap_signed (LONG_BIT bc) z.

(** The two ABIs of the platform. *)
Definition abi_ok : Prop := LONG_BIT bc = 32 \/ LONG_BIT bc = 64.

(** The global [pcm_config_out] as [adev_open] leaves it. *)
Definition pcm_config_out : pcm_config_t :=
  {| channels := to_uint (NUM_OF_CHANNELS bc);
     rate := to_uint (OUT_SAMPLING_RATE bc);
     period_size := to_uint (OUT_PERIOD_SIZE bc);
     period_count := to_uint (OUT_LONG_PERIOD_COUNT bc);
     format := PCM_FORMAT_S32_LE;
     start_threshold := to_uint (OUT_PERIOD_SIZE bc * OUT_SHORT_PERIOD_COUNT bc) |}.

(** [(OUT_PERIOD_SIZE * OUT_LONG_PERIOD_COUNT) / (NUM_OF_CHANNELS * 4)];
    the macro is used unparenthesised inside [MAX_WRITE_SLEEP_US]. *)
Definition MAX_WRITE_SLEEP_US : Z :=
  Z.quot
    (to_long
       (Z.quot (OUT_PERIOD_SIZE bc * OUT_LONG_PERIOD_COUNT bc) (NUM_OF_CHANNELS bc * 4)
        * 1000000))
    (OUT_SAMPLING_RATE bc).

(** *** Helper functions *)

(** [select_devices]: the calls to the audio router, in order. *)
Definition select_devices (adev : audio_device) : list event :=
  let headphone_on :=
    to_int (Z.land (out_device adev)
              (Z.lor AUDIO_DEVICE_OUT_WIRED_HEADSET AUDIO_DEVICE_OUT_WIRED_HEADPHONE)) in
  let speaker_on := to_int (Z.land (out_device adev) AUDIO_DEVICE_OUT_SPEAKER) in
  let docked := to_int (Z.land (out_device adev) AUDIO_DEVICE_OUT_ANLG_DOCK_HEADSET) in
  let main_mic_on := to_int (Z.land (in_device adev) AUDIO_DEVICE_IN_BUILTIN_MIC) in
  [EvRouteReset]
  ++ (if nonzero speaker_on then [EvRouteApplyPath "speaker"] else [])
  ++ (if nonzero headphone_on then [EvRouteApplyPath "headphone"] else [])
  ++ (if nonzero docked then [EvRouteApplyPath "dock"] else [])
  ++ (if nonzero main_mic_on then
        if decide (orientation adev = ORIENTATION_LANDSCAPE)
        then [EvRouteApplyPath "main-mic-left"]
        else [EvRouteApplyPath "main-mic-top"]
      else [])
  ++ [EvRouteUpdateMixer].

Definition do_out_standby (σ : hal_state) : hal_state :=
  if negb (standby (out σ)) then
    let σ := emit (EvPcmClose (pcm (out σ))) σ in
    let σ := with_out (set_pcm None) σ in
    let σ := with_dev (set_active_out None) σ in
    let σ :=
      match resampler (out σ) with
      | Some r => with_out (set_resampler None) (emit (EvReleaseResampler r) σ)
      | None => σ
      end in
    let σ :=
      match buffer (out σ) with
      | Some b => with_out (set_buffer None) (emit (EvFree b) σ)
      | None => σ
      end in
    with_out (set_standby true) σ
  else σ.

Definition out_get_sample_rate : Z := rate pcm_config_out.

Definition out_get_channels : Z := AUDIO_CHANNEL_OUT_STEREO.

Definition out_get_format : Z := AUDIO_FORMAT_PCM_32_BIT.

(** [audio_stream_out_frame_size]: channels of the mask times bytes per
    sample of the format. *)
Definition audio_stream_out_frame_size : Z :=
  audio_channel_count_from_out_mask out_get_channels
  * audio_bytes_per_sample out_get_format.

(** tinyalsa's [pcm_frames_to_bytes] for the 32-bit format. *)
Definition pcm_frames_to_bytes (config : pcm_config_t) (frames : Z) : Z :=
  to_uint (to_uint frames * channels config * 4).

(** [start_output_stream]; [self] is the address of the stream.  It runs
    on a stream in standby, where [do_out_standby] has set [out->pcm] to
    NULL; the only code that leaves a handle in such a stream is the
    failure path below, which has passed it to [pcm_close].  A handle found
    in place is thus a closed one, and the code goes on to read it in
    [pcm_is_ready] and to close it again: a call with no defined result,
    [None].  The result is [None] as well where the C code dereferences a
    NULL [pcm_config]. *)
Definition start_output_stream (self : addr) (hw : hw_answers) (σ : hal_state)
  : option (Z * hal_state) :=
  let σ :=
    if nonzero (Z.land (out_device (dev σ)) AUDIO_DEVICE_OUT_SPEAKER) then
      with_out (set_buffer_type OUT_BUFFER_TYPE_UNKNOWN)
        (with_out (set_pcm_config (Some pcm_config_out)) σ)
    else σ in
  match pcm (out σ) with
  | Some _ => None
  | None =>
      let σ :=
        with_out (set_pcm (Some (pcm_open (pcm_config (out σ)) (hw_pcm_open hw))))
          (emit (EvPcmOpen (PCM_CARD bc) (PCM_DEVICE bc) (pcm_config (out σ))) σ) in
      let not_ready :=
        match pcm (out σ) with
        | Some p => negb (pcm_is_ready p)
        | None => false
        end in
      if not_ready then
        Some (- ENOMEM, emit (EvPcmClose (pcm (out σ))) σ)
      else
        match pcm_config (out σ) with
        | None => None
        | Some config =>
            let σ :=
              if negb (out_get_sample_rate =? rate config) then
                let σ := emit (EvCreateResampler out_get_sample_rate (rate config)
                                 (channels config)) σ in
                let σ := with_out (set_resampler (hw_create_resampler hw)) σ in
                let frames :=
                  to_uint (to_uint (period_size pcm_config_out * rate config)
                           / out_get_sample_rate + 1) in
                let σ := with_out (set_buffer_frames frames) σ in
                let σ := emit (EvMalloc (pcm_frames_to_bytes config frames)) σ in
                with_out (set_buffer (hw_malloc hw)) σ
              else σ in
            Some (0, with_dev (set_active_out (Some self)) σ)
        end
  end.

(** *** API functions *)

Definition out_standby (σ : hal_state) : Z * hal_state :=
  (0, do_out_standby σ).

(** [out_set_parameters].  [ret] is what [str_parms_get_str] returned for
    the routing key and [value] is [atoi] of the string it stored. *)
Definition out_set_parameters (ret value : Z) (σ : hal_state) : Z * hal_state :=
  let σ :=
    if 0 <=? ret then
      let val := to_uint value in
      if negb (out_device (dev σ) =? val) && negb (val =? 0) then
        let σ := do_out_standby σ in
        let σ := with_dev (set_out_device val) σ in
        emit_all (select_devices (dev σ)) σ
      else σ
    else σ in
  (ret, σ).

(** The throttling loop of [out_write].  It returns the last value of
    [kernel_frames] and the arguments of its calls of [usleep], in order.
    [answers] are the outcomes of [pcm_get_htimestamp] still to come,
    [total_sleep_time_us] is the time slept so far. *)
Fixpoint throttle (config : pcm_config_t) (cwt buffer_size : Z)
    (answers : list (option Z)) (kernel_frames total_sleep_time_us : Z)
  : Z * list Z :=
  match answers with
  | [] => (kernel_frames, [])
  | None :: _ => (kernel_frames, [])
  | Some avail :: answers =>
      let kernel_frames := to_int (to_uint (buffer_size - avail)) in
      if kernel_frames >? cwt then
        let sleep_time_us :=
          to_int (Z.quot
                    (Z.quot (to_int64 (to_long (to_int (kernel_frames - cwt) * 1000000)))
                            (to_uint (channels config * 4)))
                    (rate config)) in
        if sleep_time_us <? MIN_WRITE_SLEEP_US then (kernel_frames, [])
        else
          let total_sleep_time_us := to_int (total_sleep_time_us + sleep_time_us) in
          let '(last, sleeps) :=
            if total_sleep_time_us <=? MAX_WRITE_SLEEP_US
            then throttle config cwt buffer_size answers kernel_frames
                   total_sleep_time_us
            else (kernel_frames, []) in
          (last, to_uint sleep_time_us :: sleeps)
      else (kernel_frames, [])
  end.

(** The block of [out_write] that follows a change of buffer type. *)
Definition adapt_buffer_type (config : pcm_config_t) (buffer_type_ : out_buffer_type)
    (s : stream_out) : stream_out :=
  let period_count_ :=
    if decide (buffer_type_ = OUT_BUFFER_TYPE_LONG)
    then to_size_t (OUT_LONG_PERIOD_COUNT bc)
    else to_size_t (OUT_SHORT_PERIOD_COUNT bc) in
  let s := set_write_threshold
             (to_int (to_size_t (period_size config * period_count_))) s in
  let s :=
    if decide (buffer_type s = OUT_BUFFER_TYPE_UNKNOWN)
    then set_cur_write_threshold (write_threshold s) s
    else s in
  set_buffer_type buffer_type_ s.

(** The adjustment of [cur_write_threshold] that follows the throttling
    loop.  [period_size] is a [size_t], so the sums are taken in [size_t]
    and stored back into an [int]. *)
Definition ramp (config : pcm_config_t) (kernel_frames : Z) (s : stream_out)
  : stream_out :=
  let period_size_ := to_size_t (period_size config) in
  if cur_write_threshold s >? write_threshold s then
    let s := set_cur_write_threshold
               (to_int (to_size_t (cur_write_threshold s - period_size_ / 4))) s in
    if cur_write_threshold s <? write_threshold s
    then set_cur_write_threshold (write_threshold s) s
    else s
  else if cur_write_threshold s <? write_threshold s then
    let s := set_cur_write_threshold
               (to_int (to_size_t (cur_write_threshold s + period_size_ / 4))) s in
    if cur_write_threshold s >? write_threshold s
    then set_cur_write_threshold (write_threshold s) s
    else s
  else if (kernel_frames <? write_threshold s)
          && (to_int (write_threshold s - kernel_frames)
              >? to_int (to_size_t (period_size_ * OUT_SHORT_PERIOD_COUNT bc))) then
    let s := set_cur_write_threshold
               (to_int (to_size_t
                          ((to_size_t kernel_frames / period_size_ + 1) * period_size_))) s in
    set_cur_write_threshold
      (to_int (to_size_t (cur_write_threshold s + period_size_ / 4))) s
  else s.

(** The loop that discards the right channel: [i] runs from 1 below
    [in_frames] and slot [i] receives slot [i * 2], in place.  A read past
    the end of the list yields 0. *)
Definition discard_right_channel (in_frames : Z) (in_buffer : list Z) : list Z :=
  foldl (λ b i, <[i := default 0 (b !! Z.to_nat (to_uint (Z.of_nat i * 2)))]> b)
        in_buffer (seq 1 (Z.to_nat in_frames - 1)).

(** The time [out_write] sleeps after a failure. *)
Definition fallback_sleep_us (bytes : Z) : Z :=
  to_uint (to_size_t (bytes * 1000000) / audio_stream_out_frame_size
           / out_get_sample_rate).

(** The code of [out_write] from the label [exit]. *)
Definition out_write_exit (bytes ret : Z) (σ : hal_state) : Z * hal_state :=
  let σ := if negb (ret =? 0) then emit (EvUsleep (fallback_sleep_us bytes)) σ else σ in
  (to_ssize_t bytes, σ).

(** [out_write] from the test of [standby] to the label it jumps from:
    the return value of [start_output_stream], 0 when it is not called.
    [None] where [start_output_stream] dereferences a NULL [pcm_config]. *)
Definition leave_standby (self : addr) (hw : hw_answers) (σ : hal_state)
  : option (Z * hal_state) :=
  if standby (out σ) then
    '(ret, σ) ← start_output_stream self hw σ;
    if negb (ret =? 0) then Some (ret, σ)
    else Some (0, with_out (set_standby false) σ)
  else Some (0, σ).

(** [out_write] from there to the call of [pcm_write]: buffer type, channel
    reduction, sample rate, throttling and threshold.  It yields the buffer
    and frame size handed to [pcm_write] and the number of output frames.
    [None] stands for a call with no defined result: a NULL [pcm_config] or
    [resampler] is dereferenced, or the 32-bit counter of the channel loop
    can never reach [in_frames]. *)
Definition prepare_write (hw : hw_answers) (buffer_ : list Z) (bytes : Z)
    (σ : hal_state) : option (list Z * Z * Z * hal_state) :=
  let frame_size := audio_stream_out_frame_size in
  let in_frames := bytes / frame_size in
  let buffer_type_ := OUT_BUFFER_TYPE_SHORT in
  let sco_on := nonzero (Z.land (out_device (dev σ)) AUDIO_DEVICE_OUT_ALL_SCO) in
  config ← pcm_config (out σ);
  let σ :=
    if negb sco_on && negb (bool_decide (buffer_type_ = buffer_type (out σ)))
    then with_out (adapt_buffer_type config buffer_type_) σ
    else σ in
  '(in_buffer, frame_size) ←
    (if audio_channel_count_from_out_mask out_get_channels >? channels config then
       if 2 ^ 32 <=? in_frames then None
       else Some (discard_right_channel in_frames buffer_, frame_size / 2)
     else Some (buffer_, frame_size));
  '(in_buffer, out_frames, σ) ←
    (if negb (out_get_sample_rate =? rate config) then
       r ← resampler (out σ);
       Some (snd (hw_resample hw), to_size_t (fst (hw_resample hw)),
             emit (EvResample r in_frames) σ)
     else Some (in_buffer, in_frames, σ));
  let σ :=
    if negb sco_on then
      let '(kernel_frames, sleeps) :=
        throttle config (cur_write_threshold (out σ)) (hw_buffer_size hw)
          (hw_htimestamp hw) 0 0 in
      with_out (ramp config kernel_frames) (emit_all (EvUsleep <$> sleeps) σ)
    else σ in
  Some (in_buffer, frame_size, out_frames, σ).

(** [out_write] from the call of [pcm_write] to its end. *)
Definition hardware_write (hw : hw_answers) (in_buffer : list Z)
    (frame_size out_frames bytes : Z) (σ : hal_state) : Z * hal_state :=
  let σ := emit (EvPcmWrite (pcm (out σ)) in_buffer (to_uint (out_frames * frame_size))) σ in
  let ret := hw_pcm_write hw in
  if ret =? - EPIPE then (ret, σ)
  else
    let σ :=
      if ret =? 0
      then with_out (λ s, set_written (to_uint64 (written s + out_frames)) s) σ
      else σ in
    out_write_exit bytes ret σ.

(** [out_write]: [buffer_] holds the caller's 32-bit samples, [bytes] is a
    [size_t]. *)
Definition out_write (self : addr) (hw : hw_answers) (buffer_ : list Z) (bytes : Z)
    (σ : hal_state) : option (Z * hal_state) :=
  '(ret, σ) ← leave_standby self hw σ;
  if negb (ret =? 0) then Some (out_write_exit bytes ret σ)
  else
    '(in_buffer, frame_size, out_frames, σ) ← prepare_write hw buffer_ bytes σ;
    Some (hardware_write hw in_buffer frame_size out_frames bytes σ).

(** [out_get_presentation_position].  [telemetry] is what
    [pcm_get_htimestamp] does: [Some avail] when it returns 0, and the time
    stamp it leaves behind.  The result is the return value with the
    contents of [*frames] and [*timestamp] after the call. *)
Definition out_get_presentation_position (telemetry : option Z * timespec)
    (frames : Z) (σ : hal_state) : option (Z * Z * timespec) :=
  match fst telemetry with
  | Some avail =>
      config ← pcm_config (out σ);
      let kernel_buffer_size :=
        to_size_t (to_uint (period_size config * period_count config)) in
      let signed_frames :=
        to_int64 (to_uint64 (written (out σ) - kernel_buffer_size + to_uint avail)) in
      if 0 <=? signed_frames
      then Some (0, to_uint64 signed_frames, snd telemetry)
      else Some (-1, frames, snd telemetry)
  | None => Some (-1, frames, snd telemetry)
  end.

(** The stream [adev_open_output_stream] builds: zeroed by [calloc], then
    put in standby. *)
Definition new_stream_out : stream_out :=
  {| pcm := None; pcm_config := None; standby := true; written := 0;
     resampler := None; buffer := None; buffer_frames := 0;
     write_threshold := 0; cur_write_threshold := 0;
     buffer_type := OUT_BUFFER_TYPE_UNKNOWN |}.

(** The device [adev_open] builds. *)
Definition new_audio_device : audio_device :=
  {| out_device := AUDIO_DEVICE_OUT_SPEAKER;
     in_device := Z.land AUDIO_DEVICE_IN_BUILTIN_MIC (Z.lnot AUDIO_DEVICE_BIT_IN);
     adev_standby := false; mic_mute := false;
     orientation := ORIENTATION_UNDEFINED; screen_off := false;
     active_out := None |}.

(** [adev_set_parameters]: [ret_orientation] and [ret_screen] are what
    [str_parms_get_str] returned for the two keys, the strings are the
    values it stored. *)
Definition adev_set_parameters (ret_orientation : Z) (orientation_value : string)
    (ret_screen : Z) (screen_value : string) (adev : audio_device)
  : Z * audio_device * list event :=
  let '(adev, evs) :=
    if 0 <=? ret_orientation then
      let orientation_ :=
        if String.eqb orientation_value "landscape" then ORIENTATION_LANDSCAPE
        else if String.eqb orientation_value "portrait" then ORIENTATION_PORTRAIT
        else if String.eqb orientation_value "square" then ORIENTATION_SQUARE
        else ORIENTATION_UNDEFINED in
      if negb (bool_decide (orientation_ = orientation adev)) then
        let adev := set_orientation orientation_ adev in
        (adev, select_devices adev)
      else (adev, [])
    else (adev, []) in
  let adev :=
    if 0 <=? ret_screen then
      if String.eqb screen_value "on" then set_screen_off false adev
      else set_screen_off true adev
    else adev in
  (ret_screen, adev, evs).

Definition adev_set_mic_mute (state : bool) (adev : audio_device)
  : Z * audio_device :=
  (0, set_mic_mute state adev).

(** *** The entry points on the device and its streams *)

(** The world [adev_open] builds. *)
Definition adev_open : world :=
  {| w_dev := new_audio_device; w_streams := ∅; w_log := [] |}.

(** An entry point of the stream at address [a].  There is no result when
    no stream lives at [a]. *)
Definition on_stream (a : addr) (f : hal_state -> option (Z * hal_state))
    (w : world) : option (Z * world) :=
  s ← w_streams w !! a;
  '(ret, σ) ← f {| dev := w_dev w; out := s; log := w_log w |};
  Some (ret, {| w_dev := dev σ; w_streams := <[a := out σ]> (w_streams w);
                w_log := log σ |}).

(** [adev_open_output_stream]: [calloc] is what the allocator returns; it
    never returns the address of a live stream. *)
Definition adev_open_output_stream (calloc : option addr) (w : world)
  : option (Z * world) :=
  match calloc with
  | None => Some (- ENOMEM, w)
  | Some a =>
      match w_streams w !! a with
      | Some _ => None
      | None =>
          Some (0, {| w_dev := w_dev w;
                      w_streams := <[a := new_stream_out]> (w_streams w);
                      w_log := w_log w |})
      end
  end.

(** [adev_close_output_stream]: [out_standby], then [free]. *)
Definition adev_close_output_stream (a : addr) (w : world) : option (Z * world) :=
  '(_, w) ← on_stream a (λ σ, Some (out_standby σ)) w;
  Some (0, {| w_dev := w_dev w; w_streams := delete a (w_streams w);
              w_log := w_log w |}).

Inductive hal_call :=
| AdevOpenOutputStream (calloc : option addr)
| AdevCloseOutputStream (stream : addr)
| OutWrite (stream : addr) (hw : hw_answers) (buffer_ : list Z) (bytes : Z)
| OutStandby (stream : addr)
| OutSetParameters (stream : addr) (ret value : Z)
| AdevSetParameters (ret_orientation : Z) (orientation_value : string)
    (ret_screen : Z) (screen_value : string)
| AdevSetMicMute (state : bool).

Definition hal_step (c : hal_call) (w : world) : option (Z * world) :=
  match c with
  | AdevOpenOutputStream calloc => adev_open_output_stream calloc w
  | AdevCloseOutputStream a => adev_close_output_stream a w
  | OutWrite a hw buffer_ bytes => on_stream a (out_write a hw buffer_ bytes) w
  | OutStandby a => on_stream a (λ σ, Some (out_standby σ)) w
  | OutSetParameters a ret value =>
      on_stream a (λ σ, Some (out_set_parameters ret value σ)) w
  | AdevSetParameters ro vo rs vs =>
      let '(ret, adev, evs) := adev_set_parameters ro vo rs vs (w_dev w) in
      Some (ret, {| w_dev := adev; w_streams := w_streams w;
                    w_log := w_log w ++ evs |})
  | AdevSetMicMute state =>
      let '(ret, adev) := adev_set_mic_mute state (w_dev w) in
      Some (ret, {| w_dev := adev; w_streams := w_streams w; w_log := w_log w |})
  end.

Fixpoint hal_run (cs : list hal_call) (w : world) : option world :=
  match cs with
  | [] => Some w
  | c :: cs => '(_, w) ← hal_step c w; hal_run cs w
  end.

(** The states the entry points can bring about, from [adev_open]. *)
Inductive reachable : world -> Prop :=
| reachable_open : reachable adev_open
| reachable_step c w ret w' :
    reachable w -> hal_step c w = Some (ret, w') -> reachable w'.

(** *** Notions used to state the properties *)

(** What holds of every stream the entry points can bring about: the
    configuration pointer is NULL or points to [pcm_config_out], there is
    no resampler and no scratch buffer, a stream out of standby has its
    configuration and a PCM handle that is ready, and a handle left in a
    stream in standby is not ready. *)
Definition stream_ok (s : stream_out) : Prop :=
  (pcm_config s = None \/ pcm_config s = Some pcm_config_out)
  /\ resampler s = None
  /\ buffer s = None
  /\ (standby s = false ->
      pcm_config s = Some pcm_config_out
      /\ exists p, pcm s = Some p /\ pcm_is_ready p = true)
  /\ (standby s = true -> forall p, pcm s = Some p -> pcm_is_ready p = false).

(** A call that sets up or runs the resampler. *)
Definition is_resampling (e : event) : bool :=
  match e with
  | EvCreateResampler _ _ _ | EvMalloc _ | EvResample _ _ => true
  | _ => false
  end.


(** The stream as [out_write] sees it at the test of the buffer type, for a
    route that is not SCO: the type stored, and the thresholds after the
    block that adapts them. *)
Definition adapted (config : pcm_config_t) (s : stream_out) : stream_out :=
  if bool_decide (OUT_BUFFER_TYPE_SHORT = buffer_type s) then s
  else adapt_buffer_type config OUT_BUFFER_TYPE_SHORT s.

(** The fill level the throttling loop of a call ends with. *)
Definition kernel_fill (config : pcm_config_t) (hw : hw_answers) (cwt : Z) : Z :=
  fst (throttle config cwt (hw_buffer_size hw) (hw_htimestamp hw) 0 0).

Definition sco_on (d : audio_device) : bool :=
  nonzero (Z.land (out_device d) AUDIO_DEVICE_OUT_ALL_SCO).

Definition speaker_on (d : audio_device) : bool :=
  nonzero (Z.land (out_device d) AUDIO_DEVICE_OUT_SPEAKER).

(** The call finds the buffer type Unknown: the stream was never written
    to on a route that is not SCO, or the call leaves standby on a route
    with the speaker, which resets the type. *)
Definition cold_start (σ : hal_state) : bool :=
  (standby (out σ) && speaker_on (dev σ))
  || bool_decide (buffer_type (out σ) = OUT_BUFFER_TYPE_UNKNOWN).

(** The divisors of the write path are not zero: [channels * 4] and [rate]
    in the throttling loop, [period_size] in the threshold.  C gives no
    result to a division by zero, [Z] gives 0; the properties of calls that
    divide are stated for configurations that pass this test. *)
Definition config_divides (config : pcm_config_t) : bool :=
  (0 <? to_uint (channels config * 4)) && (0 <? rate config)
  && (0 <? period_size config).

(** The conditions under which [out_write] has a defined result once the
    stream is out of standby: the configuration pointer is set and its
    divisors are not zero, the channel loop can end, and a resampler is
    there when the rates differ. *)
Definition can_write (bytes : Z) (s : stream_out) : bool :=
  match pcm_config s with
  | None => false
  | Some config =>
      config_divides config
      && ((channels config >=? 2) || (bytes / audio_stream_out_frame_size <? 2 ^ 32))
      && ((out_get_sample_rate =? rate config)
          || match resampler s with Some _ => true | None => false end)
  end.

(** The number of output frames of a call: what the resampler produced when
    the rates differ, the input frames otherwise. *)
Definition out_frames_of (hw : hw_answers) (bytes : Z) (s : stream_out) : Z :=
  match pcm_config s with
  | Some config =>
      if out_get_sample_rate =? rate config
      then bytes / audio_stream_out_frame_size
      else to_size_t (fst (hw_resample hw))
  | None => 0
  end.

(** A sequence of calls on one stream. *)
Inductive stream_call :=
| CallWrite (hw : hw_answers) (buffer_ : list Z) (bytes : Z)
| CallStandby.

Definition run_call (self : addr) (c : stream_call) (σ : hal_state)
  : option hal_state :=
  match c with
  | CallWrite hw buffer_ bytes => snd <$> out_write self hw buffer_ bytes σ
  | CallStandby => Some (snd (out_standby σ))
  end.

Fixpoint run_calls (self : addr) (cs : list stream_call) (σ : hal_state)
  : option hal_state :=
  match cs with
  | [] => Some σ
  | c :: cs => σ ← run_call self c σ; run_calls self cs σ
  end.

(** The frames the hardware accepts in one call: the output frames of a
    write that gets to [pcm_write] and has it return 0, none otherwise. *)
Definition call_accepted (self : addr) (c : stream_call) (σ : hal_state) : Z :=
  match c with
  | CallWrite hw _ bytes =>
      match leave_standby self hw σ with
      | Some (ret, σ1) =>
          if (ret =? 0) && (hw_pcm_write hw =? 0)
          then out_frames_of hw bytes (out σ1)
          else 0
      | None => 0
      end
  | CallStandby => 0
  end.

Fixpoint frames_accepted (self : addr) (cs : list stream_call) (σ : hal_state) : Z :=
  match cs with
  | [] => 0
  | c :: cs =>
      call_accepted self c σ
      + match run_call self c σ with
        | Some σ => frames_accepted self cs σ
        | None => 0
        end
  end.

Definition call_in_range (c : stream_call) : Prop :=
  match c with
  | CallWrite _ _ bytes => 0 <= bytes
  | CallStandby => True
  end.

End Hal.

(** A call of [pcm_write]. *)
Definition is_pcm_write (e : event) : bool :=
  match e with EvPcmWrite _ _ _ => true | _ => false end.

(** A call of [usleep]. *)
Definition is_usleep (e : event) : bool :=
  match e with EvUsleep _ => true | _ => false end.

(** The samples of stereo frames as they lie in the caller's buffer. *)
Fixpoint interleave (frames : list (Z * Z)) : list Z :=
  match frames with
  | [] => []
  | (l, r) :: frames => l :: r :: interleave frames
  end.

(** ** Further entry points and notions *)

Section More.

Variable bc : build_config.

(** [out_get_buffer_size]: the bytes of one period of stream frames. *)
Definition out_get_buffer_size : Z :=
  to_size_t bc (period_size (pcm_config_out bc) * audio_stream_out_frame_size).

(** [adev_get_mic_mute]: the return value and what it stores in [*state]. *)
Definition adev_get_mic_mute (adev : audio_device) : Z * bool :=
  (0, mic_mute adev).

(** The target [out_write] stores in [write_threshold] when it adopts the
    short buffer. *)
Definition short_write_threshold (config : pcm_config_t) : Z :=
  to_int (to_size_t bc (period_size config
                        * to_size_t bc (OUT_SHORT_PERIOD_COUNT bc))).

(** What the buffer type of a stream says about its target. *)
Definition buffer_type_ok (s : stream_out) : Prop :=
  buffer_type s <> OUT_BUFFER_TYPE_LONG
  /\ (buffer_type s = OUT_BUFFER_TYPE_SHORT ->
      write_threshold s = short_write_threshold (pcm_config_out bc)).

(** [active_out] points to a stream that is there and out of standby. *)
Definition active_out_live (w : world) : Prop :=
  forall a, active_out (w_dev w) = Some a ->
    exists s, w_streams w !! a = Some s /\ standby s = false.

(** The calls a client may make in a world: a stream entry point on a
    stream that is open, an open at an address the allocator may return,
    and for [out_write] a stream that holds no closed handle (no start has
    failed on it) and, onto a mono PCM, a frame count the 32-bit counter of
    the channel loop can reach. *)
Definition call_allowed (c : hal_call) (w : world) : Prop :=
  match c with
  | AdevOpenOutputStream (Some a) => w_streams w !! a = None
  | AdevOpenOutputStream None => True
  | AdevCloseOutputStream a => is_Some (w_streams w !! a)
  | OutWrite a _ _ bytes =>
      (exists s, w_streams w !! a = Some s
                 /\ (standby s = true -> pcm s = None))
      /\ (channels (pcm_config_out bc) >= 2
          \/ bytes / audio_stream_out_frame_size < 2 ^ 32)
  | OutStandby a => is_Some (w_streams w !! a)
  | OutSetParameters a _ _ => is_Some (w_streams w !! a)
  | AdevSetParameters _ _ _ _ => True
  | AdevSetMicMute _ => True
  end.

End More.

(** The sum of the sleeps of a throttling loop. *)
Definition total_sleep (sleeps : list Z) : Z := foldr Z.add 0 sleeps.

(** A call of [pcm_write] or [pcm_close] gets a handle that is there, and
    [pcm_write] one that is ready. *)
Definition handle_ok (e : event) : bool :=
  match e with
  | EvPcmWrite (Some p) _ _ => pcm_is_ready p
  | EvPcmWrite None _ _ => false
  | EvPcmClose None => false
  | _ => true
  end.

Definition is_set_mic_mute (c : hal_call) : bool :=
  match c with AdevSetMicMute _ => true | _ => false end.


(** ** Sample data

    A board with periods of 240 frames, two of them for the short buffer,
    eight in the ring, stereo at 48 kHz; the same board with a mono PCM; and
    answers of the hardware for one call. *)

Definition board : build_config :=
  {| LONG_BIT := 64; OUT_PERIOD_SIZE := 240; OUT_SHORT_PERIOD_COUNT := 2;
     OUT_LONG_PERIOD_COUNT := 8; NUM_OF_CHANNELS := 2;
     OUT_SAMPLING_RATE := 48000; PCM_CARD := 0; PCM_DEVICE := 0 |}.

Definition mono_board : build_config :=
  {| LONG_BIT := 64; OUT_PERIOD_SIZE := 240; OUT_SHORT_PERIOD_COUNT := 2;
     OUT_LONG_PERIOD_COUNT := 8; NUM_OF_CHANNELS := 1;
     OUT_SAMPLING_RATE := 48000; PCM_CARD := 0; PCM_DEVICE := 0 |}.

(** The first board built for the 32-bit ABI. *)
Definition board32 : build_config :=
  {| LONG_BIT := 32; OUT_PERIOD_SIZE := 240; OUT_SHORT_PERIOD_COUNT := 2;
     OUT_LONG_PERIOD_COUNT := 8; NUM_OF_CHANNELS := 2;
     OUT_SAMPLING_RATE := 48000; PCM_CARD := 0; PCM_DEVICE := 0 |}.

(** The PCM opens, the ring of 1920 frames reports [avails] free frames in
    turn, and [pcm_write] returns [ret]. *)
Definition hw_with (avails : list (option Z)) (ret : Z) : hw_answers :=
  {| hw_pcm_open := {| pcm_fd := 5 |}; hw_create_resampler := None;
     hw_malloc := None; hw_htimestamp := avails; hw_buffer_size := 1920;
     hw_resample := (0, []); hw_pcm_write := ret |}.

(** The PCM does not open. *)
Definition hw_closed : hw_answers :=
  {| hw_pcm_open := {| pcm_fd := -1 |}; hw_create_resampler := None;
     hw_malloc := None; hw_htimestamp := []; hw_buffer_size := 0;
     hw_resample := (0, []); hw_pcm_write := 0 |}.

(** A stream of [b] playing on the speaker, [written] frames so far, with
    the given thresholds. *)
Definition playing (b : build_config) (written_ wt cwt : Z) : hal_state :=
  {| dev := set_active_out (Some 7%nat) new_audio_device;
     out := {| pcm := Some {| pcm_fd := 5 |};
               pcm_config := Some (pcm_config_out b);
               standby := false; written := written_; resampler := None;
               buffer := None; buffer_frames := 0; write_threshold := wt;
               cur_write_threshold := cwt;
               buffer_type := OUT_BUFFER_TYPE_SHORT |};
     log := [] |}.

(** A stream just opened on a device just opened. *)
Definition fresh : hal_state :=
  {| dev := new_audio_device; out := new_stream_out; log := [] |}.

(** The state after one call on a stream whose threshold is 120 frames
    above the target. *)
Definition ramp_call_state : hal_state :=
  Eval vm_compute in
    match out_write board 7%nat (hw_with [Some 1500] 0) [] 0 (playing board 0 480 600) with
    | Some (_, σ') => σ'
    | None => fresh
    end.

(** A fresh stream after a start that failed. *)
Definition failed_start_state : hal_state :=
  Eval vm_compute in
    match start_output_stream board 7%nat hw_closed fresh with
    | Some (_, σ) => σ
    | None => fresh
    end.

(** Three stereo frames. *)
Definition three_frames : list (Z * Z) := [(10, 11); (20, 21); (30, 31)].

(** Two writes of two frames each with a standby in between. *)
Definition two_writes : list stream_call :=
  [CallWrite (hw_with [] 0) [1; 2; 3; 4] 16; CallStandby;
   CallWrite (hw_with [] 0) [5; 6; 7; 8] 16].

(** The stream after these calls, from a fresh one. *)
Definition two_writes_state : hal_state :=
  Eval vm_compute in default fresh (run_calls board 7%nat two_writes fresh).

(** The world after a stream was opened at address 7 and written to. *)
Definition world_after_write : world :=
  Eval vm_compute in
    default adev_open
      (hal_run board [AdevOpenOutputStream (Some 7%nat);
                      OutWrite 7%nat (hw_with [Some 1500] 0) [1; 2; 3; 4] 16]
         adev_open).

(** A stream playing on a Bluetooth SCO route. *)
Definition sco_playing : hal_state :=
  with_dev (set_out_device AUDIO_DEVICE_OUT_BLUETOOTH_SCO) (playing board 0 480 480).

(** The states after one write: on the SCO route, on a playing stream
    whose hardware reports an underrun, and on a fresh stream. *)
Definition sco_write_state : hal_state :=
  Eval vm_compute in
    match out_write board 7%nat (hw_with [Some 100] 0) [1; 2; 3; 4] 16 sco_playing with
    | Some (_, σ') => σ'
    | None => fresh
    end.

Definition underrun_state : hal_state :=
  Eval vm_compute in
    match out_write board 7%nat (hw_with [Some 1500] (- EPIPE)) [1; 2; 3; 4] 16
            (playing board 0 480 480) with
    | Some (_, σ') => σ'
    | None => fresh
    end.

Definition first_write_state : hal_state :=
  Eval vm_compute in
    match out_write board 7%nat (hw_with [Some 1500] 0) [1; 2; 3; 4] 16 fresh with
    | Some (_, σ') => σ'
    | None => fresh
    end.

(** Readings of a ring that drains slowly: 100, 500 and 1500 of its 1920
    frames free. *)
Definition slow_ring : list (option Z) := [Some 100; Some 500; Some 1500].

(** The world after the microphone was muted and a stream opened. *)
Definition world_muted : world :=
  Eval vm_compute in
    default adev_open
      (hal_run board [AdevSetMicMute true; AdevOpenOutputStream (Some 7%nat)]
         adev_open).

(** The stream at address 7 of [world_after_write]. *)
Definition stream_after_write : stream_out :=
  Eval vm_compute in
    default new_stream_out (w_streams world_after_write !! 7%nat).

(** * Properties *)

(** ** Machine integers in range *)

Lemma to_int_small z : INT_MIN <= z <= INT_MAX -> to_int z = z.
Proof.
  unfold to_int, wrap_signed, INT_MIN, INT_MAX. intros H.
  rewrite Z.mod_small; lia.
Qed.

Lemma to_uint_small z : 0 <= z < 2 ^ 32 -> to_uint z = z.
Proof. unfold to_uint, wrap_unsigned. intros H. apply Z.mod_small. lia. Qed.

Lemma to_uint64_small z : 0 <= z < 2 ^ 64 -> to_uint64 z = z.
Proof. unfold to_uint64, wrap_unsigned. intros H. apply Z.mod_small. lia. Qed.

Lemma to_int64_small z : - 2 ^ 63 <= z < 2 ^ 63 -> to_int64 z = z.
Proof.
  unfold to_int64, wrap_signed. intros H.
  rewrite Z.mod_small; lia.
Qed.

Lemma to_int64_to_uint64 z : to_int64 (to_uint64 z) = to_int64 z.
Proof.
  unfold to_int64, to_uint64, wrap_signed, wrap_unsigned.
  f_equal. rewrite Zplus_mod_idemp_l. reflexivity.
Qed.

Lemma to_int_range z : INT_MIN <= to_int z <= INT_MAX.
Proof.
  unfold to_int, wrap_signed, INT_MIN, INT_MAX.
  pose proof (Z.mod_pos_bound (z + 2 ^ (32 - 1)) (2 ^ 32) ltac:(lia)). lia.
Qed.

(** *** Integers of the width of the ABI *)

Section Abi.

Variable bc : build_config.
Hypothesis Habi : abi_ok bc.

Lemma long_bit_bounds : 2 ^ 32 <= 2 ^ LONG_BIT bc /\ 2 ^ 31 <= 2 ^ (LONG_BIT bc - 1).
Proof. destruct Habi as [-> | ->]; split; (apply Z.pow_le_mono_r; lia). Qed.

Lemma to_size_t_small z : 0 <= z < 2 ^ LONG_BIT bc -> to_size_t bc z = z.
Proof. unfold to_size_t, wrap_unsigned. intros H. apply Z.mod_small. lia. Qed.

Lemma to_size_t_uint z : 0 <= z < 2 ^ 32 -> to_size_t bc z = z.
Proof.
  intros H. apply to_size_t_small.
  pose proof long_bit_bounds. lia.
Qed.

Lemma to_size_t_nonneg z : 0 <= to_size_t bc z.
Proof.
  unfold to_size_t, wrap_unsigned. apply Z.mod_pos_bound.
  destruct Habi as [-> | ->]; lia.
Qed.

Lemma to_ssize_t_small z :
  - 2 ^ (LONG_BIT bc - 1) <= z < 2 ^ (LONG_BIT bc - 1) -> to_ssize_t bc z = z.
Proof.
  unfold to_ssize_t, wrap_signed. intros H.
  assert (2 ^ LONG_BIT bc = 2 * 2 ^ (LONG_BIT bc - 1))
    by (destruct Habi as [-> | ->]; reflexivity).
  rewrite Z.mod_small; lia.
Qed.

(** Narrowing a [size_t] to an [int] only looks at the low 32 bits. *)
Lemma to_int_to_size_t z : to_int (to_size_t bc z) = to_int z.
Proof.
  unfold to_int, to_size_t, wrap_signed, wrap_unsigned.
  f_equal.
  change (2 ^ (32 - 1)) with (2 ^ 31).
  assert (Hw : exists k, 2 ^ LONG_BIT bc = k * 2 ^ 32).
  { destruct Habi as [-> | ->]; [exists 1|exists (2 ^ 32)]; reflexivity. }
  destruct Hw as [k Hk].
  pose proof (Z.div_mod z (2 ^ LONG_BIT bc)) as Hz.
  assert (2 ^ LONG_BIT bc <> 0) by (destruct Habi as [-> | ->]; discriminate).
  specialize (Hz ltac:(assumption)).
  replace (z mod 2 ^ LONG_BIT bc + 2 ^ 31)
    with (z + 2 ^ 31 + (- k * (z / 2 ^ LONG_BIT bc)) * 2 ^ 32) by nia.
  apply Z_mod_plus_full.
Qed.

End Abi.

(** ** Standby *)

Lemma do_out_standby_standby σ : standby (out (do_out_standby σ)) = true.
Proof.
  unfold do_out_standby.
  destruct (standby (out σ)) eqn:E; simpl; [exact E|].
  destruct (resampler (out σ)), (buffer (out σ)); reflexivity.
Qed.

Lemma do_out_standby_noop σ : standby (out σ) = true -> do_out_standby σ = σ.
Proof. intros H. unfold do_out_standby. rewrite H. reflexivity. Qed.

Lemma do_out_standby_active σ :
  standby (out σ) = false ->
  standby (out (do_out_standby σ)) = true
  /\ pcm (out (do_out_standby σ)) = None
  /\ pcm_config (out (do_out_standby σ)) = pcm_config (out σ)
  /\ resampler (out (do_out_standby σ)) = None
  /\ buffer (out (do_out_standby σ)) = None
  /\ written (out (do_out_standby σ)) = written (out σ)
  /\ active_out (dev (do_out_standby σ)) = None
  /\ out_device (dev (do_out_standby σ)) = out_device (dev σ).
Proof.
  intros Hs. unfold do_out_standby. rewrite Hs. cbn.
  destruct (resampler (out σ)) eqn:Er; cbn;
    destruct (buffer (out σ)) eqn:Eb; cbn; rewrite ?Er, ?Eb;
    repeat split; reflexivity.
Qed.

(** C7.  Calling [out_standby] a second time changes nothing: stream,
    device and effect log are those the first call left, so the second call
    closes no PCM handle, releases no resampler and frees no buffer; both
    calls return 0. *)
Theorem out_standby_idempotent (σ : hal_state) :
  fst (out_standby σ) = 0
  /\ fst (out_standby (snd (out_standby σ))) = 0
  /\ snd (out_standby (snd (out_standby σ))) = snd (out_standby σ).
Proof.
  repeat split. simpl.
  apply do_out_standby_noop, do_out_standby_standby.
Qed.

(** ** Presentation position *)

(** C2.  With a telemetry read that succeeds and stores [avail],
    [out_get_presentation_position] returns 0 and stores
    [written - period_size * period_count + avail] together with the time
    stamp of the read, provided that value is not negative; when it is
    negative, or when the read fails, the call returns -1 and leaves
    [*frames] as it was.  The counts are taken in their machine ranges:
    the ring capacity fits an [unsigned int] and the position an
    [int64_t]. *)
Theorem presentation_position_formula (bc : build_config)
    (telemetry : option Z * timespec) (frames : Z) (σ : hal_state)
    (config : pcm_config_t) :
  abi_ok bc ->
  pcm_config (out σ) = Some config ->
  0 <= period_size config * period_count config < 2 ^ 32 ->
  0 <= written (out σ) ->
  (forall avail, fst telemetry = Some avail ->
     0 <= avail < 2 ^ 32 ->
     let position :=
       written (out σ) - period_size config * period_count config + avail in
     position < 2 ^ 63 ->
     (0 <= position ->
        out_get_presentation_position bc telemetry frames σ
        = Some (0, position, snd telemetry))
     /\ (position < 0 ->
        out_get_presentation_position bc telemetry frames σ
        = Some (-1, frames, snd telemetry)))
  /\ (fst telemetry = None ->
      out_get_presentation_position bc telemetry frames σ
      = Some (-1, frames, snd telemetry)).
Proof.
  intros Habi Hc Hcap Hw. split.
  - intros avail Ha Hav position Hp.
    unfold out_get_presentation_position. rewrite Ha, Hc. simpl.
    rewrite (to_uint_small (period_size config * period_count config)) by lia.
    rewrite (to_size_t_uint bc Habi (period_size config * period_count config)) by lia.
    rewrite (to_uint_small avail) by lia.
    rewrite to_int64_to_uint64.
    fold position.
    rewrite (to_int64_small position) by (unfold position; lia).
    split; intros Hs.
    + destruct (0 <=? position) eqn:E; [|lia].
      rewrite to_uint64_small by lia. reflexivity.
    + destruct (0 <=? position) eqn:E; [lia|]. reflexivity.
  - intros Hn. unfold out_get_presentation_position. rewrite Hn. reflexivity.
Qed.

(** The figures of the specification: 1000 frames written, a ring of 480
    frames, 100 frames reported. *)
Lemma presentation_position_formula_witness :
  let config := {| channels := 2; rate := 48000; period_size := 240;
                   period_count := 2; format := PCM_FORMAT_S32_LE;
                   start_threshold := 480 |} in
  let s := {| pcm := Some {| pcm_fd := 3 |}; pcm_config := Some config;
              standby := false; written := 1000; resampler := None;
              buffer := None; buffer_frames := 0; write_threshold := 480;
              cur_write_threshold := 480;
              buffer_type := OUT_BUFFER_TYPE_SHORT |} in
  let σ := {| dev := new_audio_device; out := s; log := [] |} in
  let ts := {| tv_sec := 12; tv_nsec := 500 |} in
  out_get_presentation_position board (Some 100, ts) 0 σ = Some (0, 620, ts).
Proof.
  intros config s σ ts.
  refine (proj1 (proj1 (presentation_position_formula board (Some 100, ts) 0 σ
                          config (or_intror eq_refl) eq_refl _ _)
                   100 eq_refl _ _) _);
    simpl; lia.
Defined.

Lemma to_int_shift a k : to_int (a + k * 2 ^ 32) = to_int a.
Proof.
  unfold to_int, wrap_signed. f_equal.
  replace (a + k * 2 ^ 32 + 2 ^ (32 - 1)) with (a + 2 ^ (32 - 1) + k * 2 ^ 32) by lia.
  apply Z_mod_plus_full.
Qed.

Lemma to_int_unfold a : exists k, to_int a = a + k * 2 ^ 32.
Proof.
  unfold to_int, wrap_signed.
  exists (- ((a + 2 ^ (32 - 1)) / 2 ^ 32)).
  pose proof (Z.div_mod (a + 2 ^ (32 - 1)) (2 ^ 32) ltac:(lia)). lia.
Qed.

Lemma to_int_add_l a b : to_int (to_int a + b) = to_int (a + b).
Proof.
  destruct (to_int_unfold a) as [k ->].
  replace (a + k * 2 ^ 32 + b) with (a + b + k * 2 ^ 32) by lia.
  apply to_int_shift.
Qed.

(** Boolean comparisons of the embedding, turned into propositions. *)
Ltac zbool :=
  repeat match goal with
  | H : (_ >? _) = true |- _ => apply Z.gtb_lt in H
  | H : (_ >? _) = false |- _ => rewrite Z.gtb_ltb in H; apply Z.ltb_ge in H
  | H : (_ <? _) = true |- _ => apply Z.ltb_lt in H
  | H : (_ <? _) = false |- _ => apply Z.ltb_ge in H
  | H : (_ <=? _) = true |- _ => apply Z.leb_le in H
  | H : (_ <=? _) = false |- _ => apply Z.leb_gt in H
  | H : (_ =? _) = true |- _ => apply Z.eqb_eq in H
  | H : (_ =? _) = false |- _ => apply Z.eqb_neq in H
  | H : negb _ = true |- _ => apply negb_true_iff in H
  | H : negb _ = false |- _ => apply negb_false_iff in H
  | H : (_ && _) = true |- _ => apply andb_true_iff in H; destruct H
  end.

(** ** The write threshold *)

Section Threshold.

Variable bc : build_config.

(** The step of [ramp]: it leaves the target alone, and either moves the
    current threshold by at most a quarter period towards the target
    without passing it, or takes the fast-recovery branch. *)
Lemma ramp_step (config : pcm_config_t) (kernel_frames : Z) (s : stream_out) :
  abi_ok bc ->
  0 <= period_size config < 2 ^ 32 ->
  INT_MIN <= cur_write_threshold s <= INT_MAX ->
  0 <= write_threshold s ->
  write_threshold s + period_size config / 4 <= INT_MAX ->
  write_threshold (ramp bc config kernel_frames s) = write_threshold s
  /\ ((Z.abs (cur_write_threshold (ramp bc config kernel_frames s)
              - cur_write_threshold s) <= period_size config / 4
       /\ (cur_write_threshold s <= write_threshold s ->
           cur_write_threshold s
           <= cur_write_threshold (ramp bc config kernel_frames s)
           <= write_threshold s)
       /\ (write_threshold s <= cur_write_threshold s ->
           write_threshold s
           <= cur_write_threshold (ramp bc config kernel_frames s)
           <= cur_write_threshold s))
      \/ (cur_write_threshold s = write_threshold s
          /\ kernel_frames < write_threshold s
          /\ to_int (write_threshold s - kernel_frames)
             > to_int (period_size config * OUT_SHORT_PERIOD_COUNT bc)
          /\ cur_write_threshold (ramp bc config kernel_frames s)
             = to_int ((to_size_t bc kernel_frames / period_size config + 1)
                       * period_size config + period_size config / 4))).
Proof.
  intros Habi Hps Hc Ht Hq.
  assert (Hdiv : 0 <= period_size config / 4 < 2 ^ 30).
  { split; [apply Z.div_pos; lia|].
    apply Z.div_lt_upper_bound; lia. }
  unfold INT_MIN, INT_MAX in *.
  unfold ramp. rewrite (to_size_t_uint bc Habi (period_size config)) by lia.
  destruct (cur_write_threshold s >? write_threshold s) eqn:E1; zbool.
  - simpl. rewrite (to_int_to_size_t bc Habi).
    rewrite to_int_small by (unfold INT_MIN, INT_MAX; lia).
    destruct (_ <? _) eqn:E2; simpl; zbool;
      (split; [reflexivity|left; lia]).
  - destruct (cur_write_threshold s <? write_threshold s) eqn:E3; zbool.
    + simpl. rewrite (to_int_to_size_t bc Habi).
      rewrite to_int_small by (unfold INT_MIN, INT_MAX; lia).
      destruct (_ >? _) eqn:E2; simpl; zbool;
        (split; [reflexivity|left; lia]).
    + destruct (_ && _) eqn:E4; simpl.
      * zbool. rewrite (to_int_to_size_t bc Habi) in *.
        split; [reflexivity|right].
        repeat split; try lia.
        rewrite !(to_int_to_size_t bc Habi). apply to_int_add_l.
      * split; [reflexivity|left; lia].
Qed.

End Threshold.

(** ** Channel reduction *)

Lemma interleave_length frames :
  length (interleave frames) = (2 * length frames)%nat.
Proof.
  induction frames as [|[l r] frames IH]; simpl; [reflexivity|].
  rewrite IH. lia.
Qed.

Lemma interleave_lookup_even frames : forall j : nat,
  interleave frames !! (2 * j)%nat = fst <$> frames !! j.
Proof.
  induction frames as [|[l r] frames IH]; intros j; cbn [interleave].
  - rewrite !lookup_nil. reflexivity.
  - destruct j as [|j]; [reflexivity|].
    replace (2 * S j)%nat with (S (S (2 * j))) by lia.
    exact (IH j).
Qed.

(** The channel loop after [k] rounds: slots 1 to [k] hold what slots 2 to
    [2 * k] held at the start, the other slots are untouched. *)
Lemma discard_loop_lookup (orig : list Z) (k : nat) :
  Z.of_nat k < 2 ^ 31 ->
  let b := foldl (λ b i, <[i := default 0 (b !! Z.to_nat (to_uint (Z.of_nat i * 2)))]> b)
                 orig (seq 1 k) in
  length b = length orig
  /\ forall j : nat,
       b !! j = if decide ((1 <= j <= k)%nat /\ (j < length orig)%nat)
                then Some (default 0 (orig !! (2 * j)%nat))
                else orig !! j.
Proof.
  induction k as [|k IH]; intros Hk; cbv zeta.
  - simpl. split; [reflexivity|]. intros j.
    destruct (decide _) as [[? _]|_]; [lia|reflexivity].
  - rewrite seq_S, foldl_app. cbn [foldl Nat.add].
    destruct IH as [Hlen Hlk]; [lia|].
    set (b := foldl _ orig (seq 1 k)) in *.
    rewrite to_uint_small by lia.
    replace (Z.to_nat (Z.of_nat (S k) * 2)) with (2 * S k)%nat by lia.
    split; [rewrite length_insert; exact Hlen|].
    intros j.
    destruct (decide (j = S k)) as [->|Hne].
    + destruct (decide ((S k < length orig)%nat)) as [Hin|Hout].
      * rewrite list_lookup_insert_eq by lia.
        rewrite Hlk.
        destruct (decide ((1 <= 2 * S k <= k)%nat /\ _)) as [[? _]|_]; [lia|].
        destruct (decide _) as [_|Hn]; [reflexivity|lia].
      * rewrite list_insert_ge by lia.
        rewrite Hlk.
        destruct (decide ((1 <= S k <= k)%nat /\ _)) as [[? _]|_]; [lia|].
        destruct (decide _) as [[_ ?]|_]; [lia|reflexivity].
    + rewrite list_lookup_insert_ne by congruence.
      rewrite Hlk.
      destruct (decide ((1 <= j <= k)%nat /\ _)) as [[? ?]|Hn];
        destruct (decide ((1 <= j <= S k)%nat /\ _)) as [[? ?]|Hn'];
        try reflexivity; lia.
Qed.

(** The channel loop on [n] stereo frames leaves the left samples in the
    first [n] slots. *)
Lemma discard_right_channel_left (frames : list (Z * Z)) :
  Z.of_nat (length frames) <= 2 ^ 31 ->
  take (length frames)
       (discard_right_channel (Z.of_nat (length frames)) (interleave frames))
  = frames.*1
  /\ length (discard_right_channel (Z.of_nat (length frames)) (interleave frames))
     = (2 * length frames)%nat.
Proof.
  intros Hn. unfold discard_right_channel.
  rewrite Nat2Z.id.
  destruct (discard_loop_lookup (interleave frames) (length frames - 1))
    as [Hlen Hlk]; [lia|].
  set (b := foldl _ _ _) in *.
  rewrite interleave_length in *.
  split; [|exact Hlen].
  apply list_eq. intros j.
  rewrite list_lookup_fmap.
  destruct (decide (j < length frames)%nat) as [Hj|Hj].
  - rewrite lookup_take_lt by exact Hj.
    rewrite Hlk.
    destruct (decide _) as [_|Hn'].
    + rewrite interleave_lookup_even.
      destruct (frames !! j) as [[l r]|] eqn:E; [reflexivity|].
      apply lookup_ge_None in E. lia.
    + assert (j = 0%nat) as -> by lia.
      apply (interleave_lookup_even frames 0).
  - rewrite lookup_take_ge by lia.
    symmetry. rewrite fmap_None. apply lookup_ge_None. lia.
Qed.

(** ** The stages of [out_write] *)

Section Stages.

Variable bc : build_config.

Lemma start_output_stream_inv self hw σ ret σ1 :
  start_output_stream bc self hw σ = Some (ret, σ1) ->
  written (out σ1) = written (out σ)
  /\ cur_write_threshold (out σ1) = cur_write_threshold (out σ)
  /\ write_threshold (out σ1) = write_threshold (out σ)
  /\ standby (out σ1) = standby (out σ)
  /\ out_device (dev σ1) = out_device (dev σ)
  /\ buffer_type (out σ1)
     = (if speaker_on (dev σ) then OUT_BUFFER_TYPE_UNKNOWN else buffer_type (out σ))
  /\ pcm_config (out σ1)
     = (if speaker_on (dev σ) then Some (pcm_config_out bc) else pcm_config (out σ))
  /\ (exists evs, log σ1 = log σ ++ evs
                  /\ forallb (λ e, negb (is_pcm_write e || is_usleep e)) evs = true)
  /\ ((ret = - ENOMEM /\ dev σ1 = dev σ)
      \/ (ret = 0 /\ active_out (dev σ1) = Some self
          /\ is_Some (pcm_config (out σ1)))).
Proof.
  unfold start_output_stream, speaker_on. intros H.
  repeat case_match; simplify_eq; simpl in *;
    repeat split; eauto;
    try (eexists; split; [rewrite <- ?app_assoc; reflexivity|reflexivity]);
    try (eexists; split; [symmetry; apply app_nil_r|reflexivity]);
    try (left; split; reflexivity);
    try (right; repeat split; eauto).
Qed.

Lemma leave_standby_inv self hw σ ret σ1 :
  leave_standby bc self hw σ = Some (ret, σ1) ->
  (standby (out σ) = false /\ ret = 0 /\ σ1 = σ)
  \/ (standby (out σ) = true /\ ret <> 0
      /\ start_output_stream bc self hw σ = Some (ret, σ1))
  \/ (standby (out σ) = true /\ ret = 0
      /\ exists σs, start_output_stream bc self hw σ = Some (0, σs)
                    /\ σ1 = with_out (set_standby false) σs).
Proof.
  unfold leave_standby. intros H.
  destruct (standby (out σ)) eqn:Es; [|left; simplify_eq; auto].
  right.
  destruct (start_output_stream bc self hw σ) as [[r σs]|] eqn:E; simpl in H;
    [|discriminate].
  destruct (r =? 0) eqn:Er; simpl in H; zbool; simplify_eq.
  - right. eauto.
  - left. auto.
Qed.

Lemma forallb_map_usleep (P : event -> bool) (l : list Z) :
  (forall us, P (EvUsleep us) = true) -> forallb P (EvUsleep <$> l) = true.
Proof.
  intros HP. induction l as [|x l IH]; simpl; [reflexivity|].
  rewrite HP. exact IH.
Qed.

Lemma prepare_write_inv hw buffer_ bytes σ in_buffer frame_size out_frames σ' :
  prepare_write bc hw buffer_ bytes σ
  = Some (in_buffer, frame_size, out_frames, σ') ->
  exists config,
    pcm_config (out σ) = Some config
    /\ dev σ' = dev σ
    /\ out σ'
       = (if sco_on (dev σ) then out σ
          else ramp bc config
                 (kernel_fill bc config hw
                    (cur_write_threshold (adapted bc config (out σ))))
                 (adapted bc config (out σ)))
    /\ (exists evs, log σ' = log σ ++ evs
                    /\ forallb (λ e, negb (is_pcm_write e)) evs = true)
    /\ frame_size
       = (if 2 >? channels config then audio_stream_out_frame_size / 2
          else audio_stream_out_frame_size)
    /\ (out_get_sample_rate bc = rate config ->
        out_frames = bytes / audio_stream_out_frame_size
        /\ in_buffer
           = (if 2 >? channels config
              then discard_right_channel (bytes / audio_stream_out_frame_size) buffer_
              else buffer_)).
Proof.
  unfold prepare_write, sco_on, adapted, kernel_fill. intros H.
  destruct (pcm_config (out σ)) as [config|] eqn:Ec; simpl in H; [|discriminate].
  exists config. split; [reflexivity|].
  change (audio_channel_count_from_out_mask out_get_channels) with 2 in H.
  set (sco := nonzero (Z.land (out_device (dev σ)) AUDIO_DEVICE_OUT_ALL_SCO)) in *.
  destruct (2 >? channels config) eqn:Ech;
    [destruct (2 ^ 32 <=? bytes / audio_stream_out_frame_size) eqn:Ebig;
       [discriminate|] |];
    simpl in H;
    (destruct (out_get_sample_rate bc =? rate config) eqn:Er; simpl in H;
     [|destruct (resampler _) eqn:Ers; simpl in H; [|discriminate]]);
    destruct (bool_decide (OUT_BUFFER_TYPE_SHORT = buffer_type (out σ))) eqn:Ebt;
    destruct sco eqn:Esco; simpl in H;
    try destruct (throttle _ _ _ _ _ _ _) as [kf sleeps] eqn:Et;
    simpl in *; simplify_eq; simpl;
    (split; [try rewrite Et; reflexivity|]);
    (split; [try rewrite Et; reflexivity|]);
    (split;
     [ eexists; split;
       [ rewrite <- ?app_assoc; try (symmetry; apply app_nil_r); reflexivity
       | rewrite ?forallb_app; simpl;
         rewrite ?forallb_map_usleep by reflexivity; reflexivity ] |]);
    (split; [reflexivity|]);
    zbool; intros; try congruence; split; reflexivity.
Qed.

Lemma hardware_write_inv hw in_buffer frame_size out_frames bytes σ :
  let r := hardware_write bc hw in_buffer frame_size out_frames bytes σ in
  let w := EvPcmWrite (pcm (out σ)) in_buffer (to_uint (out_frames * frame_size)) in
  dev (snd r) = dev σ
  /\ ((hw_pcm_write hw = - EPIPE /\ fst r = - EPIPE /\ out (snd r) = out σ
       /\ log (snd r) = log σ ++ [w])
      \/ (hw_pcm_write hw = 0 /\ fst r = to_ssize_t bc bytes
          /\ out (snd r) = set_written (to_uint64 (written (out σ) + out_frames)) (out σ)
          /\ log (snd r) = log σ ++ [w])
      \/ (hw_pcm_write hw <> - EPIPE /\ hw_pcm_write hw <> 0
          /\ fst r = to_ssize_t bc bytes /\ out (snd r) = out σ
          /\ log (snd r) = log σ ++ [w; EvUsleep (fallback_sleep_us bc bytes)])).
Proof.
  unfold hardware_write, out_write_exit. simpl.
  destruct (hw_pcm_write hw =? - EPIPE) eqn:E1; zbool.
  - split; [reflexivity|]. left. auto.
  - destruct (hw_pcm_write hw =? 0) eqn:E2; zbool; simpl.
    + split; [reflexivity|]. right; left. auto.
    + split; [reflexivity|]. right; right.
      rewrite <- app_assoc. auto.
Qed.

Lemma out_write_inv self hw buffer_ bytes σ ret σ' :
  out_write bc self hw buffer_ bytes σ = Some (ret, σ') ->
  (exists r σ1, leave_standby bc self hw σ = Some (r, σ1) /\ r <> 0
                /\ (ret, σ') = out_write_exit bc bytes r σ1)
  \/ (exists σ1 in_buffer frame_size out_frames σ2,
        leave_standby bc self hw σ = Some (0, σ1)
        /\ prepare_write bc hw buffer_ bytes σ1
           = Some (in_buffer, frame_size, out_frames, σ2)
        /\ (ret, σ') = hardware_write bc hw in_buffer frame_size out_frames bytes σ2).
Proof.
  unfold out_write. intros H.
  destruct (leave_standby bc self hw σ) as [[r σ1]|] eqn:E; simpl in H;
    [|discriminate].
  destruct (r =? 0) eqn:Er; simpl in H; zbool.
  - subst r. right.
    destruct (prepare_write bc hw buffer_ bytes σ1) as [[[[ib fs] nf] σ2]|] eqn:Ep;
      simpl in H; [|discriminate].
    simplify_eq. eauto 10.
  - left. simplify_eq. eauto 10.
Qed.

Lemma ramp_fields config kernel_frames s :
  pcm (ramp bc config kernel_frames s) = pcm s
  /\ pcm_config (ramp bc config kernel_frames s) = pcm_config s
  /\ standby (ramp bc config kernel_frames s) = standby s
  /\ written (ramp bc config kernel_frames s) = written s
  /\ resampler (ramp bc config kernel_frames s) = resampler s
  /\ buffer (ramp bc config kernel_frames s) = buffer s
  /\ buffer_type (ramp bc config kernel_frames s) = buffer_type s
  /\ write_threshold (ramp bc config kernel_frames s) = write_threshold s.
Proof. unfold ramp. repeat case_match; simpl; auto 10. Qed.

Lemma adapted_fields config s :
  pcm (adapted bc config s) = pcm s
  /\ pcm_config (adapted bc config s) = pcm_config s
  /\ standby (adapted bc config s) = standby s
  /\ written (adapted bc config s) = written s
  /\ resampler (adapted bc config s) = resampler s
  /\ buffer (adapted bc config s) = buffer s
  /\ buffer_type (adapted bc config s) = OUT_BUFFER_TYPE_SHORT.
Proof.
  unfold adapted, adapt_buffer_type.
  destruct (bool_decide _) eqn:E; [apply bool_decide_eq_true in E|];
    repeat case_match; simpl; auto 10.
Qed.

(** The thresholds after the block that adapts the buffer type. *)
Lemma adapted_thresholds config s :
  (buffer_type s = OUT_BUFFER_TYPE_SHORT /\ adapted bc config s = s)
  \/ (buffer_type s = OUT_BUFFER_TYPE_UNKNOWN
      /\ cur_write_threshold (adapted bc config s)
         = write_threshold (adapted bc config s))
  \/ (buffer_type s = OUT_BUFFER_TYPE_LONG
      /\ cur_write_threshold (adapted bc config s) = cur_write_threshold s).
Proof.
  unfold adapted, adapt_buffer_type.
  destruct (buffer_type s) eqn:E; simpl.
  - right; left. split; [reflexivity|]. rewrite E. reflexivity.
  - left. auto.
  - right; right. split; [reflexivity|]. rewrite E. reflexivity.
Qed.

Lemma adapted_threshold_range config s :
  INT_MIN <= cur_write_threshold s <= INT_MAX ->
  INT_MIN <= cur_write_threshold (adapted bc config s) <= INT_MAX.
Proof.
  intros H. unfold adapted, adapt_buffer_type.
  destruct (bool_decide _); [exact H|].
  repeat case_match; simpl; try exact H; apply to_int_range.
Qed.

Lemma prepare_write_out_frames hw buffer_ bytes σ in_buffer frame_size out_frames σ' :
  prepare_write bc hw buffer_ bytes σ
  = Some (in_buffer, frame_size, out_frames, σ') ->
  out_frames = out_frames_of bc hw bytes (out σ).
Proof.
  unfold prepare_write, out_frames_of. intros H.
  destruct (pcm_config (out σ)) as [config|] eqn:Ec; simpl in H; [|discriminate].
  repeat case_match; simplify_option_eq; reflexivity.
Qed.

Lemma prepare_write_defined hw buffer_ bytes σ :
  can_write bc bytes (out σ) = true ->
  is_Some (prepare_write bc hw buffer_ bytes σ).
Proof.
  unfold can_write, prepare_write. intros H.
  destruct (pcm_config (out σ)) as [config|] eqn:Ec; [simpl|discriminate].
  change (audio_channel_count_from_out_mask out_get_channels) with 2.
  apply andb_true_iff in H as [H1 H2].
  apply andb_true_iff in H1 as [_ H1].
  apply orb_true_iff in H1. apply orb_true_iff in H2.
  assert (Hch : (2 >? channels config) = true ->
                (2 ^ 32 <=? bytes / audio_stream_out_frame_size) = false).
  { intros Hg. destruct H1 as [H1|H1]; zbool.
    - apply Z.geb_le in H1. lia.
    - apply Z.leb_gt. exact H1. }
  match goal with
  | |- context [if ?c then with_out ?f σ else σ] =>
      set (σa := if c then with_out f σ else σ)
  end.
  assert (Hr : resampler (out σa) = resampler (out σ)).
  { subst σa. destruct (_ && _); [|reflexivity].
    simpl. generalize (out σ). intros s. unfold adapt_buffer_type.
    repeat case_decide; reflexivity. }
  clearbody σa.
  destruct (2 >? channels config); [rewrite Hch by reflexivity|]; simpl;
    (destruct (out_get_sample_rate bc =? rate config) eqn:Er; simpl;
     [|destruct H2 as [H2|H2]; [discriminate|]; rewrite Hr;
       destruct (resampler (out σ)); [simpl|discriminate]]);
    repeat case_match; eauto.
Qed.

Lemma prepare_write_keeps hw buffer_ bytes σ in_buffer frame_size out_frames σ' :
  prepare_write bc hw buffer_ bytes σ
  = Some (in_buffer, frame_size, out_frames, σ') ->
  pcm (out σ') = pcm (out σ)
  /\ pcm_config (out σ') = pcm_config (out σ)
  /\ standby (out σ') = standby (out σ)
  /\ written (out σ') = written (out σ)
  /\ resampler (out σ') = resampler (out σ)
  /\ buffer (out σ') = buffer (out σ).
Proof.
  intros H. apply prepare_write_inv in H as (config & _ & _ & -> & _).
  destruct (sco_on (dev σ)); [auto 10|].
  match goal with
  | |- context [ramp bc config ?k ?s] =>
      destruct (ramp_fields config k s) as (-> & -> & -> & -> & -> & -> & _)
  end.
  destruct (adapted_fields config (out σ)) as (-> & -> & -> & -> & -> & -> & _).
  auto 10.
Qed.

Lemma leave_standby_keeps self hw σ ret σ1 :
  leave_standby bc self hw σ = Some (ret, σ1) ->
  written (out σ1) = written (out σ)
  /\ out_device (dev σ1) = out_device (dev σ)
  /\ (exists evs, log σ1 = log σ ++ evs
                  /\ forallb (λ e, negb (is_pcm_write e || is_usleep e)) evs = true)
  /\ (ret <> 0 -> standby (out σ) = true /\ standby (out σ1) = true).
Proof.
  intros H.
  apply leave_standby_inv in H
    as [(Hs & -> & ->)|[(Hs & Hr & H)|(Hs & -> & σs & H & ->)]].
  - repeat split; try congruence.
    exists []. split; [symmetry; apply app_nil_r|reflexivity].
  - apply start_output_stream_inv in H as (Hw & _ & _ & Hsb & Hd & _ & _ & Hl & _).
    repeat split; auto; congruence.
  - apply start_output_stream_inv in H as (Hw & _ & _ & Hsb & Hd & _ & _ & Hl & _).
    repeat split; auto; congruence.
Qed.

(** A call whose stream is or becomes active, and which [prepare_write]
    lets through, gets to [pcm_write]. *)
Lemma out_write_reaches self hw buffer_ bytes σ σ1 :
  leave_standby bc self hw σ = Some (0, σ1) ->
  can_write bc bytes (out σ1) = true ->
  exists in_buffer frame_size out_frames σ2,
    prepare_write bc hw buffer_ bytes σ1
    = Some (in_buffer, frame_size, out_frames, σ2)
    /\ out_write bc self hw buffer_ bytes σ
       = Some (hardware_write bc hw in_buffer frame_size out_frames bytes σ2).
Proof.
  intros Hl Hc.
  destruct (prepare_write_defined hw buffer_ bytes σ1 Hc) as [[[[ib fs] nf] σ2] Hp].
  exists ib, fs, nf, σ2. split; [exact Hp|].
  unfold out_write. rewrite Hl. simpl. rewrite Hp. reflexivity.
Qed.

(** *** Underrun *)

(** C3.  When the call gets to [pcm_write] and [pcm_write] returns
    [-EPIPE], [out_write] returns [-EPIPE] with nothing done after the
    hardware write: the write is the last effect of the call and the only
    hardware write in it, so no pacing sleep follows it and it is not
    retried; [written] is as before.  This holds whatever [bytes] is. *)
Theorem underrun_returns_at_once self hw buffer_ bytes σ σ1 :
  leave_standby bc self hw σ = Some (0, σ1) ->
  can_write bc bytes (out σ1) = true ->
  hw_pcm_write hw = - EPIPE ->
  exists σ' evs data count,
    out_write bc self hw buffer_ bytes σ = Some (- EPIPE, σ')
    /\ log σ' = log σ ++ evs ++ [EvPcmWrite (pcm (out σ')) data count]
    /\ forallb (λ e, negb (is_pcm_write e)) evs = true
    /\ written (out σ') = written (out σ).
Proof.
  intros Hl Hc Hu.
  destruct (out_write_reaches self hw buffer_ bytes σ σ1 Hl Hc)
    as (ib & fs & nf & σ2 & Hp & Hw).
  destruct (hardware_write_inv hw ib fs nf bytes σ2)
    as (_ & [(_ & Hr & Ho & Hlog)|[(H0 & _)|(Hn & _)]]);
    [|rewrite Hu in H0; discriminate|congruence].
  apply leave_standby_keeps in Hl as (Hw1 & _ & (evs1 & Hl1 & Hf1) & _).
  pose proof (prepare_write_keeps _ _ _ _ _ _ _ _ Hp) as (_ & _ & _ & Hw2 & _).
  apply prepare_write_inv in Hp as (_ & _ & _ & _ & (evs2 & Hl2 & Hf2) & _).
  destruct (hardware_write bc hw ib fs nf bytes σ2) as [r σ'] eqn:Eh.
  simpl in *. subst r.
  exists σ', (evs1 ++ evs2), ib, (to_uint (nf * fs)).
  split; [exact Hw|]. split.
  - rewrite Hlog, Hl2, Hl1, Ho, <- !app_assoc. reflexivity.
  - split.
    + rewrite forallb_app, Hf2, andb_true_r.
      clear -Hf1. induction evs1 as [|e l IH]; [reflexivity|].
      simpl in *. apply andb_true_iff in Hf1 as [He Hf1].
      rewrite IH by exact Hf1.
      apply negb_true_iff, orb_false_iff in He as [-> _]. reflexivity.
    + rewrite Ho. congruence.
Qed.

(** *** Failures other than an underrun *)

Lemma forallb_no_write_weaken (evs : list event) :
  forallb (λ e, negb (is_pcm_write e || is_usleep e)) evs = true ->
  forallb (λ e, negb (is_pcm_write e)) evs = true.
Proof.
  induction evs as [|e l IH]; [reflexivity|].
  simpl. intros H. apply andb_true_iff in H as [He H].
  rewrite IH by exact H.
  apply negb_true_iff, orb_false_iff in He as [-> _]. reflexivity.
Qed.

(** X21.  What holds of a failed write on every build.  A call of
    [out_write] that cannot leave standby ([start_output_stream] returns an
    error), or whose [pcm_write] returns an error other than [-EPIPE],
    returns [bytes]; the last thing it does is sleep for
    [fallback_sleep_us bytes] microseconds; [written] is as before.  When
    the stream could not leave standby, no hardware write and no other
    sleep was made and the [standby] flag is still set.  The sleep is the
    time [bytes] take to play, [bytes * 1000000 / frame_size / rate], only
    as long as the product fits [size_t]: on the 32-bit build that is
    below 4295 bytes.  [bytes] is a
    [size_t] that fits [ssize_t]. *)
Theorem failed_write_is_paced self hw buffer_ bytes σ r σ1 :
  abi_ok bc ->
  0 <= bytes < 2 ^ (LONG_BIT bc - 1) ->
  0 < out_get_sample_rate bc ->
  leave_standby bc self hw σ = Some (r, σ1) ->
  r <> 0
  \/ (can_write bc bytes (out σ1) = true
      /\ hw_pcm_write hw <> 0 /\ hw_pcm_write hw <> - EPIPE) ->
  exists σ' evs,
    out_write bc self hw buffer_ bytes σ = Some (bytes, σ')
    /\ log σ' = log σ ++ evs ++ [EvUsleep (fallback_sleep_us bc bytes)]
    /\ written (out σ') = written (out σ)
    /\ (r <> 0 ->
        standby (out σ) = true /\ standby (out σ') = true
        /\ forallb (λ e, negb (is_pcm_write e || is_usleep e)) evs = true)
    /\ (r = 0 ->
        exists pre data count,
          evs = pre ++ [EvPcmWrite (pcm (out σ')) data count]
          /\ forallb (λ e, negb (is_pcm_write e)) pre = true)
    /\ (bytes * 1000000 < 2 ^ LONG_BIT bc ->
        bytes * 1000000 / audio_stream_out_frame_size / out_get_sample_rate bc
        < 2 ^ 32 ->
        fallback_sleep_us bc bytes
        = bytes * 1000000 / audio_stream_out_frame_size / out_get_sample_rate bc).
Proof.
  intros Habi Hb Hrate Hl Hcase.
  assert (Hplain : bytes * 1000000 < 2 ^ LONG_BIT bc ->
            bytes * 1000000 / audio_stream_out_frame_size / out_get_sample_rate bc
            < 2 ^ 32 ->
            fallback_sleep_us bc bytes
            = bytes * 1000000 / audio_stream_out_frame_size / out_get_sample_rate bc).
  { intros H1 H2. unfold fallback_sleep_us.
    rewrite (to_size_t_small bc) by lia.
    apply to_uint_small. split; [|exact H2].
    apply Z.div_pos; [|exact Hrate].
    apply Z.div_pos; [lia|reflexivity]. }
  destruct (Z.eq_dec r 0) as [->|Hr].
  - (* the hardware write fails *)
    destruct Hcase as [?|(Hc & Hn0 & Hne)]; [congruence|].
    destruct (out_write_reaches self hw buffer_ bytes σ σ1 Hl Hc)
      as (ib & fs & nf & σ2 & Hp & Hw).
    destruct (hardware_write_inv hw ib fs nf bytes σ2)
      as (_ & [(H0 & _)|[(H0 & _)|(_ & _ & Hret & Ho & Hlog)]]);
      [congruence|congruence|].
    apply leave_standby_keeps in Hl as (Hw1 & _ & (evs1 & Hl1 & Hf1) & _).
    pose proof (prepare_write_keeps _ _ _ _ _ _ _ _ Hp) as (_ & _ & _ & Hw2 & _).
    apply prepare_write_inv in Hp as (_ & _ & _ & _ & (evs2 & Hl2 & Hf2) & _).
    destruct (hardware_write bc hw ib fs nf bytes σ2) as [ret σ'] eqn:Eh.
    simpl in *. subst ret. rewrite (to_ssize_t_small bc Habi) in Hw by lia.
    exists σ', (evs1 ++ evs2 ++ [EvPcmWrite (pcm (out σ')) ib (to_uint (nf * fs))]).
    split; [exact Hw|]. split.
    { rewrite Hlog, Hl2, Hl1, Ho, <- !app_assoc. reflexivity. }
    split; [rewrite Ho; congruence|].
    split; [congruence|]. split; [|exact Hplain].
    intros _. exists (evs1 ++ evs2), ib, (to_uint (nf * fs)).
    split; [rewrite <- app_assoc; reflexivity|].
    rewrite forallb_app, Hf2, andb_true_r.
    apply forallb_no_write_weaken, Hf1.
  - (* the stream cannot leave standby *)
    pose proof (leave_standby_keeps _ _ _ _ _ Hl)
      as (Hw1 & _ & (evs1 & Hl1 & Hf1) & Hsb).
    destruct (Hsb Hr) as [Hsb0 Hsb1].
    exists (emit (EvUsleep (fallback_sleep_us bc bytes)) σ1), evs1.
    split.
    { unfold out_write, out_write_exit. rewrite Hl. simpl.
      destruct (r =? 0) eqn:E; zbool; [congruence|]. simpl.
      rewrite (to_ssize_t_small bc Habi) by lia. reflexivity. }
    simpl. split; [rewrite Hl1, <- app_assoc; reflexivity|].
    split; [exact Hw1|].
    split; [auto|]. split; [congruence|exact Hplain].
Qed.

(** *** The counter of frames written *)

Lemma out_frames_of_nonneg hw bytes s :
  abi_ok bc -> 0 <= bytes -> 0 <= out_frames_of bc hw bytes s.
Proof.
  intros Habi H. unfold out_frames_of.
  destruct (pcm_config s); [|lia].
  destruct (_ =? _).
  - apply Z.div_pos; [exact H|reflexivity].
  - apply to_size_t_nonneg, Habi.
Qed.

Lemma call_accepted_nonneg self c σ :
  abi_ok bc -> call_in_range c -> 0 <= call_accepted bc self c σ.
Proof.
  intros Habi. destruct c as [hw b bytes|]; simpl; [|lia].
  intros H. destruct (leave_standby bc self hw σ) as [[r σ1]|]; [|lia].
  destruct (_ && _); [|lia].
  apply out_frames_of_nonneg; assumption.
Qed.

Lemma frames_accepted_nonneg self cs : forall σ,
  abi_ok bc -> Forall call_in_range cs -> 0 <= frames_accepted bc self cs σ.
Proof.
  induction cs as [|c cs IH]; intros σ Habi Hr; simpl; [lia|].
  inversion Hr as [|? ? Hc Hcs]; subst.
  pose proof (call_accepted_nonneg self c σ Habi Hc).
  destruct (run_call bc self c σ) as [σ1|]; [|lia].
  specialize (IH σ1 Habi Hcs). lia.
Qed.

(** One call: [written] grows by the frames the hardware accepted, modulo
    the width of the counter. *)
Lemma run_call_written self c σ σ' :
  run_call bc self c σ = Some σ' ->
  0 <= written (out σ) < 2 ^ 64 ->
  written (out σ') = to_uint64 (written (out σ) + call_accepted bc self c σ).
Proof.
  intros H Hrange.
  destruct c as [hw buffer_ bytes|]; simpl in *.
  - destruct (out_write bc self hw buffer_ bytes σ) as [[ret σ'']|] eqn:Ew;
      simpl in H; [|discriminate].
    injection H as ->.
    apply out_write_inv in Ew as [(r & σ1 & Hl & Hr & Hx)|
                                  (σ1 & ib & fs & nf & σ2 & Hl & Hp & Hx)].
    + rewrite Hl. destruct (r =? 0) eqn:E; zbool; [congruence|]. simpl.
      apply leave_standby_keeps in Hl as (Hw1 & _).
      unfold out_write_exit in Hx.
      assert (out σ' = out σ1) as ->
        by (destruct (negb _); simplify_eq; reflexivity).
      rewrite Z.add_0_r, to_uint64_small by lia. exact Hw1.
    + rewrite Hl. simpl.
      pose proof (prepare_write_out_frames _ _ _ _ _ _ _ _ Hp) as ->.
      pose proof (prepare_write_keeps _ _ _ _ _ _ _ _ Hp) as (_ & _ & _ & Hw2 & _).
      apply leave_standby_keeps in Hl as (Hw1 & _).
      pose proof (hardware_write_inv hw ib fs (out_frames_of bc hw bytes (out σ1))
                    bytes σ2) as Hh.
      rewrite <- Hx in Hh. simpl in Hh.
      destruct Hh
        as (_ & [(H0 & _ & -> & _)|[(H0 & _ & -> & _)|(H0 & H0' & _ & -> & _)]]).
      * rewrite H0. simpl.
        rewrite Z.add_0_r, to_uint64_small by lia. congruence.
      * rewrite H0. simpl. congruence.
      * destruct (hw_pcm_write hw =? 0) eqn:E; zbool; [congruence|].
        rewrite Z.add_0_r, to_uint64_small by lia. congruence.
  - injection H as <-. rewrite Z.add_0_r, to_uint64_small by lia.
    unfold do_out_standby. repeat case_match; reflexivity.
Qed.

(** C6.  Over any sequence of [out_write] and [out_standby] calls on a
    stream, [written] ends at its initial value plus the output frames of
    the writes whose [pcm_write] returned 0; a write that fails and a
    standby add nothing.  The counter therefore never decreases and no
    standby resets it, as long as the 64-bit counter does not wrap. *)
Theorem written_is_monotonic self cs : forall σ σ',
  abi_ok bc ->
  run_calls bc self cs σ = Some σ' ->
  Forall call_in_range cs ->
  0 <= written (out σ) ->
  written (out σ) + frames_accepted bc self cs σ < 2 ^ 64 ->
  written (out σ') = written (out σ) + frames_accepted bc self cs σ
  /\ written (out σ) <= written (out σ').
Proof.
  induction cs as [|c cs IH]; intros σ σ' Habi Hrun Hr Hw Hb; simpl in *.
  - injection Hrun as <-. lia.
  - inversion Hr as [|? ? Hc Hcs]; subst.
    destruct (run_call bc self c σ) as [σ1|] eqn:E1; simpl in Hrun;
      [|discriminate].
    pose proof (call_accepted_nonneg self c σ Habi Hc) as Ha.
    pose proof (frames_accepted_nonneg self cs σ1 Habi Hcs) as Hf.
    pose proof (run_call_written self c σ σ1 E1 ltac:(lia)) as Hw1.
    rewrite to_uint64_small in Hw1 by lia.
    destruct (IH σ1 σ' Habi Hrun Hcs) as [Heq Hle]; lia.
Qed.



(** *** Route changes *)

(** A stream in standby with no PCM handle and the configuration set opens
    the PCM on its next write, when the hardware lets it. *)
Lemma leave_standby_opens self hw σ :
  standby (out σ) = true ->
  pcm (out σ) = None ->
  pcm_config (out σ) = Some (pcm_config_out bc) ->
  pcm_is_ready (hw_pcm_open hw) = true ->
  exists σ1,
    leave_standby bc self hw σ = Some (0, σ1)
    /\ standby (out σ1) = false
    /\ pcm (out σ1) = Some (hw_pcm_open hw)
    /\ pcm_config (out σ1) = Some (pcm_config_out bc)
    /\ resampler (out σ1) = resampler (out σ)
    /\ buffer (out σ1) = buffer (out σ)
    /\ dev σ1 = set_active_out (Some self) (dev σ).
Proof.
  intros Hs Hp Hc Hr.
  unfold leave_standby, start_output_stream. rewrite Hs.
  destruct (nonzero (Z.land (out_device (dev σ)) AUDIO_DEVICE_OUT_SPEAKER));
    simpl; rewrite Hp; simpl; rewrite ?Hc; simpl; rewrite Hr; simpl;
    rewrite ?Hc; unfold out_get_sample_rate; rewrite Z.eqb_refl; simpl;
    eexists; (split; [reflexivity|]); simpl; auto 10.
Qed.

(** C5.  On an active stream routed to [A], [out_set_parameters] with a
    routing value [B] that is neither [A] nor 0 leaves the stream in standby
    and stores [B] as the route; with [B = A] or [B = 0] it changes nothing.
    After the change, the next [out_write] for which the PCM opens brings
    the stream back out of standby, on route [B]. *)
Theorem route_change_forces_standby self ret value σ hw buffer_ bytes :
  standby (out σ) = false ->
  pcm_config (out σ) = Some (pcm_config_out bc) ->
  0 <= ret ->
  0 <= value < 2 ^ 32 ->
  fst (out_set_parameters ret value σ) = ret
  /\ (value <> out_device (dev σ) -> value <> 0 ->
      standby (out (snd (out_set_parameters ret value σ))) = true
      /\ out_device (dev (snd (out_set_parameters ret value σ))) = value
      /\ (pcm_is_ready (hw_pcm_open hw) = true ->
          can_write bc bytes (out σ) = true ->
          exists r σ2,
            out_write bc self hw buffer_ bytes (snd (out_set_parameters ret value σ))
            = Some (r, σ2)
            /\ standby (out σ2) = false
            /\ pcm (out σ2) = Some (hw_pcm_open hw)
            /\ out_device (dev σ2) = value
            /\ active_out (dev σ2) = Some self))
  /\ (value = out_device (dev σ) \/ value = 0 ->
      snd (out_set_parameters ret value σ) = σ).
Proof.
  intros Hs Hc Hret Hv.
  split; [reflexivity|].
  unfold out_set_parameters. simpl.
  destruct (0 <=? ret) eqn:E; zbool; [|lia].
  rewrite (to_uint_small value) by lia.
  split.
  - intros Hne H0.
    destruct (out_device (dev σ) =? value) eqn:E1; zbool; [congruence|].
    destruct (value =? 0) eqn:E2; zbool; [congruence|]. cbn [negb andb].
    cbv zeta.
    set (σd := with_dev (set_out_device value) (do_out_standby σ)).
    set (evs := select_devices _).
    assert (Hd : dev (emit_all evs σd) = dev σd) by reflexivity.
    assert (Ho : out (emit_all evs σd) = out σd) by reflexivity.
    assert (Hσd : standby (out σd) = true /\ pcm (out σd) = None
                  /\ pcm_config (out σd) = pcm_config (out σ)
                  /\ resampler (out σd) = None
                  /\ out_device (dev σd) = value).
    { subst σd. simpl.
      destruct (do_out_standby_active σ Hs) as (? & ? & ? & ? & ? & _).
      auto 10. }
    destruct Hσd as (Hsd & Hpd & Hcd & Hrd & Hod).
    rewrite Hd, Ho. split; [exact Hsd|]. split; [exact Hod|].
    intros Hready Hcan.
    destruct (leave_standby_opens self hw (emit_all evs σd))
      as (σ1 & Hl & Hs1 & Hp1 & Hc1 & Hr1 & _ & Hd1);
      rewrite ?Ho; try congruence.
    assert (Hcan1 : can_write bc bytes (out σ1) = true).
    { unfold can_write in *. rewrite Hc1. rewrite Hc in Hcan.
      apply andb_true_iff in Hcan as [Hcan _]. rewrite Hcan.
      unfold out_get_sample_rate. rewrite Z.eqb_refl. reflexivity. }
    destruct (out_write_reaches self hw buffer_ bytes _ σ1 Hl Hcan1)
      as (ib & fs & nf & σ2 & Hp & Hw).
    pose proof (prepare_write_keeps _ _ _ _ _ _ _ _ Hp) as (Hp2 & _ & Hs2 & _).
    apply prepare_write_inv in Hp as (_ & _ & Hd2 & _).
    destruct (hardware_write bc hw ib fs nf bytes σ2) as [r σ3] eqn:Eh.
    pose proof (hardware_write_inv hw ib fs nf bytes σ2) as Hh.
    rewrite Eh in Hh. simpl in Hh. destruct Hh as (Hd3 & Hh).
    exists r, σ3. split; [exact Hw|].
    assert (Ho3 : standby (out σ3) = standby (out σ2)
                  /\ pcm (out σ3) = pcm (out σ2)).
    { destruct Hh as [(_ & _ & -> & _)|[(_ & _ & -> & _)|(_ & _ & _ & -> & _)]];
        auto. }
    destruct Ho3 as [-> ->]. rewrite Hd3, Hd2, Hd1, Hd.
    simpl. repeat split; congruence.
  - intros [->| ->].
    + rewrite Z.eqb_refl. reflexivity.
    + rewrite andb_false_r. reflexivity.
Qed.

(** *** Channel reduction in a call *)

(** C8.  When the PCM has fewer channels than the two of the stream, a
    call of [out_write] on [n] stereo frames hands [pcm_write] a buffer
    whose first [n] slots are the left samples of the frames, in order, and
    a byte count of [n] times half the frame size.  It is the only hardware
    write of the call. *)
Theorem downmix_keeps_left_channel self hw (frames : list (Z * Z)) σ σ1 config :
  leave_standby bc self hw σ = Some (0, σ1) ->
  can_write bc (audio_stream_out_frame_size * Z.of_nat (length frames)) (out σ1)
  = true ->
  pcm_config (out σ1) = Some config ->
  channels config < audio_channel_count_from_out_mask out_get_channels ->
  rate config = out_get_sample_rate bc ->
  Z.of_nat (length frames) < 2 ^ 31 ->
  exists ret σ' pre post data,
    out_write bc self hw (interleave frames)
      (audio_stream_out_frame_size * Z.of_nat (length frames)) σ
    = Some (ret, σ')
    /\ log σ'
       = log σ ++ pre
         ++ EvPcmWrite (pcm (out σ')) data
              (to_uint (Z.of_nat (length frames) * (audio_stream_out_frame_size / 2)))
            :: post
    /\ forallb (λ e, negb (is_pcm_write e)) (pre ++ post) = true
    /\ take (length frames) data = frames.*1
    /\ length data = (2 * length frames)%nat.
Proof.
  intros Hl Hc Hcfg Hch Hrate Hn.
  set (n := Z.of_nat (length frames)) in *.
  destruct (out_write_reaches self hw (interleave frames) _ σ σ1 Hl Hc)
    as (ib & fs & nf & σ2 & Hp & Hw).
  apply leave_standby_keeps in Hl as (_ & _ & (evs1 & Hl1 & Hf1) & _).
  pose proof (prepare_write_keeps _ _ _ _ _ _ _ _ Hp) as (Hp2 & _).
  apply prepare_write_inv in Hp
    as (config' & Hcfg' & _ & _ & (evs2 & Hl2 & Hf2) & Hfs & Hdata).
  assert (config' = config) as -> by congruence.
  destruct (Hdata (eq_sym Hrate)) as [Hnf Hib].
  change (audio_channel_count_from_out_mask out_get_channels) with 2 in Hch.
  assert (Hgt : (2 >? channels config) = true) by (apply Z.gtb_lt; lia).
  rewrite Hgt in Hfs, Hib.
  assert (Hdiv : audio_stream_out_frame_size * n / audio_stream_out_frame_size = n).
  { rewrite Z.mul_comm. apply Z.div_mul. discriminate. }
  rewrite Hdiv in Hnf, Hib. subst nf fs ib.
  destruct (discard_right_channel_left frames) as [Htake Hlen]; [fold n; lia|].
  fold n in Htake, Hlen.
  pose proof (hardware_write_inv hw (discard_right_channel n (interleave frames))
                (audio_stream_out_frame_size / 2) n
                (audio_stream_out_frame_size * n) σ2) as Hh.
  destruct (hardware_write bc hw _ _ _ _ σ2) as [ret σ'] eqn:Eh.
  simpl in Hh. destruct Hh as (_ & Hh).
  assert (Hf12 : forallb (λ e, negb (is_pcm_write e)) (evs1 ++ evs2) = true).
  { rewrite forallb_app, Hf2, andb_true_r.
    apply forallb_no_write_weaken, Hf1. }
  destruct Hh as [(_ & _ & Ho & Hlog)|[(_ & _ & Ho & Hlog)|(_ & _ & _ & Ho & Hlog)]].
  - exists ret, σ', (evs1 ++ evs2), [], (discard_right_channel n (interleave frames)).
    split; [exact Hw|]. split.
    { rewrite Hlog, Hl2, Hl1, Ho, <- !app_assoc. reflexivity. }
    rewrite app_nil_r. auto.
  - exists ret, σ', (evs1 ++ evs2), [], (discard_right_channel n (interleave frames)).
    split; [exact Hw|]. split.
    { rewrite Hlog, Hl2, Hl1, Ho, <- !app_assoc. reflexivity. }
    rewrite app_nil_r. auto.
  - exists ret, σ', (evs1 ++ evs2),
      [EvUsleep (fallback_sleep_us bc (audio_stream_out_frame_size * n))],
      (discard_right_channel n (interleave frames)).
    split; [exact Hw|]. split.
    { rewrite Hlog, Hl2, Hl1, Ho, <- !app_assoc. reflexivity. }
    rewrite forallb_app, Hf12. auto.
Qed.

(** *** Threshold ramp *)

(** C1.  One call of [out_write] on a route that is not SCO moves
    [cur_write_threshold] by at most [period_size / 4], towards
    [write_threshold] and never past it, except in two cases: the cold
    start, where the call finds the buffer type Unknown and sets the
    current threshold to the target, and the fast recovery, where the
    current threshold is at the target, the fill level the throttling loop
    ends with is more than [period_size * OUT_SHORT_PERIOD_COUNT] below the
    target, and the threshold is set to
    [(kernel_frames / period_size + 1) * period_size + period_size / 4],
    evaluated as the code does ([kernel_frames] converted to [size_t], the
    result stored in an [int]).  The thresholds are in the range of [int]
    with room for a quarter period above the target. *)
Theorem threshold_ramp_bound self hw buffer_ bytes σ ret σ' config :
  abi_ok bc ->
  out_write bc self hw buffer_ bytes σ = Some (ret, σ') ->
  sco_on (dev σ) = false ->
  pcm_config (out σ') = Some config ->
  config_divides config = true ->
  period_size config < 2 ^ 32 ->
  INT_MIN <= cur_write_threshold (out σ) <= INT_MAX ->
  0 <= write_threshold (out σ') ->
  write_threshold (out σ') + period_size config / 4 <= INT_MAX ->
  let q := period_size config / 4 in
  let c := cur_write_threshold (out σ) in
  let c' := cur_write_threshold (out σ') in
  let t' := write_threshold (out σ') in
  let kernel_frames := kernel_fill bc config hw t' in
  (Z.abs (c' - c) <= q
   /\ (c <= t' -> c <= c' <= t')
   /\ (t' <= c -> t' <= c' <= c))
  \/ (cold_start σ = true /\ c' = t')
  \/ ((c = t' \/ cold_start σ = true)
      /\ kernel_frames < t'
      /\ to_int (t' - kernel_frames)
         > to_int (period_size config * OUT_SHORT_PERIOD_COUNT bc)
      /\ c' = to_int ((to_size_t bc kernel_frames / period_size config + 1)
                      * period_size config + q)).
Proof.
  intros Habi Hw Hsco Hcfg Hdiv Hps Hc Ht Hq q c c' t' kernel_frames.
  subst q c c' t' kernel_frames.
  unfold config_divides in Hdiv. zbool.
  assert (Hq0 : 0 <= period_size config / 4) by (apply Z.div_pos; lia).
  apply out_write_inv in Hw as [(r & σ1 & Hl & Hr & Hx)|
                                (σ1 & ib & fs & nf & σ2 & Hl & Hp & Hx)].
  - (* the stream could not leave standby *)
    left.
    apply leave_standby_inv in Hl as [(_ & -> & _)|[(_ & _ & Hs)|(_ & -> & _)]];
      try congruence.
    apply start_output_stream_inv in Hs as (_ & Hc1 & Ht1 & _).
    unfold out_write_exit in Hx.
    assert (out σ' = out σ1) as -> by (destruct (negb _); simplify_eq; reflexivity).
    rewrite Hc1, Ht1. lia.
  - (* the call reaches the hardware write *)
    assert (Hσ1 : sco_on (dev σ1) = false
                  /\ cur_write_threshold (out σ1) = cur_write_threshold (out σ)
                  /\ (buffer_type (out σ1) = OUT_BUFFER_TYPE_UNKNOWN ->
                      cold_start σ = true)).
    { apply leave_standby_inv in Hl
        as [(Hs & _ & ->)|[(_ & ? & _)|(Hsb & _ & σs & Hs & ->)]];
        try congruence.
      - repeat split; auto. intros Hb. unfold cold_start. rewrite Hb.
        apply orb_true_r.
      - apply start_output_stream_inv in Hs as (_ & Hc1 & _ & _ & Hd & Hb & _).
        unfold sco_on in *. simpl. rewrite Hd. repeat split; auto.
        rewrite Hb. unfold cold_start. rewrite Hsb. simpl.
        destruct (speaker_on (dev σ)); [reflexivity|].
        intros ->. reflexivity. }
    destruct Hσ1 as (Hsco1 & Hc1 & Hcold).
    apply prepare_write_inv in Hp as (config' & Hcfg' & _ & Ho & _).
    rewrite Hsco1 in Ho.
    pose proof (hardware_write_inv hw ib fs nf bytes σ2) as Hh.
    rewrite <- Hx in Hh. simpl in Hh.
    assert (Hout : cur_write_threshold (out σ') = cur_write_threshold (out σ2)
                   /\ write_threshold (out σ') = write_threshold (out σ2)
                   /\ pcm_config (out σ') = pcm_config (out σ2)).
    { destruct Hh as (_ & [(_ & _ & -> & _)|[(_ & _ & -> & _)|(_ & _ & _ & -> & _)]]);
        auto. }
    destruct Hout as (Hc2 & Ht2 & Hcfg2).
    rewrite Hc2, Ht2 in *. clear Hh Hx Hc2 Ht2.
    assert (config' = config) as ->.
    { rewrite Hcfg2, Ho in Hcfg.
      destruct (ramp_fields config'
                  (kernel_fill bc config' hw
                     (cur_write_threshold (adapted bc config' (out σ1))))
                  (adapted bc config' (out σ1))) as (_ & Hrc & _).
      destruct (adapted_fields config' (out σ1)) as (_ & Hac & _).
      congruence. }
    rewrite Ho in *. clear Ho. rewrite <- Hc1 in *. clear Hc1.
    set (s := adapted bc config (out σ1)) in *.
    assert (Hrange : INT_MIN <= cur_write_threshold s <= INT_MAX)
      by (apply adapted_threshold_range; exact Hc).
    set (kf := kernel_fill bc config hw (cur_write_threshold s)) in *.
    assert (Hwt : write_threshold (ramp bc config kf s) = write_threshold s)
      by apply ramp_fields.
    rewrite Hwt in *.
    destruct (ramp_step bc config kf s Habi) as (_ & Hstep); try lia.
    destruct (adapted_thresholds config (out σ1))
      as [(Hb & Hs)|[(Hb & Hs)|(Hb & Hs)]]; fold s in Hs.
    + (* the stored type is Short already *)
      rewrite <- Hs in *.
      destruct Hstep as [Hstep|(He & Hstep)]; [left; exact Hstep|].
      right; right. subst kf. rewrite He in *.
      split; [left; reflexivity|exact Hstep].
    + (* the stored type is Unknown *)
      right.
      destruct Hstep as [Hstep|(He & Hstep)].
      * left. split; [auto|]. lia.
      * right. subst kf. rewrite He in *. split; [right; auto|exact Hstep].
    + (* the stored type is Long *)
      rewrite <- Hs in *.
      destruct Hstep as [Hstep|(He & Hstep)]; [left; exact Hstep|].
      right; right. subst kf. rewrite He in *.
      split; [left; reflexivity|exact Hstep].
Qed.


End Stages.

(** A call that ramps: the threshold is 120 frames above the target and
    comes down by a quarter period, 60 frames. *)
Lemma threshold_ramp_bound_witness :
  Z.abs (cur_write_threshold (out ramp_call_state) - 600) <= 60.
Proof.
  assert (Hps : period_size (pcm_config_out board) < 2 ^ 32)
    by (vm_compute; reflexivity).
  assert (Hc : INT_MIN <= cur_write_threshold (out (playing board 0 480 600))
               <= INT_MAX)
    by (vm_compute; split; discriminate).
  assert (Ht : 0 <= write_threshold (out ramp_call_state))
    by (vm_compute; discriminate).
  assert (Hq : write_threshold (out ramp_call_state)
               + period_size (pcm_config_out board) / 4 <= INT_MAX)
    by (vm_compute; discriminate).
  destruct (threshold_ramp_bound board 7%nat (hw_with [Some 1500] 0) [] 0
              (playing board 0 480 600) 0 ramp_call_state
              (pcm_config_out board) (or_intror eq_refl) eq_refl eq_refl eq_refl
              eq_refl Hps Hc Ht Hq)
    as [[H _]|[[H _]|[[H|H] _]]].
  - exact H.
  - vm_compute in H. discriminate.
  - vm_compute in H. discriminate.
  - vm_compute in H. discriminate.
Defined.

(** ** The states the entry points bring about *)

Section Reachable.

Variable bc : build_config.

Lemma ret_eqb_false (r : Z) : r <> 0 -> (r =? 0) = false.
Proof. apply Z.eqb_neq. Qed.

Lemma do_out_standby_ok σ :
  stream_ok bc (out σ) ->
  stream_ok bc (out (do_out_standby σ))
  /\ exists evs, log (do_out_standby σ) = log σ ++ evs
                 /\ forallb (λ e, negb (is_resampling e)) evs = true.
Proof.
  intros (Hc & Hr & Hb & Ha & Hs).
  unfold do_out_standby.
  destruct (standby (out σ)) eqn:E; simpl.
  - split; [unfold stream_ok; rewrite E; auto|].
    exists []. split; [symmetry; apply app_nil_r|reflexivity].
  - cbn. rewrite Hr. cbn. rewrite Hb. cbn. split.
    + unfold stream_ok. simpl. repeat split; auto; try discriminate.
    + eexists. split; reflexivity.
Qed.

Lemma stream_ok_standby (s : stream_out) :
  (pcm_config s = None \/ pcm_config s = Some (pcm_config_out bc)) ->
  resampler s = None -> buffer s = None -> standby s = true ->
  (forall p, pcm s = Some p -> pcm_is_ready p = false) ->
  stream_ok bc s.
Proof.
  intros Hc Hr Hb Hs Hp. unfold stream_ok.
  split; [exact Hc|]. split; [exact Hr|]. split; [exact Hb|].
  split; [rewrite Hs; discriminate|intros _; exact Hp].
Qed.

Lemma stream_ok_active (s : stream_out) (p : pcm_t) :
  pcm_config s = Some (pcm_config_out bc) ->
  resampler s = None -> buffer s = None -> standby s = false ->
  pcm s = Some p -> pcm_is_ready p = true ->
  stream_ok bc s.
Proof.
  intros Hc Hr Hb Hs Hp Hready. unfold stream_ok.
  split; [right; exact Hc|]. split; [exact Hr|]. split; [exact Hb|].
  split; [intros _; eauto|rewrite Hs; discriminate].
Qed.

Lemma start_output_stream_ok self hw σ ret σ1 :
  stream_ok bc (out σ) ->
  standby (out σ) = true ->
  start_output_stream bc self hw σ = Some (ret, σ1) ->
  (if ret =? 0 then stream_ok bc (set_standby false (out σ1))
   else stream_ok bc (out σ1))
  /\ exists evs, log σ1 = log σ ++ evs
                 /\ forallb (λ e, negb (is_resampling e)) evs = true.
Proof.
  intros (Hc & Hr & Hb & Ha & Hs) Hsb.
  specialize (Hs Hsb).
  unfold start_output_stream.
  set (σ0 := if nonzero _ then _ else σ).
  assert (H0 : pcm (out σ0) = pcm (out σ) /\ resampler (out σ0) = None
               /\ buffer (out σ0) = None /\ standby (out σ0) = true
               /\ log σ0 = log σ
               /\ (pcm_config (out σ0) = None
                   \/ pcm_config (out σ0) = Some (pcm_config_out bc))).
  { subst σ0. destruct (nonzero _); simpl; auto 10. }
  clearbody σ0. destruct H0 as (Hp0 & Hr0 & Hb0 & Hs0 & Hl0 & Hc0).
  destruct (pcm (out σ0)) as [p|] eqn:Ep.
  - (* a handle was left behind: the call has no result *)
    discriminate.
  - cbn.
    destruct Hc0 as [Hc0|Hc0]; rewrite Hc0; cbn.
    + (* no configuration: tinyalsa hands out its bad handle *)
      intros [= <- <-]. cbn. split.
      * apply stream_ok_standby; cbn; auto. intros p' [= <-]. reflexivity.
      * rewrite Hl0, <- app_assoc. eexists. split; reflexivity.
    + destruct (pcm_is_ready (hw_pcm_open hw)) eqn:Er; cbn.
      * rewrite ?Hc0. cbn. unfold out_get_sample_rate. rewrite Z.eqb_refl. cbn.
        intros [= <- <-]. cbn. split.
        -- apply (stream_ok_active _ (hw_pcm_open hw)); cbn; auto.
        -- rewrite Hl0. eexists. split; reflexivity.
      * intros [= <- <-]. cbn. split.
        -- apply stream_ok_standby; cbn; auto. intros p' [= <-]. exact Er.
        -- rewrite Hl0, <- app_assoc. eexists. split; reflexivity.
Qed.

Lemma prepare_write_log hw buffer_ bytes σ in_buffer frame_size out_frames σ' config :
  prepare_write bc hw buffer_ bytes σ
  = Some (in_buffer, frame_size, out_frames, σ') ->
  pcm_config (out σ) = Some config ->
  out_get_sample_rate bc = rate config ->
  exists sleeps, log σ' = log σ ++ (EvUsleep <$> sleeps).
Proof.
  unfold prepare_write. intros H Hc Hrate.
  rewrite Hc in H. simpl in H.
  rewrite Hrate, Z.eqb_refl in H. simpl in H.
  destruct (audio_channel_count_from_out_mask out_get_channels >? channels config);
    [destruct (2 ^ 32 <=? bytes / audio_stream_out_frame_size); [discriminate|]|];
    simpl in H;
    destruct (bool_decide (OUT_BUFFER_TYPE_SHORT = buffer_type (out σ)));
    destruct (nonzero (Z.land (out_device (dev σ)) AUDIO_DEVICE_OUT_ALL_SCO));
    simpl in H;
    try destruct (throttle _ _ _ _ _ _ _) as [kf sleeps];
    simplify_eq; simpl;
    first [ exists sleeps; reflexivity
          | exists []; symmetry; apply app_nil_r ].
Qed.

Lemma forallb_usleep_no_resampling (sleeps : list Z) :
  forallb (λ e, negb (is_resampling e)) (EvUsleep <$> sleeps) = true.
Proof. apply forallb_map_usleep. reflexivity. Qed.

Lemma start_output_stream_defined self hw σ :
  stream_ok bc (out σ) ->
  pcm (out σ) = None ->
  is_Some (start_output_stream bc self hw σ).
Proof.
  intros (Hc & _) Hnone.
  unfold start_output_stream.
  set (σ0 := if nonzero _ then _ else σ).
  assert (H0 : pcm (out σ0) = pcm (out σ)
               /\ (pcm_config (out σ0) = None
                   \/ pcm_config (out σ0) = Some (pcm_config_out bc))).
  { subst σ0. destruct (nonzero _); simpl; auto. }
  clearbody σ0. destruct H0 as (Hp0 & Hc0).
  destruct (pcm (out σ0)) as [p|] eqn:Ep; [congruence|].
  cbn. destruct Hc0 as [Hc0|Hc0]; rewrite Hc0; cbn; [eauto|].
    destruct (pcm_is_ready (hw_pcm_open hw)); cbn; [|eauto].
    rewrite ?Hc0. cbn. eauto.
Qed.

Lemma leave_standby_ok self hw σ r σ1 :
  stream_ok bc (out σ) ->
  leave_standby bc self hw σ = Some (r, σ1) ->
  stream_ok bc (out σ1)
  /\ (r = 0 -> standby (out σ1) = false)
  /\ exists evs, log σ1 = log σ ++ evs
                 /\ forallb (λ e, negb (is_resampling e)) evs = true.
Proof.
  intros Hok Hl.
  apply leave_standby_inv in Hl
    as [(Hs & -> & ->)|[(Hs & Hr & H)|(Hs & -> & σs & H & ->)]].
  - split; [exact Hok|]. split; [auto|].
    exists []. split; [symmetry; apply app_nil_r|reflexivity].
  - destruct (start_output_stream_ok _ _ _ _ _ Hok Hs H) as [H1 H2].
    rewrite (ret_eqb_false r Hr) in H1.
    split; [exact H1|]. split; [congruence|exact H2].
  - destruct (start_output_stream_ok _ _ _ _ _ Hok Hs H) as [H1 H2].
    simpl in *. auto.
Qed.

(** In a state the entry points bring about, [out_write] has a result
    whenever the stream holds no closed handle, the divisors of the
    configuration are not zero and the channel loop can end. *)
Lemma out_write_defined self hw buffer_ bytes σ :
  stream_ok bc (out σ) ->
  (standby (out σ) = true -> pcm (out σ) = None) ->
  config_divides (pcm_config_out bc) = true ->
  channels (pcm_config_out bc) >= 2
  \/ bytes / audio_stream_out_frame_size < 2 ^ 32 ->
  is_Some (out_write bc self hw buffer_ bytes σ).
Proof.
  intros Hok Hnone Hdiv Hloop.
  assert (Hl : is_Some (leave_standby bc self hw σ)).
  { unfold leave_standby. destruct (standby (out σ)) eqn:Hsb; [|eauto].
    destruct (start_output_stream_defined self hw σ Hok (Hnone eq_refl))
      as [[r σs] ->].
    simpl. destruct (negb _); eauto. }
  destruct Hl as [[r σ1] Hl].
  destruct (leave_standby_ok _ _ _ _ _ Hok Hl) as ((_ & Hr1 & _ & Ha1 & _) & Hact & _).
  destruct (Z.eq_dec r 0) as [->|Hr].
  - destruct (Ha1 (Hact eq_refl)) as (Hcfg & _).
    assert (Hcan : can_write bc bytes (out σ1) = true).
    { unfold can_write. rewrite Hcfg, Hdiv.
      unfold out_get_sample_rate. rewrite Z.eqb_refl.
      rewrite orb_true_l, andb_true_r, andb_true_l. apply orb_true_iff.
      destruct Hloop as [H|H]; [left; apply Z.geb_le; lia|right; apply Z.ltb_lt, H]. }
    destruct (out_write_reaches bc self hw buffer_ bytes σ σ1 Hl Hcan)
      as (ib & fs & nf & σ2 & _ & ->). eauto.
  - unfold out_write. rewrite Hl. simpl.
    rewrite (ret_eqb_false r Hr). simpl. eauto.
Qed.

(** [out_write] keeps the invariant of the stream and never calls the
    resampler. *)
Lemma out_write_ok self hw buffer_ bytes σ ret σ' :
  stream_ok bc (out σ) ->
  out_write bc self hw buffer_ bytes σ = Some (ret, σ') ->
  stream_ok bc (out σ')
  /\ exists evs, log σ' = log σ ++ evs
                 /\ forallb (λ e, negb (is_resampling e)) evs = true.
Proof.
  intros Hok Hw.
  pose proof (λ r σ1, leave_standby_ok self hw σ r σ1 Hok) as Hleave.
  apply out_write_inv in Hw as [(r & σ1 & Hl & Hr & Hx)|
                                (σ1 & ib & fs & nf & σ2 & Hl & Hp & Hx)].
  - destruct (Hleave r σ1 Hl) as (Hok1 & _ & evs & Hlog & Hf).
    unfold out_write_exit in Hx.
    destruct (r =? 0) eqn:E; zbool; [congruence|]. simpl in Hx.
    injection Hx as -> ->. simpl. split; [exact Hok1|].
    exists (evs ++ [EvUsleep (fallback_sleep_us bc bytes)]).
    rewrite Hlog, <- app_assoc. split; [reflexivity|].
    rewrite forallb_app, Hf. reflexivity.
  - destruct (Hleave 0 σ1 Hl) as (Hok1 & Hact & evs & Hlog & Hf).
    specialize (Hact eq_refl).
    destruct Hok1 as (Hc1 & Hr1 & Hb1 & Ha1 & Hs1).
    destruct (Ha1 Hact) as (Hcfg & p & Hp1 & Hready).
    pose proof (prepare_write_keeps _ _ _ _ _ _ _ _ _ Hp)
      as (Kp & Kc & Ks & _ & Kr & Kb).
    destruct (prepare_write_log _ _ _ _ _ _ _ _ _ Hp Hcfg eq_refl) as [sleeps Hl2].
    pose proof (hardware_write_inv bc hw ib fs nf bytes σ2) as Hh.
    rewrite <- Hx in Hh. simpl in Hh. destruct Hh as (_ & Hh).
    assert (Hout : pcm (out σ') = pcm (out σ2)
                   /\ pcm_config (out σ') = pcm_config (out σ2)
                   /\ standby (out σ') = standby (out σ2)
                   /\ resampler (out σ') = resampler (out σ2)
                   /\ buffer (out σ') = buffer (out σ2)
                   /\ exists tl, log σ' = log σ2 ++ tl
                        /\ forallb (λ e, negb (is_resampling e)) tl = true).
    { destruct Hh as [(_ & _ & -> & ->)|[(_ & _ & -> & ->)|(_ & _ & _ & -> & ->)]];
        repeat split; eexists; split; reflexivity. }
    destruct Hout as (Op & Oc & Os & Or & Ob & tl & Ol & Of).
    split.
    + apply (stream_ok_active _ p); congruence.
    + exists (evs ++ (EvUsleep <$> sleeps) ++ tl).
      rewrite Ol, Hl2, Hlog, <- !app_assoc. split; [reflexivity|].
      rewrite !forallb_app, Hf, Of, forallb_usleep_no_resampling. reflexivity.
Qed.

Lemma out_standby_ok σ r σ' :
  stream_ok bc (out σ) ->
  Some (out_standby σ) = Some (r, σ') ->
  stream_ok bc (out σ')
  /\ exists evs, log σ' = log σ ++ evs
                 /\ forallb (λ e, negb (is_resampling e)) evs = true.
Proof.
  intros Hok [= <- <-]. apply do_out_standby_ok, Hok.
Qed.

Lemma select_devices_no_resampling adev :
  forallb (λ e, negb (is_resampling e)) (select_devices adev) = true.
Proof. unfold select_devices. repeat case_match; reflexivity. Qed.

Lemma out_set_parameters_ok ret value σ r σ' :
  stream_ok bc (out σ) ->
  Some (out_set_parameters ret value σ) = Some (r, σ') ->
  stream_ok bc (out σ')
  /\ exists evs, log σ' = log σ ++ evs
                 /\ forallb (λ e, negb (is_resampling e)) evs = true.
Proof.
  intros Hok [= <- <-]. unfold out_set_parameters.
  destruct (0 <=? ret); [destruct (_ && _)|]; cbv zeta.
  - destruct (do_out_standby_ok σ Hok) as (Hok' & evs & Hl & Hf).
    split; [exact Hok'|]. simpl.
    eexists. rewrite Hl, <- app_assoc. split; [reflexivity|].
    rewrite forallb_app, Hf. apply select_devices_no_resampling.
  - split; [exact Hok|]. exists []. split; [symmetry; apply app_nil_r|reflexivity].
  - split; [exact Hok|]. exists []. split; [symmetry; apply app_nil_r|reflexivity].
Qed.

Lemma adev_set_parameters_no_resampling ro vo rs vs adev :
  forallb (λ e, negb (is_resampling e)) (adev_set_parameters ro vo rs vs adev).2
  = true.
Proof.
  unfold adev_set_parameters.
  destruct (0 <=? ro); [destruct (negb _)|]; cbn -[select_devices];
    try reflexivity; apply select_devices_no_resampling.
Qed.

(** The invariant of a world: every stream is in order and the resampler
    was never called. *)
Lemma on_stream_ok a (f : hal_state -> option (Z * hal_state)) w ret w' :
  (forall σ r σ', stream_ok bc (out σ) -> f σ = Some (r, σ') ->
     stream_ok bc (out σ')
     /\ exists evs, log σ' = log σ ++ evs
                    /\ forallb (λ e, negb (is_resampling e)) evs = true) ->
  (forall b s, w_streams w !! b = Some s -> stream_ok bc s) ->
  forallb (λ e, negb (is_resampling e)) (w_log w) = true ->
  on_stream a f w = Some (ret, w') ->
  (forall b s, w_streams w' !! b = Some s -> stream_ok bc s)
  /\ forallb (λ e, negb (is_resampling e)) (w_log w') = true.
Proof.
  intros Hf Hs Hl. unfold on_stream.
  destruct (w_streams w !! a) as [s|] eqn:Ea; simpl; [|discriminate].
  destruct (f _) as [[r σ']|] eqn:Ef; simpl; [|discriminate].
  intros [= <- <-]. simpl.
  destruct (Hf {| dev := w_dev w; out := s; log := w_log w |} r σ' (Hs a s Ea) Ef)
    as (Hok & evs & Hlog & Hevs).
  simpl in Hlog. split.
  - intros b s'. rewrite lookup_insert. case_decide.
    + intros [= <-]. exact Hok.
    + apply Hs.
  - rewrite Hlog, forallb_app, Hl, Hevs. reflexivity.
Qed.

Lemma hal_step_ok c w ret w' :
  (forall b s, w_streams w !! b = Some s -> stream_ok bc s) ->
  forallb (λ e, negb (is_resampling e)) (w_log w) = true ->
  hal_step bc c w = Some (ret, w') ->
  (forall b s, w_streams w' !! b = Some s -> stream_ok bc s)
  /\ forallb (λ e, negb (is_resampling e)) (w_log w') = true.
Proof.
  intros Hs Hl. destruct c; simpl.
  - unfold adev_open_output_stream.
    destruct calloc as [a|]; [|intros [= <- <-]; auto].
    destruct (w_streams w !! a) eqn:Ea; [discriminate|].
    intros [= <- <-]. simpl. split; [|exact Hl].
    intros b s. rewrite lookup_insert. case_decide; [|apply Hs].
    intros [= <-]. apply stream_ok_standby; auto. discriminate.
  - unfold adev_close_output_stream.
    destruct (on_stream stream _ w) as [[r w1]|] eqn:E; simpl; [|discriminate].
    intros [= <- <-]. simpl.
    destruct (on_stream_ok _ _ _ _ _ out_standby_ok Hs Hl E) as [Hs1 Hl1].
    split; [|exact Hl1].
    intros b s. rewrite lookup_delete. case_decide; [discriminate|apply Hs1].
  - apply on_stream_ok; auto. intros σ r σ'. apply out_write_ok.
  - apply on_stream_ok; auto. exact out_standby_ok.
  - apply on_stream_ok; auto. intros σ r σ'. apply out_set_parameters_ok.
  - pose proof (adev_set_parameters_no_resampling ret_orientation orientation_value
                  ret_screen screen_value (w_dev w)) as He.
    destruct (adev_set_parameters _ _ _ _ _) as [[r adev] evs].
    intros [= <- <-]. simpl. split; [exact Hs|].
    rewrite forallb_app, Hl. exact He.
  - intros [= <- <-]. auto.
Qed.

Lemma reachable_ok w :
  reachable bc w ->
  (forall b s, w_streams w !! b = Some s -> stream_ok bc s)
  /\ forallb (λ e, negb (is_resampling e)) (w_log w) = true.
Proof.
  induction 1 as [|c w ret w' _ [Hs Hl] Hstep].
  - split; [|reflexivity]. intros b s. simpl. rewrite lookup_empty. discriminate.
  - exact (hal_step_ok c w ret w' Hs Hl Hstep).
Qed.

Lemma hal_run_reachable cs : forall w w',
  reachable bc w -> hal_run bc cs w = Some w' -> reachable bc w'.
Proof.
  induction cs as [|c cs IH]; intros w w' Hr; simpl.
  - intros [= <-]. exact Hr.
  - destruct (hal_step bc c w) as [[ret w1]|] eqn:E; simpl; [|discriminate].
    apply IH. exact (reachable_step bc c w ret w1 Hr E).
Qed.

(** C10.  In every state the entry points bring about, the rate of each
    stream's configuration is the rate [out_get_sample_rate] reports, no
    stream has a resampler or a scratch buffer, and the log holds no call
    that creates a resampler, allocates the scratch buffer or resamples:
    the test of the rates fails at every start and every write. *)
Theorem resampler_is_never_used (w : world) :
  reachable bc w ->
  (forall a s, w_streams w !! a = Some s ->
     (forall config, pcm_config s = Some config ->
        out_get_sample_rate bc = rate config)
     /\ resampler s = None /\ buffer s = None)
  /\ forallb (λ e, negb (is_resampling e)) (w_log w) = true.
Proof.
  intros Hr. destruct (reachable_ok w Hr) as [Hs Hl].
  split; [|exact Hl].
  intros a s Ha. destruct (Hs a s Ha) as (Hc & Hres & Hbuf & _).
  split; [|auto].
  intros config Hcfg. destruct Hc as [Hc|Hc]; rewrite Hc in Hcfg; [discriminate|].
  injection Hcfg as <-. reflexivity.
Qed.

End Reachable.

(** ** A handle left behind by a failed start *)

(** C9 fails on the code.  Open the device, open a stream at address 7 and
    write to it while the PCM does not open: [start_output_stream] closes
    the handle it got and returns [-ENOMEM] without clearing [out->pcm], so
    the stream is in standby and still holds the handle.  [do_out_standby]
    clears the field after the same [pcm_close]. *)
Theorem failed_start_keeps_closed_handle :
  exists w s,
    hal_run board [AdevOpenOutputStream (Some 7%nat);
                   OutWrite 7%nat hw_closed [] 0] adev_open = Some w
    /\ reachable board w
    /\ w_streams w !! 7%nat = Some s
    /\ standby s = true
    /\ pcm s = Some {| pcm_fd := -1 |}
    /\ w_log w = [EvPcmOpen 0 0 (Some (pcm_config_out board));
                  EvPcmClose (Some {| pcm_fd := -1 |});
                  EvUsleep 0].
Proof.
  eexists. eexists.
  split; [vm_compute; reflexivity|].
  split.
  - apply (hal_run_reachable board
             [AdevOpenOutputStream (Some 7%nat); OutWrite 7%nat hw_closed [] 0]
             adev_open); [apply reachable_open|].
    vm_compute. reflexivity.
  - vm_compute. repeat split; reflexivity.
Qed.

(** The write that follows finds the handle in place and does not open the
    PCM again, even though the hardware would now open: the code tests and
    closes the handle it has closed already, and the call has no defined
    result. *)
Remark closed_handle_is_not_reopened :
  hal_run board [AdevOpenOutputStream (Some 7%nat);
                 OutWrite 7%nat hw_closed [] 0;
                 OutWrite 7%nat (hw_with [] 0) [1; 2] 8] adev_open = None.
Proof. vm_compute. reflexivity. Qed.

(** ** The sleep after a failed write *)

(** C4 fails on the code.  On the 32-bit build the product
    [bytes * 1000000] of the sleep after a failure is taken in a 32-bit
    [size_t] and wraps from 4295 bytes on.  Open the device, open a stream
    at address 7 and write 8192 bytes while the PCM does not open: the call
    returns 8192 after a sleep of 10148 microseconds, where 8192 bytes of
    48 kHz stereo take 21333 microseconds to play, which is what the 64-bit
    build sleeps.  The stream is still in standby, but the next write does
    not retry the transition: it finds the handle the failed start left in
    place and has no defined result. *)
Theorem failed_write_sleep_wraps :
  exists w s,
    hal_run board32 [AdevOpenOutputStream (Some 7%nat);
                     OutWrite 7%nat hw_closed [] 8192] adev_open = Some w
    /\ reachable board32 w
    /\ fst <$> out_write board32 7%nat hw_closed [] 8192 fresh = Some 8192
    /\ w_log w = [EvPcmOpen 0 0 (Some (pcm_config_out board32));
                  EvPcmClose (Some {| pcm_fd := -1 |});
                  EvUsleep 10148]
    /\ 8192 * 1000000 / audio_stream_out_frame_size / out_get_sample_rate board32
       = 21333
    /\ fallback_sleep_us board 8192 = 21333
    /\ w_streams w !! 7%nat = Some s
    /\ standby s = true
    /\ hal_step board32 (OutWrite 7%nat (hw_with [] 0) [1; 2] 8) w = None.
Proof.
  eexists. eexists.
  split; [vm_compute; reflexivity|].
  split.
  - apply (hal_run_reachable board32
             [AdevOpenOutputStream (Some 7%nat); OutWrite 7%nat hw_closed [] 8192]
             adev_open); [apply reachable_open|].
    vm_compute. reflexivity.
  - vm_compute. repeat split; reflexivity.
Qed.

(** ** Instances *)

(** The two snaps do move the threshold by more than a quarter period, 60
    frames here: a first write takes it from 0 to the target of 480, and a
    fill level of -1000 frames (the hardware read past the data) takes it
    from 480 to -916. *)
Example cold_start_snap_example :
  exists σ',
    out_write board 7%nat (hw_with [Some 1900] 0) [] 0 fresh = Some (0, σ')
    /\ cold_start fresh = true
    /\ cur_write_threshold (out fresh) = 0
    /\ cur_write_threshold (out σ') = 480.
Proof. eexists. split; [vm_compute; reflexivity|]. repeat split. Qed.

Example fast_recovery_snap_example :
  exists σ',
    out_write board 7%nat (hw_with [Some 2920] 0) [] 0 (playing board 0 480 480)
    = Some (0, σ')
    /\ kernel_fill board (pcm_config_out board) (hw_with [Some 2920] 0) 480 = -1000
    /\ cur_write_threshold (out σ') = -916.
Proof. eexists. split; [vm_compute; reflexivity|]. split; vm_compute; reflexivity. Qed.


(** The sleep after a failure is computed in [size_t]: 8192 bytes of
    48 kHz stereo play for 21333 microseconds, which is what the 64-bit
    build sleeps; in the 32-bit build the product [bytes * 1000000] wraps
    and the sleep is 10148. *)
Example fallback_sleep_by_abi :
  fallback_sleep_us board 8192 = 21333
  /\ fallback_sleep_us board32 8192 = 10148.
Proof. split; vm_compute; reflexivity. Qed.

(** An underrun on a playing stream. *)
Lemma underrun_returns_at_once_witness :
  exists σ' evs data count,
    out_write board 7%nat (hw_with [Some 1500] (- EPIPE)) [1; 2; 3; 4] 16
      (playing board 0 480 480)
    = Some (- EPIPE, σ')
    /\ log σ' = log (playing board 0 480 480) ++ evs
                ++ [EvPcmWrite (pcm (out σ')) data count]
    /\ forallb (λ e, negb (is_pcm_write e)) evs = true
    /\ written (out σ') = written (out (playing board 0 480 480)).
Proof.
  exact (underrun_returns_at_once board 7%nat (hw_with [Some 1500] (- EPIPE))
           [1; 2; 3; 4] 16 (playing board 0 480 480) (playing board 0 480 480)
           eq_refl eq_refl eq_refl).
Defined.

(** A write of 48000 bytes on a fresh stream whose PCM does not open. *)
Lemma failed_write_is_paced_witness :
  exists σ' evs,
    out_write board 7%nat hw_closed [] 48000 fresh = Some (48000, σ')
    /\ log σ' = log fresh ++ evs ++ [EvUsleep (fallback_sleep_us board 48000)]
    /\ standby (out σ') = true.
Proof.
  assert (Habi : abi_ok board) by (right; reflexivity).
  assert (Hb : 0 <= 48000 < 2 ^ (LONG_BIT board - 1)) by (simpl; lia).
  assert (Hr : 0 < out_get_sample_rate board) by (vm_compute; reflexivity).
  assert (Hl : leave_standby board 7%nat hw_closed fresh
               = Some (- ENOMEM, failed_start_state))
    by (vm_compute; reflexivity).
  assert (Hn : - ENOMEM <> 0) by discriminate.
  destruct (failed_write_is_paced board 7%nat hw_closed [] 48000 fresh (- ENOMEM)
              failed_start_state Habi Hb Hr Hl (or_introl Hn))
    as (σ' & evs & Hw & Hlog & _ & Hs & _).
  exists σ', evs. split; [exact Hw|]. split; [exact Hlog|].
  apply Hs. exact Hn.
Defined.

(** A playing stream on the speaker is routed to the wired headset. *)
Lemma route_change_forces_standby_witness :
  standby (out (snd (out_set_parameters 1 AUDIO_DEVICE_OUT_WIRED_HEADSET
                       (playing board 0 480 480)))) = true
  /\ out_device (dev (snd (out_set_parameters 1 AUDIO_DEVICE_OUT_WIRED_HEADSET
                             (playing board 0 480 480))))
     = AUDIO_DEVICE_OUT_WIRED_HEADSET.
Proof.
  assert (Hret : 0 <= 1) by lia.
  assert (Hv : 0 <= AUDIO_DEVICE_OUT_WIRED_HEADSET < 2 ^ 32)
    by (unfold AUDIO_DEVICE_OUT_WIRED_HEADSET; lia).
  destruct (route_change_forces_standby board 7%nat 1 AUDIO_DEVICE_OUT_WIRED_HEADSET
              (playing board 0 480 480) (hw_with [] 0) [] 0
              eq_refl eq_refl Hret Hv) as (_ & Hchange & _).
  destruct Hchange as (Hs & Hd & _); [discriminate|discriminate|].
  split; [exact Hs|exact Hd].
Defined.

(** Two writes of two frames with a standby in between leave 4 in
    [written]. *)
Lemma written_is_monotonic_witness :
  run_calls board 7%nat two_writes fresh = Some two_writes_state
  /\ written (out two_writes_state) = 4.
Proof.
  assert (Hrun : run_calls board 7%nat two_writes fresh = Some two_writes_state)
    by (vm_compute; reflexivity).
  assert (Hfa : frames_accepted board 7%nat two_writes fresh = 4)
    by (vm_compute; reflexivity).
  assert (Hr : Forall call_in_range two_writes)
    by (repeat constructor; simpl; lia).
  assert (Hw : 0 <= written (out fresh)) by (simpl; lia).
  assert (Hb : written (out fresh) + frames_accepted board 7%nat two_writes fresh
               < 2 ^ 64)
    by (rewrite Hfa; simpl; lia).
  destruct (written_is_monotonic board 7%nat two_writes fresh two_writes_state
              (or_intror eq_refl) Hrun Hr Hw Hb) as [Heq _].
  rewrite Hfa in Heq. split; [exact Hrun|exact Heq].
Defined.

(** Three stereo frames written to a mono PCM. *)
Lemma downmix_keeps_left_channel_witness :
  exists ret σ' pre post data,
    out_write mono_board 7%nat (hw_with [] 0) (interleave three_frames) 24
      (playing mono_board 0 480 480)
    = Some (ret, σ')
    /\ log σ' = log (playing mono_board 0 480 480) ++ pre
                ++ EvPcmWrite (pcm (out σ')) data 12 :: post
    /\ forallb (λ e, negb (is_pcm_write e)) (pre ++ post) = true
    /\ take 3 data = [10; 20; 30]
    /\ length data = 6%nat.
Proof.
  assert (Hch : channels (pcm_config_out mono_board)
                < audio_channel_count_from_out_mask out_get_channels)
    by (vm_compute; reflexivity).
  assert (Hn : Z.of_nat (length three_frames) < 2 ^ 31)
    by (vm_compute; reflexivity).
  exact (downmix_keeps_left_channel mono_board 7%nat (hw_with [] 0) three_frames
           (playing mono_board 0 480 480) (playing mono_board 0 480 480)
           (pcm_config_out mono_board) eq_refl eq_refl eq_refl Hch eq_refl Hn).
Defined.

(** The world after an open and a write. *)
Lemma resampler_is_never_used_witness :
  (forall a s, w_streams world_after_write !! a = Some s ->
     (forall config, pcm_config s = Some config ->
        out_get_sample_rate board = rate config)
     /\ resampler s = None /\ buffer s = None)
  /\ forallb (λ e, negb (is_resampling e)) (w_log world_after_write) = true.
Proof.
  apply (resampler_is_never_used board world_after_write).
  apply (hal_run_reachable board
           [AdevOpenOutputStream (Some 7%nat);
            OutWrite 7%nat (hw_with [Some 1500] 0) [1; 2; 3; 4] 16] adev_open).
  - apply reachable_open.
  - vm_compute. reflexivity.
Defined.

(** * Further properties of the entry points *)

Section Further.

Variable bc : build_config.

(** ** One call of [out_write] *)

Lemma start_output_stream_dev self hw σ ret σ1 :
  start_output_stream bc self hw σ = Some (ret, σ1) ->
  (ret = - ENOMEM /\ dev σ1 = dev σ)
  \/ (ret = 0 /\ dev σ1 = set_active_out (Some self) (dev σ)).
Proof.
  unfold start_output_stream. intros H.
  repeat case_match; simplify_eq; simpl in *; auto.
Qed.

Lemma out_write_exit_inv bytes r σ :
  r <> 0 ->
  out_write_exit bc bytes r σ
  = (to_ssize_t bc bytes, emit (EvUsleep (fallback_sleep_us bc bytes)) σ).
Proof.
  intros Hr. unfold out_write_exit. apply Z.eqb_neq in Hr. rewrite Hr. reflexivity.
Qed.

(** X1.  [out_write] has two return values only: [bytes], converted to
    [ssize_t], and [-EPIPE].  It returns [-EPIPE] only when [pcm_write]
    did, and then the hardware write is the last thing the call did.  A
    start that fails and a hardware error other than an underrun are
    reported to the caller like a success. *)
Theorem out_write_result self hw buffer_ bytes σ ret σ' :
  out_write bc self hw buffer_ bytes σ = Some (ret, σ') ->
  ret = to_ssize_t bc bytes
  \/ (ret = - EPIPE /\ hw_pcm_write hw = - EPIPE
      /\ exists data count,
           last (log σ') = Some (EvPcmWrite (pcm (out σ')) data count)).
Proof.
  intros H.
  apply out_write_inv in H as [(r & σ1 & Hl & Hr & Hx)|
                               (σ1 & ib & fs & nf & σ2 & Hl & Hp & Hx)].
  - rewrite out_write_exit_inv in Hx by exact Hr. left. congruence.
  - pose proof (hardware_write_inv bc hw ib fs nf bytes σ2) as Hh.
    rewrite <- Hx in Hh. simpl in Hh.
    destruct Hh as (_ & [(Hu & Hr & Ho & Hlog)|[(_ & Hr & _)|(_ & _ & Hr & _)]]);
      [right|left; exact Hr|left; exact Hr].
    split; [exact Hr|]. split; [exact Hu|].
    exists ib, (to_uint (nf * fs)). rewrite Hlog, Ho, last_snoc. reflexivity.
Qed.

(** What [out_write] does to the device record. *)
Lemma out_write_dev self hw buffer_ bytes σ ret σ' :
  out_write bc self hw buffer_ bytes σ = Some (ret, σ') ->
  (dev σ' = dev σ /\ (standby (out σ) = false -> standby (out σ') = false))
  \/ (standby (out σ) = true /\ standby (out σ') = false
      /\ dev σ' = set_active_out (Some self) (dev σ)).
Proof.
  intros H.
  apply out_write_inv in H as [(r & σ1 & Hl & Hr & Hx)|
                               (σ1 & ib & fs & nf & σ2 & Hl & Hp & Hx)].
  - rewrite out_write_exit_inv in Hx by exact Hr. injection Hx as -> ->.
    apply leave_standby_inv in Hl
      as [(Hs & -> & ->)|[(Hs & _ & H)|(Hs & -> & σs & H & ->)]];
      [congruence| |congruence].
    apply start_output_stream_dev in H as [(_ & Hd)|(-> & _)]; [|congruence].
    left. split; [exact Hd|congruence].
  - pose proof (hardware_write_inv bc hw ib fs nf bytes σ2) as Hh.
    rewrite <- Hx in Hh. simpl in Hh. destruct Hh as (Hd2 & Hh).
    assert (Hs2 : standby (out σ') = standby (out σ2)).
    { destruct Hh as [(_ & _ & -> & _)|[(_ & _ & -> & _)|(_ & _ & _ & -> & _)]];
        reflexivity. }
    pose proof (prepare_write_keeps bc _ _ _ _ _ _ _ _ Hp) as (_ & _ & Hs1 & _).
    apply prepare_write_inv in Hp as (_ & _ & Hd1 & _).
    apply leave_standby_inv in Hl
      as [(Hs & _ & ->)|[(Hs & Hn & H)|(Hs & _ & σs & H & ->)]].
    + left. split; congruence.
    + congruence.
    + apply start_output_stream_dev in H as [(He & _)|(_ & Hd)]; [discriminate|].
      right. split; [exact Hs|]. split; [rewrite Hs2, Hs1; reflexivity|].
      rewrite Hd2, Hd1. exact Hd.
Qed.

(** X2.  [out_write] changes no field of the device but [active_out]:
    putting the old [active_out] back gives the device of before.  And
    [active_out] changes only to the stream written to, in a call that
    found the stream in standby and brought it out. *)
Theorem out_write_device_frame self hw buffer_ bytes σ ret σ' :
  out_write bc self hw buffer_ bytes σ = Some (ret, σ') ->
  set_active_out (active_out (dev σ)) (dev σ') = dev σ
  /\ (active_out (dev σ') = active_out (dev σ)
      \/ (active_out (dev σ') = Some self
          /\ standby (out σ) = true /\ standby (out σ') = false)).
Proof.
  intros H. apply out_write_dev in H as [[-> _]|(Hs & Hs' & ->)].
  - split; [destruct (dev σ); reflexivity|left; reflexivity].
  - split; [destruct (dev σ); reflexivity|right; auto].
Qed.

(** The effects of a call that gets to [pcm_write]. *)
Lemma out_write_shape self hw buffer_ bytes σ σ1 ib fs nf σ2 :
  leave_standby bc self hw σ = Some (0, σ1) ->
  prepare_write bc hw buffer_ bytes σ1 = Some (ib, fs, nf, σ2) ->
  exists ret σ' pre post,
    out_write bc self hw buffer_ bytes σ = Some (ret, σ')
    /\ log σ' = log σ ++ pre
                ++ EvPcmWrite (pcm (out σ')) ib (to_uint (nf * fs)) :: post
    /\ forallb (λ e, negb (is_pcm_write e)) (pre ++ post) = true
    /\ (hw_pcm_write hw = 0 ->
        ret = to_ssize_t bc bytes /\ post = []
        /\ written (out σ') = to_uint64 (written (out σ) + nf)).
Proof.
  intros Hl Hp.
  assert (Hw : out_write bc self hw buffer_ bytes σ
               = Some (hardware_write bc hw ib fs nf bytes σ2)).
  { unfold out_write. rewrite Hl. simpl. rewrite Hp. reflexivity. }
  apply leave_standby_keeps in Hl as (Hw1 & _ & (evs1 & Hl1 & Hf1) & _).
  pose proof (prepare_write_keeps bc _ _ _ _ _ _ _ _ Hp) as (_ & _ & _ & Hw2 & _).
  apply prepare_write_inv in Hp as (_ & _ & _ & _ & (evs2 & Hl2 & Hf2) & _).
  pose proof (hardware_write_inv bc hw ib fs nf bytes σ2) as Hh.
  destruct (hardware_write bc hw _ _ _ _ σ2) as [ret σ'] eqn:Eh.
  simpl in Hh. destruct Hh as (_ & Hh).
  assert (Hf12 : forallb (λ e, negb (is_pcm_write e)) (evs1 ++ evs2) = true).
  { rewrite forallb_app, Hf2, andb_true_r.
    apply forallb_no_write_weaken, Hf1. }
  destruct Hh as [(Hu & _ & Ho & Hlog)|[(_ & Hr & Ho & Hlog)|(_ & Hn & _ & Ho & Hlog)]].
  - exists ret, σ', (evs1 ++ evs2), [].
    split; [exact Hw|]. split.
    { rewrite Hlog, Hl2, Hl1, Ho, <- !app_assoc. reflexivity. }
    rewrite app_nil_r. split; [exact Hf12|].
    rewrite Hu. discriminate.
  - exists ret, σ', (evs1 ++ evs2), [].
    split; [exact Hw|]. split.
    { rewrite Hlog, Hl2, Hl1, Ho, <- !app_assoc. reflexivity. }
    rewrite app_nil_r. split; [exact Hf12|].
    intros _. split; [exact Hr|]. split; [reflexivity|].
    rewrite Ho. simpl. congruence.
  - exists ret, σ', (evs1 ++ evs2), [EvUsleep (fallback_sleep_us bc bytes)].
    split; [exact Hw|]. split.
    { rewrite Hlog, Hl2, Hl1, Ho, <- !app_assoc. reflexivity. }
    split; [rewrite forallb_app, Hf12; reflexivity|].
    intros H0. congruence.
Qed.

Lemma stereo_can_write bytes s config :
  pcm_config s = Some config ->
  out_get_sample_rate bc = rate config ->
  2 <= channels config ->
  config_divides config = true ->
  can_write bc bytes s = true.
Proof.
  intros Hc Hr Hch Hd. unfold can_write. rewrite Hc, Hd, Hr, Z.eqb_refl.
  assert ((channels config >=? 2) = true) as -> by (apply Z.geb_le; lia).
  reflexivity.
Qed.

Lemma frame_size_is_8 : audio_stream_out_frame_size = 8.
Proof. reflexivity. Qed.

(** X3.  On a PCM with at least two channels, at the rate of the stream,
    the hardware gets the caller's buffer as it is, and the byte count
    rounded down to whole frames: the bytes of a trailing partial frame are
    not written.  When the write succeeds the call still returns [bytes],
    the partial frame included, while [written] advances by the whole
    frames only. *)
Theorem stereo_write_drops_partial_frame self hw buffer_ bytes σ σ1 config :
  leave_standby bc self hw σ = Some (0, σ1) ->
  pcm_config (out σ1) = Some config ->
  out_get_sample_rate bc = rate config ->
  2 <= channels config ->
  config_divides config = true ->
  0 <= bytes < 2 ^ 32 ->
  exists ret σ' pre post,
    out_write bc self hw buffer_ bytes σ = Some (ret, σ')
    /\ log σ' = log σ ++ pre
                ++ EvPcmWrite (pcm (out σ')) buffer_
                     (bytes - bytes mod audio_stream_out_frame_size) :: post
    /\ forallb (λ e, negb (is_pcm_write e)) (pre ++ post) = true
    /\ (hw_pcm_write hw = 0 ->
        ret = to_ssize_t bc bytes
        /\ written (out σ')
           = to_uint64 (written (out σ) + bytes / audio_stream_out_frame_size)).
Proof.
  intros Hl Hcfg Hrate Hch Hdiv Hb.
  destruct (prepare_write_defined bc hw buffer_ bytes σ1
              (stereo_can_write bytes (out σ1) config Hcfg Hrate Hch Hdiv))
    as [[[[ib fs] nf] σ2] Hp].
  destruct (out_write_shape self hw buffer_ bytes σ σ1 ib fs nf σ2 Hl Hp)
    as (ret & σ' & pre & post & Hw & Hlog & Hf & Hok).
  apply prepare_write_inv in Hp as (config' & Hcfg' & _ & _ & _ & Hfs & Hdata).
  assert (config' = config) as -> by congruence.
  destruct (Hdata Hrate) as [Hnf Hib]. subst nf ib.
  assert ((2 >? channels config) = false) as Hgt
    by (rewrite Z.gtb_ltb; apply Z.ltb_ge; lia).
  rewrite Hgt in Hfs, Hlog. subst fs.
  assert (Hcount : to_uint (bytes / audio_stream_out_frame_size
                            * audio_stream_out_frame_size)
                   = bytes - bytes mod audio_stream_out_frame_size).
  { rewrite frame_size_is_8.
    pose proof (Z.div_mod bytes 8 ltac:(lia)) as Hdm.
    pose proof (Z.mod_pos_bound bytes 8 ltac:(lia)) as Hm.
    rewrite to_uint_small by lia. lia. }
  rewrite Hcount in Hlog.
  exists ret, σ', pre, post.
  split; [exact Hw|]. split; [exact Hlog|]. split; [exact Hf|].
  intros H0. destruct (Hok H0) as (Hr & _ & Hwr). auto.
Qed.

(** X4.  A write of [out_get_buffer_size] bytes is a write of one period:
    when it succeeds on a stereo PCM the hardware gets exactly that many
    bytes, nothing follows the hardware write, and [written] advances by
    [period_size]. *)
Theorem buffer_size_write_is_one_period self hw buffer_ σ σ1 :
  abi_ok bc ->
  leave_standby bc self hw σ = Some (0, σ1) ->
  pcm_config (out σ1) = Some (pcm_config_out bc) ->
  2 <= channels (pcm_config_out bc) ->
  config_divides (pcm_config_out bc) = true ->
  period_size (pcm_config_out bc) * audio_stream_out_frame_size < 2 ^ 32 ->
  hw_pcm_write hw = 0 ->
  exists ret σ' pre,
    out_write bc self hw buffer_ (out_get_buffer_size bc) σ = Some (ret, σ')
    /\ log σ' = log σ ++ pre
                ++ [EvPcmWrite (pcm (out σ')) buffer_ (out_get_buffer_size bc)]
    /\ forallb (λ e, negb (is_pcm_write e)) pre = true
    /\ written (out σ')
       = to_uint64 (written (out σ) + period_size (pcm_config_out bc)).
Proof.
  intros Habi Hl Hcfg Hch Hdiv Hsz H0.
  assert (Hps : 0 <= period_size (pcm_config_out bc)).
  { simpl. unfold to_uint, wrap_unsigned. apply Z.mod_pos_bound. lia. }
  assert (Hbs : out_get_buffer_size bc = period_size (pcm_config_out bc) * 8).
  { unfold out_get_buffer_size. rewrite frame_size_is_8 in *.
    apply to_size_t_uint; [exact Habi|lia]. }
  destruct (prepare_write_defined bc hw buffer_ (out_get_buffer_size bc) σ1
              (stereo_can_write _ (out σ1) _ Hcfg eq_refl Hch Hdiv))
    as [[[[ib fs] nf] σ2] Hp].
  destruct (out_write_shape self hw buffer_ _ σ σ1 ib fs nf σ2 Hl Hp)
    as (ret & σ' & pre & post & Hw & Hlog & Hf & Hok).
  apply prepare_write_inv in Hp as (config' & Hcfg' & _ & _ & _ & Hfs & Hdata).
  assert (config' = pcm_config_out bc) as -> by congruence.
  destruct (Hdata eq_refl) as [Hnf Hib]. subst nf ib.
  assert ((2 >? channels (pcm_config_out bc)) = false) as Hgt
    by (rewrite Z.gtb_ltb; apply Z.ltb_ge; lia).
  rewrite Hgt in Hfs, Hlog. subst fs.
  rewrite frame_size_is_8 in *.
  assert (Hq : out_get_buffer_size bc / 8 = period_size (pcm_config_out bc)).
  { rewrite Hbs. apply Z.div_mul. discriminate. }
  rewrite Hq in *.
  assert (Hcount : to_uint (period_size (pcm_config_out bc) * 8)
                   = out_get_buffer_size bc).
  { rewrite Hbs. apply to_uint_small. lia. }
  rewrite Hcount in Hlog.
  destruct (Hok H0) as (_ & -> & Hwr).
  exists ret, σ', pre. rewrite app_nil_r in Hf. auto.
Qed.

Lemma prepare_write_sco hw buffer_ bytes σ in_buffer frame_size out_frames σ' :
  sco_on (dev σ) = true ->
  prepare_write bc hw buffer_ bytes σ
  = Some (in_buffer, frame_size, out_frames, σ') ->
  out σ' = out σ
  /\ exists evs, log σ' = log σ ++ evs
                 /\ forallb (λ e, negb (is_usleep e)) evs = true.
Proof.
  unfold prepare_write, sco_on. intros Hsco H. rewrite Hsco in H.
  destruct (pcm_config (out σ)) as [config|] eqn:Ec; simpl in H; [|discriminate].
  repeat case_match; simplify_option_eq;
    (split; [reflexivity|]);
    first [ exists []; split; [symmetry; apply app_nil_r|reflexivity]
          | eexists; split; reflexivity ].
Qed.

(** X5.  On a Bluetooth SCO route a write that gets to the hardware is not
    throttled: no [usleep] comes before the hardware write, and the two
    write thresholds of the stream are left as they were. *)
Theorem sco_write_is_not_throttled self hw buffer_ bytes σ σ1 ret σ' :
  sco_on (dev σ) = true ->
  leave_standby bc self hw σ = Some (0, σ1) ->
  out_write bc self hw buffer_ bytes σ = Some (ret, σ') ->
  (exists pre data count post,
     log σ' = log σ ++ pre ++ EvPcmWrite (pcm (out σ')) data count :: post
     /\ forallb (λ e, negb (is_usleep e)) pre = true)
  /\ cur_write_threshold (out σ') = cur_write_threshold (out σ)
  /\ write_threshold (out σ') = write_threshold (out σ).
Proof.
  intros Hsco Hl Hw.
  apply out_write_inv in Hw as [(r & σ1' & Hl' & Hr & _)|
                                (σ1' & ib & fs & nf & σ2 & Hl' & Hp & Hx)];
    [congruence|].
  assert (σ1' = σ1) as -> by congruence. clear Hl'.
  assert (Hl1 : cur_write_threshold (out σ1) = cur_write_threshold (out σ)
                /\ write_threshold (out σ1) = write_threshold (out σ)).
  { apply leave_standby_inv in Hl
      as [(_ & _ & ->)|[(_ & Hn & _)|(_ & _ & σs & H & ->)]];
      [auto|congruence|].
    apply start_output_stream_inv in H as (_ & Hc & Ht & _). simpl. auto. }
  apply leave_standby_keeps in Hl as (_ & Hd & (evs1 & Hlog1 & Hf1) & _).
  assert (Hsco1 : sco_on (dev σ1) = true) by (unfold sco_on in *; congruence).
  destruct (prepare_write_sco _ _ _ _ _ _ _ _ Hsco1 Hp) as (Ho2 & evs2 & Hlog2 & Hf2).
  pose proof (hardware_write_inv bc hw ib fs nf bytes σ2) as Hh.
  rewrite <- Hx in Hh. simpl in Hh. destruct Hh as (_ & Hh).
  assert (Hf12 : forallb (λ e, negb (is_usleep e)) (evs1 ++ evs2) = true).
  { rewrite forallb_app, Hf2, andb_true_r.
    clear -Hf1. induction evs1 as [|e l IH]; [reflexivity|].
    simpl in *. apply andb_true_iff in Hf1 as [He Hf1].
    rewrite IH by exact Hf1.
    apply negb_true_iff, orb_false_iff in He as [_ ->]. reflexivity. }
  destruct Hl1 as [Hc1 Ht1].
  destruct Hh as [(_ & _ & Ho & Hlog)|[(_ & _ & Ho & Hlog)|(_ & _ & _ & Ho & Hlog)]];
    (split;
     [ eexists (evs1 ++ evs2), ib, (to_uint (nf * fs)), _;
       split; [rewrite Hlog, Hlog2, Hlog1, Ho, <- !app_assoc; reflexivity|exact Hf12]
     | rewrite Ho; simpl; rewrite Ho2; auto ]).
Qed.

(** ** The throttling loop *)

Lemma sleep_time_kept s :
  (s <? MIN_WRITE_SLEEP_US) = false -> INT_MIN <= s <= INT_MAX ->
  to_uint s = s /\ MIN_WRITE_SLEEP_US <= s <= INT_MAX.
Proof.
  intros Hs Hr. apply Z.ltb_ge in Hs.
  split; [|lia]. apply to_uint_small.
  unfold MIN_WRITE_SLEEP_US, INT_MAX in *. lia.
Qed.

Lemma throttle_sleeps_range config cwt buffer_size answers : forall kf total,
  Forall (λ us, MIN_WRITE_SLEEP_US <= us <= INT_MAX)
    (snd (throttle bc config cwt buffer_size answers kf total)).
Proof.
  induction answers as [|[avail|] answers IH]; intros kf total;
    [constructor| |constructor].
  cbn [throttle]. cbv zeta.
  set (k := to_int (to_uint (buffer_size - avail))).
  destruct (k >? cwt); [|constructor].
  match goal with |- context [to_int ?q <? _] => set (s := to_int q) end.
  destruct (s <? MIN_WRITE_SLEEP_US) eqn:Es; [constructor|].
  destruct (sleep_time_kept s Es (to_int_range _)) as [Hu Hs].
  destruct (_ <=? MAX_WRITE_SLEEP_US bc).
  - specialize (IH k (to_int (total + s))).
    destruct (throttle _ _ _ _ _ _ _) as [last sleeps]. cbn [snd] in *.
    constructor; [rewrite Hu; exact Hs|exact IH].
  - cbn [snd]. constructor; [rewrite Hu; exact Hs|constructor].
Qed.

Lemma total_sleep_cons x l : total_sleep (x :: l) = x + total_sleep l.
Proof. reflexivity. Qed.

Lemma total_sleep_nonneg sleeps :
  Forall (λ us, MIN_WRITE_SLEEP_US <= us <= INT_MAX) sleeps ->
  MIN_WRITE_SLEEP_US * Z.of_nat (length sleeps) <= total_sleep sleeps.
Proof.
  unfold MIN_WRITE_SLEEP_US.
  induction 1 as [|x l Hx _ IH]; [cbn; lia|].
  rewrite total_sleep_cons, length_cons, Nat2Z.inj_succ. lia.
Qed.

Lemma throttle_total config cwt buffer_size answers : forall kf total,
  0 <= total <= MAX_WRITE_SLEEP_US bc ->
  total + total_sleep (snd (throttle bc config cwt buffer_size answers kf total))
  <= INT_MAX ->
  snd (throttle bc config cwt buffer_size answers kf total) = []
  \/ exists init last,
       snd (throttle bc config cwt buffer_size answers kf total) = init ++ [last]
       /\ total + total_sleep init <= MAX_WRITE_SLEEP_US bc.
Proof.
  induction answers as [|[avail|] answers IH]; intros kf total Ht;
    [left; reflexivity| |left; reflexivity].
  pose proof (throttle_sleeps_range config cwt buffer_size (Some avail :: answers)
                kf total) as Hrange.
  revert Hrange. cbn [throttle]. cbv zeta.
  set (k := to_int (to_uint (buffer_size - avail))).
  destruct (k >? cwt); [|left; reflexivity].
  match goal with |- context [to_int ?q <? _] => set (s := to_int q) end.
  destruct (s <? MIN_WRITE_SLEEP_US) eqn:Es; [left; reflexivity|].
  destruct (sleep_time_kept s Es (to_int_range _)) as [Hu Hs].
  rewrite Hu.
  assert (Hone : total + total_sleep [] <= MAX_WRITE_SLEEP_US bc)
    by (cbn; lia).
  destruct (to_int (total + s) <=? MAX_WRITE_SLEEP_US bc) eqn:Em.
  - specialize (IH k (to_int (total + s))).
    destruct (throttle _ _ _ _ _ _ _) as [last sleeps]. cbn [snd] in *.
    intros Hrange. rewrite total_sleep_cons. intros Hsum. right.
    apply Forall_cons in Hrange as [_ Hrest].
    pose proof (total_sleep_nonneg _ Hrest) as Hnn.
    unfold MIN_WRITE_SLEEP_US in *.
    assert (Hts : to_int (total + s) = total + s).
    { apply to_int_small. unfold INT_MIN, INT_MAX in *. lia. }
    apply Z.leb_le in Em. rewrite Hts in IH, Em.
    destruct IH as [->|(init & l & -> & Hi)]; [lia|lia| |].
    + exists [], s. split; [reflexivity|exact Hone].
    + exists (s :: init), l. split; [reflexivity|].
      rewrite total_sleep_cons. lia.
  - cbn [snd]. intros _ _. right. exists [], s. split; [reflexivity|exact Hone].
Qed.

(** X6.  The throttling loop of [out_write] sleeps for a bounded time.
    Each sleep is at least [MIN_WRITE_SLEEP_US] and fits an [int]; and as
    long as the time slept fits the [int] the loop keeps it in, the sleeps
    before the last one add up to at most [MAX_WRITE_SLEEP_US], however
    many readings the hardware would still give: so there are at most
    [MAX_WRITE_SLEEP_US / MIN_WRITE_SLEEP_US] sleeps and one more. *)
Theorem throttle_sleep_is_bounded config cwt buffer_size answers kf sleeps :
  0 <= MAX_WRITE_SLEEP_US bc ->
  sleeps = snd (throttle bc config cwt buffer_size answers kf 0) ->
  total_sleep sleeps <= INT_MAX ->
  Forall (λ us, MIN_WRITE_SLEEP_US <= us <= INT_MAX) sleeps
  /\ (sleeps = []
      \/ exists init last,
           sleeps = init ++ [last]
           /\ total_sleep init <= MAX_WRITE_SLEEP_US bc
           /\ MIN_WRITE_SLEEP_US * Z.of_nat (length init) <= MAX_WRITE_SLEEP_US bc).
Proof.
  intros Hmax -> Hsum.
  pose proof (throttle_sleeps_range config cwt buffer_size answers kf 0) as Hrange.
  split; [exact Hrange|].
  destruct (throttle_total config cwt buffer_size answers kf 0) as [H|(init & l & H & Hi)];
    [lia|lia|auto|].
  right. exists init, l. split; [exact H|]. split; [lia|].
  rewrite H in Hrange. apply Forall_app in Hrange as [Hinit _].
  pose proof (total_sleep_nonneg _ Hinit). lia.
Qed.

(** ** The threshold at its target *)

Lemma to_size_t_low (Habi : abi_ok bc) z : exists k, to_size_t bc z = z + k * 2 ^ 32.
Proof.
  unfold to_size_t, wrap_unsigned.
  assert (Hw : exists k, 2 ^ LONG_BIT bc = k * 2 ^ 32 /\ 2 ^ LONG_BIT bc <> 0).
  { destruct Habi as [-> | ->]; [exists 1|exists (2 ^ 32)]; split;
      first [reflexivity|discriminate]. }
  destruct Hw as (k & Hk & Hnz).
  pose proof (Z.div_mod z (2 ^ LONG_BIT bc) Hnz) as Hz.
  exists (- k * (z / 2 ^ LONG_BIT bc)). nia.
Qed.

Lemma to_int_mul_size_t_l (Habi : abi_ok bc) a b :
  to_int (to_size_t bc a * b) = to_int (a * b).
Proof.
  destruct (to_size_t_low Habi a) as [k ->].
  replace ((a + k * 2 ^ 32) * b) with (a * b + (k * b) * 2 ^ 32) by ring.
  apply to_int_shift.
Qed.

Lemma to_int_mul_size_t_r (Habi : abi_ok bc) a b :
  to_int (a * to_size_t bc b) = to_int (a * b).
Proof. rewrite (Z.mul_comm a), to_int_mul_size_t_l, Z.mul_comm; auto. Qed.

(** X7.  The fast recovery needs a negative fill level.  When the target
    is that of the short buffer and the current threshold is at the
    target, a fill level of 0 frames or more leaves the stream as it is:
    the branch that raises the threshold above the target is taken only
    when [kernel_frames] is negative, that is when the hardware reports
    more free frames than [pcm_get_buffer_size] gives the ring. *)
Theorem ramp_needs_negative_fill config kernel_frames s :
  abi_ok bc ->
  write_threshold s = short_write_threshold bc config ->
  cur_write_threshold s = write_threshold s ->
  0 <= kernel_frames ->
  ramp bc config kernel_frames s = s.
Proof.
  intros Habi Ht Hc Hk. unfold ramp. rewrite Hc.
  rewrite Z.gtb_ltb, Z.ltb_irrefl.
  assert (Hsame : to_int (to_size_t bc (to_size_t bc (period_size config)
                                        * OUT_SHORT_PERIOD_COUNT bc))
                  = write_threshold s).
  { rewrite Ht. unfold short_write_threshold.
    rewrite !(to_int_to_size_t bc Habi).
    rewrite to_int_mul_size_t_l, to_int_mul_size_t_r by exact Habi. reflexivity. }
  rewrite Hsame.
  destruct (kernel_frames <? write_threshold s) eqn:E; [|reflexivity].
  apply Z.ltb_lt in E.
  assert (Hr : INT_MIN <= write_threshold s <= INT_MAX)
    by (rewrite Ht; apply to_int_range).
  rewrite (to_int_small (write_threshold s - kernel_frames))
    by (unfold INT_MIN, INT_MAX in *; lia).
  assert ((write_threshold s - kernel_frames >? write_threshold s) = false) as ->
    by (rewrite Z.gtb_ltb; apply Z.ltb_ge; lia).
  reflexivity.
Qed.

(** ** Parameters *)

(** X8.  [adev_set_parameters] is idempotent: a second call with the same
    parameters returns the same value, leaves the device as the first call
    left it, and does not touch the audio router. *)
Theorem adev_set_parameters_twice ro vo rs vs adev :
  adev_set_parameters ro vo rs vs (adev_set_parameters ro vo rs vs adev).1.2
  = ((adev_set_parameters ro vo rs vs adev).1.1,
     (adev_set_parameters ro vo rs vs adev).1.2, []).
Proof.
  unfold adev_set_parameters.
  destruct adev as [od id sb mm ori so ao].
  destruct (0 <=? ro), (0 <=? rs), (String.eqb vs "on");
    repeat (destruct (String.eqb vo _));
    destruct ori; cbn -[select_devices]; reflexivity.
Qed.

(** X9.  [out_set_parameters] is idempotent: a second call with the same
    routing value finds the device selected already, so it puts nothing in
    standby and does not touch the audio router. *)
Theorem out_set_parameters_twice ret value σ :
  out_set_parameters ret value (snd (out_set_parameters ret value σ))
  = (ret, snd (out_set_parameters ret value σ)).
Proof.
  unfold out_set_parameters.
  destruct (0 <=? ret); [|reflexivity].
  destruct (negb (out_device (dev σ) =? to_uint value) && negb (to_uint value =? 0))
    eqn:E.
  - cbn -[select_devices do_out_standby]. rewrite Z.eqb_refl. reflexivity.
  - cbn [snd]. rewrite E. reflexivity.
Qed.

(** ** Opening and closing a stream *)

(** X10.  Closing a stream right after it was opened undoes the open: the
    stream, the device and the effect log are those of before, so the pair
    of calls touches no hardware. *)
Theorem open_close_round_trip a w :
  w_streams w !! a = None ->
  exists w1,
    adev_open_output_stream (Some a) w = Some (0, w1)
    /\ w_streams w1 !! a = Some new_stream_out
    /\ adev_close_output_stream a w1 = Some (0, w).
Proof.
  intros Ha. unfold adev_open_output_stream. rewrite Ha.
  eexists. split; [reflexivity|]. cbn [w_streams].
  split; [apply lookup_insert_eq|].
  unfold adev_close_output_stream, on_stream. cbn [w_streams w_dev w_log].
  rewrite lookup_insert_eq. cbn.
  rewrite insert_insert_eq, delete_insert_id by exact Ha.
  destruct w. reflexivity.
Qed.

(** ** A stream that holds a closed handle *)



(** ** The position reported *)

(** X12.  A position [out_get_presentation_position] reports is never
    ahead of the frames written and lags them by at most the capacity of
    the ring, when the hardware reports no more free frames than the ring
    has. *)
Theorem presentation_position_le_written telemetry frames σ config avail
    position ts :
  abi_ok bc ->
  pcm_config (out σ) = Some config ->
  0 <= period_size config * period_count config < 2 ^ 32 ->
  0 <= written (out σ) < 2 ^ 63 ->
  fst telemetry = Some avail ->
  0 <= avail <= period_size config * period_count config ->
  out_get_presentation_position bc telemetry frames σ = Some (0, position, ts) ->
  written (out σ) - period_size config * period_count config
  <= position <= written (out σ).
Proof.
  intros Habi Hc Hcap Hw Ha Hav.
  unfold out_get_presentation_position. rewrite Ha, Hc. cbn.
  rewrite (to_uint_small (period_size config * period_count config)) by lia.
  rewrite (to_size_t_uint bc Habi (period_size config * period_count config)) by lia.
  rewrite (to_uint_small avail) by lia.
  rewrite to_int64_to_uint64.
  set (pos := written (out σ) - period_size config * period_count config + avail).
  rewrite (to_int64_small pos) by (unfold pos; lia).
  destruct (0 <=? pos) eqn:E; [|discriminate].
  apply Z.leb_le in E.
  rewrite to_uint64_small by (unfold pos in *; lia).
  intros [= <- _]. unfold pos. lia.
Qed.

(** ** The worlds the entry points bring about *)

Lemma do_out_standby_frame σ :
  (dev (do_out_standby σ) = dev σ \/ dev (do_out_standby σ) = set_active_out None (dev σ))
  /\ buffer_type (out (do_out_standby σ)) = buffer_type (out σ)
  /\ write_threshold (out (do_out_standby σ)) = write_threshold (out σ)
  /\ cur_write_threshold (out (do_out_standby σ)) = cur_write_threshold (out σ).
Proof.
  unfold do_out_standby.
  destruct (standby (out σ)); cbn; [auto|].
  destruct (resampler (out σ)) eqn:Er; cbn;
    destruct (buffer (out σ)) eqn:Eb; cbn; rewrite ?Er, ?Eb; cbn; auto.
Qed.

Lemma out_set_parameters_frame ret value σ :
  out (snd (out_set_parameters ret value σ)) = out σ
  \/ out (snd (out_set_parameters ret value σ)) = out (do_out_standby σ).
Proof.
  unfold out_set_parameters.
  destruct (0 <=? ret); [destruct (_ && _)|]; cbn -[select_devices do_out_standby]; auto.
Qed.

(** A property of streams that a fresh stream has and that [out_write] and
    [do_out_standby] keep holds of every stream of every world the entry
    points bring about. *)
Lemma reachable_streams (P : stream_out -> Prop) :
  P new_stream_out ->
  (forall self hw buffer_ bytes σ r σ',
     stream_ok bc (out σ) -> P (out σ) ->
     out_write bc self hw buffer_ bytes σ = Some (r, σ') -> P (out σ')) ->
  (forall σ, P (out σ) -> P (out (do_out_standby σ))) ->
  forall w, reachable bc w -> forall a s, w_streams w !! a = Some s -> P s.
Proof.
  intros Hnew Hwrite Hstandby w Hr.
  induction Hr as [|c w ret w' Hr IH Hstep].
  - intros a s. cbn. rewrite lookup_empty. discriminate.
  - destruct (reachable_ok bc w Hr) as [Hok _].
    intros b s'. revert Hstep. destruct c; cbn [hal_step].
    + unfold adev_open_output_stream.
      destruct calloc as [a|]; [|intros [= <- <-]; apply IH].
      destruct (w_streams w !! a) eqn:Ea; [discriminate|].
      intros [= <- <-]. cbn. rewrite lookup_insert. case_decide; [|apply IH].
      intros [= <-]. exact Hnew.
    + unfold adev_close_output_stream, on_stream.
      destruct (w_streams w !! stream) as [s|] eqn:Ea; cbn; [|discriminate].
      intros [= <- <-]. cbn. rewrite lookup_delete. case_decide; [discriminate|].
      rewrite lookup_insert. case_decide; [congruence|apply IH].
    + unfold on_stream.
      destruct (w_streams w !! stream) as [s|] eqn:Ea; cbn; [|discriminate].
      destruct (out_write _ _ _ _ _ _) as [[r σ']|] eqn:Ew; cbn; [|discriminate].
      intros [= <- <-]. cbn. rewrite lookup_insert. case_decide; [|apply IH].
      intros [= <-].
      exact (Hwrite _ _ _ _ {| dev := w_dev w; out := s; log := w_log w |} _ _
               (Hok _ _ Ea) (IH _ _ Ea) Ew).
    + unfold on_stream.
      destruct (w_streams w !! stream) as [s|] eqn:Ea; cbn; [|discriminate].
      intros [= <- <-]. cbn. rewrite lookup_insert. case_decide; [|apply IH].
      intros [= <-].
      apply (Hstandby {| dev := w_dev w; out := s; log := w_log w |}).
      exact (IH _ _ Ea).
    + unfold on_stream.
      destruct (w_streams w !! stream) as [s|] eqn:Ea;
        cbn -[out_set_parameters]; [|discriminate].
      set (σ := {| dev := w_dev w; out := s; log := w_log w |}).
      pose proof (out_set_parameters_frame ret0 value σ) as Hf.
      destruct (out_set_parameters ret0 value σ) as [r σ'].
      intros [= <- <-]. cbn in *. rewrite lookup_insert. case_decide; [|apply IH].
      intros [= <-]. destruct Hf as [-> | ->].
      * exact (IH _ _ Ea).
      * apply (Hstandby σ). exact (IH _ _ Ea).
    + destruct (adev_set_parameters _ _ _ _ _) as [[r adev] evs].
      intros [= <- <-]. apply IH.
    + intros [= <- <-]. apply IH.
Qed.

Lemma adapt_buffer_type_short config s :
  buffer_type (adapt_buffer_type bc config OUT_BUFFER_TYPE_SHORT s)
  = OUT_BUFFER_TYPE_SHORT
  /\ write_threshold (adapt_buffer_type bc config OUT_BUFFER_TYPE_SHORT s)
     = short_write_threshold bc config.
Proof.
  unfold adapt_buffer_type, short_write_threshold.
  repeat case_decide; try discriminate; split; reflexivity.
Qed.

Lemma buffer_type_ok_write self hw buffer_ bytes σ r σ' :
  stream_ok bc (out σ) -> buffer_type_ok bc (out σ) ->
  out_write bc self hw buffer_ bytes σ = Some (r, σ') ->
  buffer_type_ok bc (out σ').
Proof.
  intros Hok [Hnl Hsh] Hw.
  apply out_write_inv in Hw as [(ret & σ1 & Hl & Hr & Hx)|
                                (σ1 & ib & fs & nf & σ2 & Hl & Hp & Hx)].
  - rewrite out_write_exit_inv in Hx by exact Hr. injection Hx as -> ->. cbn.
    apply leave_standby_inv in Hl
      as [(Hs & -> & ->)|[(Hs & _ & H)|(Hs & -> & σs & H & ->)]];
      [congruence| |congruence].
    apply start_output_stream_inv in H as (_ & _ & Ht & _ & _ & Hb & _).
    unfold buffer_type_ok. rewrite Hb, Ht.
    destruct (speaker_on (dev σ)); [split; discriminate|auto].
  - destruct (leave_standby_ok bc _ _ _ _ _ Hok Hl) as ((_ & _ & _ & Ha1 & _) & Hact & _).
    destruct (Ha1 (Hact eq_refl)) as [Hcfg _].
    assert (H1 : buffer_type_ok bc (out σ1)).
    { apply leave_standby_inv in Hl
        as [(_ & _ & ->)|[(_ & Hn & _)|(_ & _ & σs & H & ->)]];
        [split; assumption|congruence|].
      apply start_output_stream_inv in H as (_ & _ & Ht & _ & _ & Hb & _).
      unfold buffer_type_ok. cbn. rewrite Hb, Ht.
      destruct (speaker_on (dev σ)); [split; discriminate|auto]. }
    assert (H2 : buffer_type_ok bc (out σ2)).
    { apply prepare_write_inv in Hp as (config & Hc & _ & -> & _).
      assert (config = pcm_config_out bc) as -> by congruence.
      destruct (sco_on (dev σ1)); [exact H1|].
      match goal with
      | |- context [ramp bc ?c ?k ?s] =>
          destruct (ramp_fields bc c k s) as (_ & _ & _ & _ & _ & _ & Hb & Ht)
      end.
      unfold buffer_type_ok. rewrite Hb, Ht.
      destruct H1 as [Hnl1 Hsh1].
      unfold adapted. destruct (bool_decide _) eqn:E; [auto|].
      destruct (adapt_buffer_type_short (pcm_config_out bc) (out σ1)) as [-> ->].
      split; [discriminate|reflexivity]. }
    pose proof (hardware_write_inv bc hw ib fs nf bytes σ2) as Hh.
    rewrite <- Hx in Hh. cbn in Hh. destruct Hh as (_ & Hh).
    destruct Hh as [(_ & _ & -> & _)|[(_ & _ & -> & _)|(_ & _ & _ & -> & _)]];
      exact H2.
Qed.

(** X13.  No stream of a world the entry points bring about has the long
    buffer type: [out_write] only ever asks for the short one.  And a
    stream of the short type has the target of the short buffer,
    [period_size * OUT_SHORT_PERIOD_COUNT] of the output configuration,
    narrowed to an [int]. *)
Theorem buffer_type_is_never_long w a s :
  reachable bc w -> w_streams w !! a = Some s ->
  buffer_type s <> OUT_BUFFER_TYPE_LONG
  /\ (buffer_type s = OUT_BUFFER_TYPE_SHORT ->
      write_threshold s = short_write_threshold bc (pcm_config_out bc)).
Proof.
  intros Hr Ha.
  apply (reachable_streams (buffer_type_ok bc)) with (w := w) (a := a); auto.
  - split; [discriminate|discriminate].
  - intros self hw buffer_ bytes σ r σ'. apply buffer_type_ok_write.
  - intros σ [H1 H2]. destruct (do_out_standby_frame σ) as (_ & Hb & Ht & _).
    unfold buffer_type_ok. rewrite Hb, Ht. auto.
Qed.

(** X14.  In every world the entry points bring about, a stream out of
    standby has the output configuration and a PCM handle that is ready;
    and a handle found in a stream in standby is not ready: it is one a
    failed start closed and left in place. *)
Theorem active_stream_has_ready_handle w a s :
  reachable bc w -> w_streams w !! a = Some s ->
  (standby s = false ->
   pcm_config s = Some (pcm_config_out bc)
   /\ exists p, pcm s = Some p /\ pcm_is_ready p = true)
  /\ (standby s = true -> forall p, pcm s = Some p -> pcm_is_ready p = false).
Proof.
  intros Hr Ha. destruct (reachable_ok bc w Hr) as [Hok _].
  destruct (Hok a s Ha) as (_ & _ & _ & H1 & H2). auto.
Qed.

(** *** The device record under the entry points *)

Lemma adev_set_parameters_dev ro vo rs vs adev :
  let adev' := (adev_set_parameters ro vo rs vs adev).1.2 in
  out_device adev' = out_device adev /\ in_device adev' = in_device adev
  /\ adev_standby adev' = adev_standby adev /\ mic_mute adev' = mic_mute adev
  /\ active_out adev' = active_out adev.
Proof.
  unfold adev_set_parameters.
  destruct (0 <=? ro), (0 <=? rs), (String.eqb vs "on");
    try destruct (negb _); cbn -[select_devices]; auto.
Qed.

(** The device after a step: the stream entry points only move
    [active_out], and [out_set_parameters] the output device as well. *)
Lemma hal_step_dev c w ret w' :
  hal_step bc c w = Some (ret, w') ->
  match c with
  | AdevSetMicMute state => w_dev w' = set_mic_mute state (w_dev w)
  | AdevSetParameters ro vo rs vs =>
      w_dev w' = (adev_set_parameters ro vo rs vs (w_dev w)).1.2
  | OutSetParameters _ _ value =>
      exists d,
        (d = w_dev w \/ d = set_active_out None (w_dev w))
        /\ (w_dev w' = d \/ w_dev w' = set_out_device (to_uint value) d)
  | _ => w_dev w' = w_dev w \/ exists o, w_dev w' = set_active_out o (w_dev w)
  end.
Proof.
  destruct c; cbn [hal_step].
  - unfold adev_open_output_stream.
    destruct calloc as [a|]; [|intros [= <- <-]; auto].
    destruct (w_streams w !! a); [discriminate|]. intros [= <- <-]. auto.
  - unfold adev_close_output_stream, on_stream.
    destruct (w_streams w !! stream) as [s|]; cbn; [|discriminate].
    intros [= <- <-]. cbn.
    destruct (do_out_standby_frame {| dev := w_dev w; out := s; log := w_log w |})
      as ([-> | ->] & _); eauto.
  - unfold on_stream.
    destruct (w_streams w !! stream) as [s|]; cbn; [|discriminate].
    destruct (out_write _ _ _ _ _ _) as [[r σ']|] eqn:Ew; cbn; [|discriminate].
    intros [= <- <-]. cbn.
    apply out_write_dev in Ew as [[-> _]|(_ & _ & ->)]; eauto.
  - unfold on_stream.
    destruct (w_streams w !! stream) as [s|]; cbn; [|discriminate].
    intros [= <- <-]. cbn.
    destruct (do_out_standby_frame {| dev := w_dev w; out := s; log := w_log w |})
      as ([-> | ->] & _); eauto.
  - unfold on_stream.
    destruct (w_streams w !! stream) as [s|];
      cbn -[out_set_parameters]; [|discriminate].
    set (σ := {| dev := w_dev w; out := s; log := w_log w |}).
    intros [= <- <-]. cbn -[out_set_parameters].
    unfold out_set_parameters.
    destruct (0 <=? ret0); [destruct (_ && _)|];
      cbn -[select_devices do_out_standby].
    + exists (dev (do_out_standby σ)). split; [|right; reflexivity].
      destruct (do_out_standby_frame σ) as ([-> | ->] & _); auto.
    + exists (w_dev w). auto.
    + exists (w_dev w). auto.
  - destruct (adev_set_parameters _ _ _ _ _) as [[r adev] evs] eqn:E.
    intros [= <- <-]. reflexivity.
  - intros [= <- <-]. reflexivity.
Qed.

Lemma hal_step_in_device c w ret w' :
  hal_step bc c w = Some (ret, w') ->
  in_device (w_dev w') = in_device (w_dev w)
  /\ adev_standby (w_dev w') = adev_standby (w_dev w).
Proof.
  intros H. apply hal_step_dev in H.
  destruct c;
    try (destruct H as [-> | [o ->]]; split; reflexivity).
  - destruct H as (d & [-> | ->] & [-> | ->]); split; reflexivity.
  - rewrite H.
    destruct (adev_set_parameters_dev ret_orientation orientation_value
                ret_screen screen_value (w_dev w)) as (_ & Hi & Hs & _).
    auto.
  - rewrite H. split; reflexivity.
Qed.

(** X15.  What each entry point leaves alone in the device: none changes
    the input device or the standby flag of the device; the microphone
    mute changes only in [adev_set_mic_mute], the output device only in
    [out_set_parameters], the orientation and the screen state only in
    [adev_set_parameters]. *)
Theorem hal_step_device_frame c w ret w' :
  hal_step bc c w = Some (ret, w') ->
  in_device (w_dev w') = in_device (w_dev w)
  /\ adev_standby (w_dev w') = adev_standby (w_dev w)
  /\ (mic_mute (w_dev w') <> mic_mute (w_dev w) ->
      exists state, c = AdevSetMicMute state)
  /\ (out_device (w_dev w') <> out_device (w_dev w) ->
      exists a r value, c = OutSetParameters a r value)
  /\ (orientation (w_dev w') <> orientation (w_dev w)
      \/ screen_off (w_dev w') <> screen_off (w_dev w) ->
      exists ro vo rs vs, c = AdevSetParameters ro vo rs vs).
Proof.
  intros H. destruct (hal_step_in_device c w ret w' H) as [Hi Hs].
  split; [exact Hi|]. split; [exact Hs|].
  apply hal_step_dev in H.
  destruct c;
    try (destruct H as [-> | [o ->]]; cbn;
         (split; [congruence|]); (split; [congruence|]); intros [?|?]; congruence).
  - destruct H as (d & [-> | ->] & [-> | ->]); cbn;
      (split; [congruence|]); (split; [eauto|]); intros [?|?]; congruence.
  - rewrite H.
    destruct (adev_set_parameters_dev ret_orientation orientation_value
                ret_screen screen_value (w_dev w)) as (Ho & _ & _ & Hm & _).
    split; [congruence|]. split; [congruence|]. eauto.
  - rewrite H. cbn. split; [eauto|]. split; [congruence|]. intros [?|?]; congruence.
Qed.

Lemma reachable_in_device w :
  reachable bc w -> in_device (w_dev w) = in_device new_audio_device.
Proof.
  induction 1 as [|c w ret w' _ IH Hstep]; [reflexivity|].
  apply hal_step_in_device in Hstep as [-> _]. exact IH.
Qed.

(** X16.  The input device is the built-in microphone for good, so every
    routing [select_devices] makes for a device the entry points bring
    about ends with a microphone path, the left one in landscape
    orientation and the top one otherwise, followed by the mixer update:
    the microphone is routed although the device opens no input stream. *)
Theorem routing_always_applies_a_mic_path w :
  reachable bc w ->
  exists paths,
    select_devices (w_dev w)
    = EvRouteReset :: paths
      ++ [EvRouteApplyPath
            (if decide (orientation (w_dev w) = ORIENTATION_LANDSCAPE)
             then "main-mic-left" else "main-mic-top");
          EvRouteUpdateMixer].
Proof.
  intros Hr. unfold select_devices. rewrite (reachable_in_device w Hr).
  change (nonzero (to_int (Z.land (in_device new_audio_device)
                             AUDIO_DEVICE_IN_BUILTIN_MIC))) with true.
  cbv iota.
  match goal with
  | |- context [[EvRouteReset] ++ ?a ++ ?b ++ ?c ++ _ ++ _] => exists (a ++ b ++ c)
  end.
  cbn [app]. rewrite <- !app_assoc.
  destruct (decide _); reflexivity.
Qed.

(** *** The active stream *)

Lemma do_out_standby_live σ :
  do_out_standby σ = σ \/ active_out (dev (do_out_standby σ)) = None.
Proof.
  destruct (standby (out σ)) eqn:E.
  - left. apply do_out_standby_noop, E.
  - right. apply do_out_standby_active, E.
Qed.

Lemma on_stream_live a (f : hal_state -> option (Z * hal_state)) w ret w' :
  (forall σ r σ', f σ = Some (r, σ') ->
     (active_out (dev σ') = active_out (dev σ)
      /\ (standby (out σ) = false -> standby (out σ') = false))
     \/ active_out (dev σ') = None
     \/ (active_out (dev σ') = Some a /\ standby (out σ') = false)) ->
  active_out_live w ->
  on_stream a f w = Some (ret, w') ->
  active_out_live w'.
Proof.
  intros Hf Hw. unfold on_stream.
  destruct (w_streams w !! a) as [s|] eqn:Ea; cbn; [|discriminate].
  destruct (f _) as [[r σ']|] eqn:Ef; cbn; [|discriminate].
  intros [= <- <-] b. cbn. intros Hb.
  apply Hf in Ef as [[Hd Hs]|[Hd|[Hd Hs]]]; cbn in *.
  - rewrite Hd in Hb. destruct (Hw b Hb) as (sb & Hsb & Hact).
    rewrite lookup_insert. case_decide as Hab.
    + subst b. exists (out σ'). split; [reflexivity|].
      apply Hs. congruence.
    + eauto.
  - congruence.
  - assert (b = a) as -> by congruence.
    exists (out σ'). rewrite lookup_insert_eq. auto.
Qed.

Lemma out_standby_live a w ret w' :
  active_out_live w ->
  on_stream a (λ σ, Some (out_standby σ)) w = Some (ret, w') ->
  active_out_live w'.
Proof.
  apply on_stream_live. intros σ r σ' [= <- <-].
  destruct (do_out_standby_live σ) as [-> | H]; auto.
Qed.

Lemma active_out_live_step c w ret w' :
  active_out_live w -> hal_step bc c w = Some (ret, w') -> active_out_live w'.
Proof.
  intros Hw. destruct c; cbn [hal_step].
  - unfold adev_open_output_stream.
    destruct calloc as [a|]; [|intros [= <- <-]; exact Hw].
    destruct (w_streams w !! a) eqn:Ea; [discriminate|].
    intros [= <- <-] b. cbn. intros Hb.
    destruct (Hw b Hb) as (sb & Hsb & Hact).
    exists sb. split; [|exact Hact].
    rewrite lookup_insert_ne; [exact Hsb|congruence].
  - unfold adev_close_output_stream.
    destruct (on_stream stream _ w) as [[r w1]|] eqn:E; cbn; [|discriminate].
    intros [= <- <-] b. cbn. intros Hb.
    pose proof (out_standby_live _ _ _ _ Hw E) as H1.
    destruct (H1 b Hb) as (sb & Hsb & Hact).
    exists sb. split; [|exact Hact].
    rewrite lookup_delete_ne; [exact Hsb|].
    intros <-. revert E. unfold on_stream.
    destruct (w_streams w !! stream) as [s|]; cbn; [|discriminate].
    intros [= _ <-]. cbn in Hsb. rewrite lookup_insert_eq in Hsb.
    injection Hsb as <-. rewrite do_out_standby_standby in Hact. discriminate.
  - apply on_stream_live; [|exact Hw]. intros σ r σ' H.
    apply out_write_dev in H as [[-> Hs]|(_ & Hs & ->)]; auto.
  - apply out_standby_live, Hw.
  - apply on_stream_live; [|exact Hw]. intros σ r σ' [= <- <-].
    unfold out_set_parameters.
    destruct (0 <=? ret0); [destruct (_ && _)|];
      cbn -[select_devices do_out_standby]; auto.
    destruct (do_out_standby_live σ) as [-> | H]; auto.
  - pose proof (adev_set_parameters_dev ret_orientation orientation_value
                  ret_screen screen_value (w_dev w)) as (_ & _ & _ & _ & Ha).
    destruct (adev_set_parameters _ _ _ _ _) as [[r adev] evs].
    intros [= <- <-] b. cbn in *. rewrite Ha. apply Hw.
  - intros [= <- <-]. exact Hw.
Qed.

(** X17.  [active_out] never dangles: in every world the entry points
    bring about, the stream it names is open and out of standby.  (The
    converse fails: [do_out_standby] clears [active_out] whichever stream
    it names, so a second stream may go on playing with [active_out]
    cleared.) *)
Theorem active_out_is_live w a :
  reachable bc w ->
  active_out (w_dev w) = Some a ->
  exists s, w_streams w !! a = Some s /\ standby s = false.
Proof.
  intros Hr. revert a.
  induction Hr as [|c w ret w' _ IH Hstep].
  - intros a. discriminate.
  - exact (active_out_live_step c w ret w' IH Hstep).
Qed.

(** X18.  The seven entry points that change the state
    ([adev_open_output_stream], [adev_close_output_stream], [out_write],
    [out_standby], [out_set_parameters], [adev_set_parameters] and
    [adev_set_mic_mute]) run into no NULL pointer in a world they bring
    about: every call of them a client may make has a result, for
    [out_write] on a stream that holds no closed handle.  The stream
    configuration is set wherever [out_write] dereferences it, and no
    resampler is called for.  The divisors of the output configuration are
    not zero.  [out_get_presentation_position] is not one of these calls
    and is not covered. *)
Theorem hal_step_defined c w :
  reachable bc w ->
  config_divides (pcm_config_out bc) = true ->
  call_allowed bc c w ->
  is_Some (hal_step bc c w).
Proof.
  intros Hr Hdiv. destruct (reachable_ok bc w Hr) as [Hok _].
  destruct c; cbn [hal_step call_allowed].
  - destruct calloc as [a|]; cbn; [intros ->|]; eauto.
  - intros [s Hs]. unfold adev_close_output_stream, on_stream. rewrite Hs. cbn. eauto.
  - intros [(s & Hs & Hnone) Hloop]. unfold on_stream. rewrite Hs. cbn.
    destruct (out_write_defined bc stream hw buffer_ bytes
                {| dev := w_dev w; out := s; log := w_log w |}
                (Hok _ _ Hs) Hnone Hdiv Hloop) as [[r σ'] ->].
    cbn. eauto.
  - intros [s Hs]. unfold on_stream. rewrite Hs. cbn. eauto.
  - intros [s Hs]. unfold on_stream. rewrite Hs.
    cbn -[out_set_parameters].
    destruct (out_set_parameters _ _ _). eauto.
  - intros _. destruct (adev_set_parameters _ _ _ _ _) as [[r adev] evs]. eauto.
  - intros _. cbn. eauto.
Qed.

(** *** The handles given to the hardware *)

Lemma do_out_standby_handles σ :
  stream_ok bc (out σ) ->
  exists evs, log (do_out_standby σ) = log σ ++ evs
              /\ forallb handle_ok evs = true.
Proof.
  intros (_ & Hr & Hb & Ha & _). unfold do_out_standby.
  destruct (standby (out σ)) eqn:E; cbn.
  - exists []. split; [symmetry; apply app_nil_r|reflexivity].
  - destruct (Ha eq_refl) as (_ & p & Hp & _).
    rewrite Hr. cbn. rewrite Hb. cbn. rewrite Hp.
    eexists. split; reflexivity.
Qed.

Lemma select_devices_handles adev :
  forallb handle_ok (select_devices adev) = true.
Proof. unfold select_devices. repeat case_match; reflexivity. Qed.

Lemma start_output_stream_handles self hw σ ret σ1 :
  start_output_stream bc self hw σ = Some (ret, σ1) ->
  exists evs, log σ1 = log σ ++ evs /\ forallb handle_ok evs = true.
Proof.
  unfold start_output_stream.
  set (σ0 := if nonzero _ then _ else σ).
  assert (H0 : log σ0 = log σ) by (subst σ0; destruct (nonzero _); reflexivity).
  clearbody σ0. rewrite <- H0. clear H0.
  destruct (pcm (out σ0)) as [p|] eqn:Ep; cbv zeta.
  - discriminate.
  - cbn. destruct (negb (pcm_is_ready _)).
    + intros [= <- <-]. cbn. rewrite <- !app_assoc. eexists. split; reflexivity.
    + destruct (pcm_config (out σ0)) as [config|]; [|discriminate].
      cbn. destruct (negb _); intros [= <- <-]; cbn;
        rewrite <- ?app_assoc; eexists; split; reflexivity.
Qed.

Lemma leave_standby_handles self hw σ r σ1 :
  leave_standby bc self hw σ = Some (r, σ1) ->
  exists evs, log σ1 = log σ ++ evs /\ forallb handle_ok evs = true.
Proof.
  intros H. apply leave_standby_inv in H
    as [(_ & _ & ->)|[(_ & _ & H)|(_ & _ & σs & H & ->)]].
  - exists []. split; [symmetry; apply app_nil_r|reflexivity].
  - exact (start_output_stream_handles _ _ _ _ _ H).
  - exact (start_output_stream_handles _ _ _ _ _ H).
Qed.

Lemma out_write_handles self hw buffer_ bytes σ ret σ' :
  stream_ok bc (out σ) ->
  out_write bc self hw buffer_ bytes σ = Some (ret, σ') ->
  exists evs, log σ' = log σ ++ evs /\ forallb handle_ok evs = true.
Proof.
  intros Hok Hw.
  apply out_write_inv in Hw as [(r & σ1 & Hl & Hr & Hx)|
                                (σ1 & ib & fs & nf & σ2 & Hl & Hp & Hx)].
  - destruct (leave_standby_handles _ _ _ _ _ Hl) as (evs & Hlog & Hf).
    rewrite out_write_exit_inv in Hx by exact Hr.
    injection Hx as -> ->. cbn.
    exists (evs ++ [EvUsleep (fallback_sleep_us bc bytes)]).
    rewrite Hlog, <- app_assoc. split; [reflexivity|].
    rewrite forallb_app, Hf. reflexivity.
  - destruct (leave_standby_handles _ _ _ _ _ Hl) as (evs & Hlog & Hf).
    destruct (leave_standby_ok bc _ _ _ _ _ Hok Hl) as ((_ & _ & _ & Ha1 & _) & Hact & _).
    destruct (Ha1 (Hact eq_refl)) as (Hcfg & p & Hp1 & Hready).
    pose proof (prepare_write_keeps bc _ _ _ _ _ _ _ _ Hp) as (Kp & _).
    destruct (prepare_write_log bc _ _ _ _ _ _ _ _ _ Hp Hcfg eq_refl) as [sleeps Hl2].
    pose proof (hardware_write_inv bc hw ib fs nf bytes σ2) as Hh.
    rewrite <- Hx in Hh. cbn in Hh. destruct Hh as (_ & Hh).
    rewrite Kp, Hp1 in Hh.
    assert (Hs : forallb handle_ok (EvUsleep <$> sleeps) = true)
      by (apply forallb_map_usleep; reflexivity).
    destruct Hh as [(_ & _ & _ & ->)|[(_ & _ & _ & ->)|(_ & _ & _ & _ & ->)]];
      rewrite Hl2, Hlog, <- !app_assoc;
      (eexists; split; [reflexivity|]);
      rewrite !forallb_app, Hf, Hs; cbn; rewrite Hready; reflexivity.
Qed.

Lemma on_stream_handles a (f : hal_state -> option (Z * hal_state)) w ret w' :
  (forall σ r σ', stream_ok bc (out σ) -> f σ = Some (r, σ') ->
     exists evs, log σ' = log σ ++ evs /\ forallb handle_ok evs = true) ->
  (forall b s, w_streams w !! b = Some s -> stream_ok bc s) ->
  on_stream a f w = Some (ret, w') ->
  exists evs, w_log w' = w_log w ++ evs /\ forallb handle_ok evs = true.
Proof.
  intros Hf Hs. unfold on_stream.
  destruct (w_streams w !! a) as [s|] eqn:Ea; cbn; [|discriminate].
  destruct (f _) as [[r σ']|] eqn:Ef; cbn; [|discriminate].
  intros [= <- <-]. cbn.
  exact (Hf {| dev := w_dev w; out := s; log := w_log w |} r σ' (Hs a s Ea) Ef).
Qed.

Lemma out_standby_handles σ r σ' :
  stream_ok bc (out σ) -> Some (out_standby σ) = Some (r, σ') ->
  exists evs, log σ' = log σ ++ evs /\ forallb handle_ok evs = true.
Proof. intros Hok [= <- <-]. apply do_out_standby_handles, Hok. Qed.

Lemma hal_step_handles c w ret w' :
  (forall b s, w_streams w !! b = Some s -> stream_ok bc s) ->
  hal_step bc c w = Some (ret, w') ->
  exists evs, w_log w' = w_log w ++ evs /\ forallb handle_ok evs = true.
Proof.
  intros Hs. destruct c; cbn [hal_step].
  - unfold adev_open_output_stream.
    destruct calloc as [a|];
      [destruct (w_streams w !! a); [discriminate|]|];
      intros [= <- <-]; exists []; (split; [symmetry; apply app_nil_r|reflexivity]).
  - unfold adev_close_output_stream.
    destruct (on_stream stream _ w) as [[r w1]|] eqn:E; cbn; [|discriminate].
    intros [= <- <-]. cbn.
    exact (on_stream_handles _ _ _ _ _ out_standby_handles Hs E).
  - apply on_stream_handles; [|exact Hs]. intros σ r σ'. apply out_write_handles.
  - apply on_stream_handles; [exact out_standby_handles|exact Hs].
  - apply on_stream_handles; [|exact Hs]. intros σ r σ' Hok [= <- <-].
    unfold out_set_parameters.
    destruct (0 <=? ret0); [destruct (_ && _)|];
      cbn -[select_devices do_out_standby].
    + destruct (do_out_standby_handles σ Hok) as (evs & -> & Hf).
      eexists. rewrite <- app_assoc. split; [reflexivity|].
      rewrite forallb_app, Hf. apply select_devices_handles.
    + exists []. split; [symmetry; apply app_nil_r|reflexivity].
    + exists []. split; [symmetry; apply app_nil_r|reflexivity].
  - assert (He : forallb handle_ok
                   (adev_set_parameters ret_orientation orientation_value
                      ret_screen screen_value (w_dev w)).2 = true).
    { unfold adev_set_parameters.
      destruct (0 <=? ret_orientation); [destruct (negb _)|]; cbn -[select_devices];
        try reflexivity; apply select_devices_handles. }
    destruct (adev_set_parameters _ _ _ _ _) as [[r adev] evs].
    intros [= <- <-]. cbn. eauto.
  - intros [= <- <-]. exists []. split; [symmetry; apply app_nil_r|reflexivity].
Qed.

(** X19.  In every log the seven entry points that change the state
    bring about, each [pcm_write] gets a handle that is ready and each
    [pcm_close] a handle that is not NULL.  (A failed start leaves its
    closed handle in the stream; a write on such a stream has no defined
    result and so adds nothing to a log.)  The log holds no call of
    [pcm_get_htimestamp]: the handle [out_get_presentation_position] gives
    it is not covered. *)
Theorem pcm_write_gets_ready_handle w :
  reachable bc w -> forallb handle_ok (w_log w) = true.
Proof.
  induction 1 as [|c w ret w' Hr IH Hstep]; [reflexivity|].
  destruct (reachable_ok bc w Hr) as [Hok _].
  destruct (hal_step_handles c w ret w' Hok Hstep) as (evs & -> & Hf).
  rewrite forallb_app, IH, Hf. reflexivity.
Qed.

(** *** The microphone mute *)

Lemma hal_step_mic_mute c w ret w' :
  is_set_mic_mute c = false ->
  hal_step bc c w = Some (ret, w') ->
  mic_mute (w_dev w') = mic_mute (w_dev w).
Proof.
  intros Hc H. apply hal_step_dev in H.
  destruct c; try discriminate;
    try (destruct H as [-> | [o ->]]; reflexivity).
  - destruct H as (d & [-> | ->] & [-> | ->]); reflexivity.
  - rewrite H. apply adev_set_parameters_dev.
Qed.

Lemma hal_run_mic_mute cs : forall w w',
  forallb (λ c, negb (is_set_mic_mute c)) cs = true ->
  hal_run bc cs w = Some w' ->
  mic_mute (w_dev w') = mic_mute (w_dev w).
Proof.
  induction cs as [|c cs IH]; intros w w'; cbn [forallb hal_run].
  - intros _ [= <-]. reflexivity.
  - intros Hf. apply andb_true_iff in Hf as [Hc Hf].
    apply negb_true_iff in Hc.
    destruct (hal_step bc c w) as [[r w1]|] eqn:E; cbn; [|discriminate].
    intros Hrun. rewrite (IH w1 w' Hf Hrun).
    exact (hal_step_mic_mute c w r w1 Hc E).
Qed.

(** X20.  The microphone mute reads back as it was set: after
    [adev_set_mic_mute] and any calls of the other entry points,
    [adev_get_mic_mute] returns 0 and the state that was set. *)
Theorem mic_mute_round_trip state cs w w' :
  forallb (λ c, negb (is_set_mic_mute c)) cs = true ->
  hal_run bc (AdevSetMicMute state :: cs) w = Some w' ->
  adev_get_mic_mute (w_dev w') = (0, state).
Proof.
  intros Hf. cbn [hal_run hal_step]. cbn.
  intros Hrun. unfold adev_get_mic_mute.
  rewrite (hal_run_mic_mute cs _ w' Hf Hrun). reflexivity.
Qed.

End Further.

(** ** Instances of the further properties *)

Lemma world_after_write_reachable : reachable board world_after_write.
Proof.
  apply (hal_run_reachable board
           [AdevOpenOutputStream (Some 7%nat);
            OutWrite 7%nat (hw_with [Some 1500] 0) [1; 2; 3; 4] 16] adev_open).
  - apply reachable_open.
  - vm_compute. reflexivity.
Qed.

Lemma stream_after_write_lookup :
  w_streams world_after_write !! 7%nat = Some stream_after_write.
Proof. vm_compute. reflexivity. Qed.

(** An underrun on a playing stream returns [-EPIPE]. *)
Lemma out_write_result_witness :
  - EPIPE = to_ssize_t board 16
  \/ (- EPIPE = - EPIPE
      /\ hw_pcm_write (hw_with [Some 1500] (- EPIPE)) = - EPIPE
      /\ exists data count,
           last (log underrun_state)
           = Some (EvPcmWrite (pcm (out underrun_state)) data count)).
Proof.
  assert (H : out_write board 7%nat (hw_with [Some 1500] (- EPIPE)) [1; 2; 3; 4] 16
                (playing board 0 480 480)
              = Some (- EPIPE, underrun_state))
    by (vm_compute; reflexivity).
  exact (out_write_result board 7%nat (hw_with [Some 1500] (- EPIPE)) [1; 2; 3; 4] 16
           (playing board 0 480 480) (- EPIPE) underrun_state H).
Defined.

(** The first write on a fresh stream makes it the active one. *)
Lemma out_write_device_frame_witness :
  set_active_out (active_out (dev fresh)) (dev first_write_state) = dev fresh
  /\ (active_out (dev first_write_state) = active_out (dev fresh)
      \/ (active_out (dev first_write_state) = Some 7%nat
          /\ standby (out fresh) = true
          /\ standby (out first_write_state) = false)).
Proof.
  assert (H : out_write board 7%nat (hw_with [Some 1500] 0) [1; 2; 3; 4] 16 fresh
              = Some (16, first_write_state))
    by (vm_compute; reflexivity).
  exact (out_write_device_frame board 7%nat (hw_with [Some 1500] 0) [1; 2; 3; 4] 16
           fresh 16 first_write_state H).
Defined.

(** Twenty bytes are two frames and four bytes more: the hardware gets 16. *)
Lemma stereo_write_drops_partial_frame_witness :
  exists ret σ' pre post,
    out_write board 7%nat (hw_with [Some 1500] 0) [1; 2; 3; 4; 5; 6] 20
      (playing board 0 480 480)
    = Some (ret, σ')
    /\ log σ' = log (playing board 0 480 480) ++ pre
                ++ EvPcmWrite (pcm (out σ')) [1; 2; 3; 4; 5; 6]
                     (20 - 20 mod audio_stream_out_frame_size) :: post
    /\ forallb (λ e, negb (is_pcm_write e)) (pre ++ post) = true
    /\ (hw_pcm_write (hw_with [Some 1500] 0) = 0 ->
        ret = to_ssize_t board 20
        /\ written (out σ')
           = to_uint64 (written (out (playing board 0 480 480))
                        + 20 / audio_stream_out_frame_size)).
Proof.
  assert (Hl : leave_standby board 7%nat (hw_with [Some 1500] 0)
                 (playing board 0 480 480)
               = Some (0, playing board 0 480 480))
    by (vm_compute; reflexivity).
  assert (Hc : pcm_config (out (playing board 0 480 480))
               = Some (pcm_config_out board)) by reflexivity.
  assert (Hr : out_get_sample_rate board = rate (pcm_config_out board))
    by reflexivity.
  assert (Hch : 2 <= channels (pcm_config_out board))
    by (apply Z.leb_le; vm_compute; reflexivity).
  assert (Hd : config_divides (pcm_config_out board) = true)
    by (vm_compute; reflexivity).
  assert (Hb : 0 <= 20 < 2 ^ 32) by lia.
  exact (stereo_write_drops_partial_frame board 7%nat (hw_with [Some 1500] 0)
           [1; 2; 3; 4; 5; 6] 20 (playing board 0 480 480)
           (playing board 0 480 480) (pcm_config_out board) Hl Hc Hr Hch Hd Hb).
Defined.

(** A buffer of 1920 bytes on the sample board is a period of 240 frames. *)
Lemma buffer_size_write_is_one_period_witness :
  exists ret σ' pre,
    out_write board 7%nat (hw_with [Some 1500] 0) [] (out_get_buffer_size board)
      (playing board 0 480 480)
    = Some (ret, σ')
    /\ log σ' = log (playing board 0 480 480) ++ pre
                ++ [EvPcmWrite (pcm (out σ')) [] (out_get_buffer_size board)]
    /\ forallb (λ e, negb (is_pcm_write e)) pre = true
    /\ written (out σ')
       = to_uint64 (written (out (playing board 0 480 480))
                    + period_size (pcm_config_out board)).
Proof.
  assert (Habi : abi_ok board) by (right; reflexivity).
  assert (Hl : leave_standby board 7%nat (hw_with [Some 1500] 0)
                 (playing board 0 480 480)
               = Some (0, playing board 0 480 480))
    by (vm_compute; reflexivity).
  assert (Hc : pcm_config (out (playing board 0 480 480))
               = Some (pcm_config_out board)) by reflexivity.
  assert (Hch : 2 <= channels (pcm_config_out board))
    by (apply Z.leb_le; vm_compute; reflexivity).
  assert (Hd : config_divides (pcm_config_out board) = true)
    by (vm_compute; reflexivity).
  assert (Hsz : period_size (pcm_config_out board) * audio_stream_out_frame_size
                < 2 ^ 32)
    by (apply Z.ltb_lt; vm_compute; reflexivity).
  assert (H0 : hw_pcm_write (hw_with [Some 1500] 0) = 0) by reflexivity.
  exact (buffer_size_write_is_one_period board 7%nat (hw_with [Some 1500] 0) []
           (playing board 0 480 480) (playing board 0 480 480)
           Habi Hl Hc Hch Hd Hsz H0).
Defined.

(** On the SCO route a ring with 100 frames free does not make the call
    sleep. *)
Lemma sco_write_is_not_throttled_witness :
  (exists pre data count post,
     log sco_write_state
     = log sco_playing ++ pre
       ++ EvPcmWrite (pcm (out sco_write_state)) data count :: post
     /\ forallb (λ e, negb (is_usleep e)) pre = true)
  /\ cur_write_threshold (out sco_write_state)
     = cur_write_threshold (out sco_playing)
  /\ write_threshold (out sco_write_state) = write_threshold (out sco_playing).
Proof.
  assert (Hs : sco_on (dev sco_playing) = true) by (vm_compute; reflexivity).
  assert (Hl : leave_standby board 7%nat (hw_with [Some 100] 0) sco_playing
               = Some (0, sco_playing))
    by (vm_compute; reflexivity).
  assert (Hw : out_write board 7%nat (hw_with [Some 100] 0) [1; 2; 3; 4] 16
                 sco_playing
               = Some (16, sco_write_state))
    by (vm_compute; reflexivity).
  exact (sco_write_is_not_throttled board 7%nat (hw_with [Some 100] 0) [1; 2; 3; 4]
           16 sco_playing sco_playing 16 sco_write_state Hs Hl Hw).
Defined.

(** A ring that drains slowly: the loop sleeps 3489 and 2447 microseconds
    and stops, the limit being 5000. *)
Lemma throttle_sleep_is_bounded_witness :
  Forall (λ us, MIN_WRITE_SLEEP_US <= us <= INT_MAX) [3489; 2447]
  /\ ([3489; 2447] = []
      \/ exists init last,
           [3489; 2447] = init ++ [last]
           /\ total_sleep init <= MAX_WRITE_SLEEP_US board
           /\ MIN_WRITE_SLEEP_US * Z.of_nat (length init)
              <= MAX_WRITE_SLEEP_US board).
Proof.
  assert (Hm : 0 <= MAX_WRITE_SLEEP_US board)
    by (apply Z.leb_le; vm_compute; reflexivity).
  assert (Hs : [3489; 2447]
               = snd (throttle board (pcm_config_out board) 480 1920 slow_ring 0 0))
    by (vm_compute; reflexivity).
  assert (Ht : total_sleep [3489; 2447] <= INT_MAX)
    by (apply Z.leb_le; vm_compute; reflexivity).
  exact (throttle_sleep_is_bounded board (pcm_config_out board) 480 1920 slow_ring
           0 [3489; 2447] Hm Hs Ht).
Defined.

(** At the target of 480 frames a fill level of 100 frames moves nothing. *)
Lemma ramp_needs_negative_fill_witness :
  ramp board (pcm_config_out board) 100 (out (playing board 0 480 480))
  = out (playing board 0 480 480).
Proof.
  assert (Habi : abi_ok board) by (right; reflexivity).
  assert (Ht : write_threshold (out (playing board 0 480 480))
               = short_write_threshold board (pcm_config_out board))
    by (vm_compute; reflexivity).
  assert (Hc : cur_write_threshold (out (playing board 0 480 480))
               = write_threshold (out (playing board 0 480 480)))
    by reflexivity.
  assert (Hk : 0 <= 100) by lia.
  exact (ramp_needs_negative_fill board (pcm_config_out board) 100
           (out (playing board 0 480 480)) Habi Ht Hc Hk).
Defined.

(** A stream opened at address 7 and closed again. *)
Lemma open_close_round_trip_witness :
  exists w1,
    adev_open_output_stream (Some 7%nat) adev_open = Some (0, w1)
    /\ w_streams w1 !! 7%nat = Some new_stream_out
    /\ adev_close_output_stream 7%nat w1 = Some (0, adev_open).
Proof.
  assert (H : w_streams adev_open !! 7%nat = None) by (vm_compute; reflexivity).
  exact (open_close_round_trip 7%nat adev_open H).
Defined.


(** 1000 frames written, a ring of 1920 frames with 1500 free: 580 frames
    were played. *)
Lemma presentation_position_le_written_witness :
  written (out (playing board 1000 480 480))
  - period_size (pcm_config_out board) * period_count (pcm_config_out board)
  <= 580 <= written (out (playing board 1000 480 480)).
Proof.
  assert (Habi : abi_ok board) by (right; reflexivity).
  assert (Hc : pcm_config (out (playing board 1000 480 480))
               = Some (pcm_config_out board)) by reflexivity.
  assert (Hcap : 0 <= period_size (pcm_config_out board)
                      * period_count (pcm_config_out board) < 2 ^ 32)
    by (split; [apply Z.leb_le|apply Z.ltb_lt]; vm_compute; reflexivity).
  assert (Hw : 0 <= written (out (playing board 1000 480 480)) < 2 ^ 63)
    by (simpl; lia).
  assert (Ha : fst (Some 1500, {| tv_sec := 12; tv_nsec := 500 |}) = Some 1500)
    by reflexivity.
  assert (Hav : 0 <= 1500 <= period_size (pcm_config_out board)
                             * period_count (pcm_config_out board))
    by (split; [lia|apply Z.leb_le; vm_compute; reflexivity]).
  assert (Hg : out_get_presentation_position board
                 (Some 1500, {| tv_sec := 12; tv_nsec := 500 |}) 0
                 (playing board 1000 480 480)
               = Some (0, 580, {| tv_sec := 12; tv_nsec := 500 |}))
    by (vm_compute; reflexivity).
  exact (presentation_position_le_written board
           (Some 1500, {| tv_sec := 12; tv_nsec := 500 |}) 0
           (playing board 1000 480 480) (pcm_config_out board) 1500 580
           {| tv_sec := 12; tv_nsec := 500 |} Habi Hc Hcap Hw Ha Hav Hg).
Defined.

(** The stream of the world after an open and a write. *)
Lemma buffer_type_is_never_long_witness :
  buffer_type stream_after_write <> OUT_BUFFER_TYPE_LONG
  /\ (buffer_type stream_after_write = OUT_BUFFER_TYPE_SHORT ->
      write_threshold stream_after_write
      = short_write_threshold board (pcm_config_out board)).
Proof.
  exact (buffer_type_is_never_long board world_after_write 7%nat stream_after_write
           world_after_write_reachable stream_after_write_lookup).
Defined.

Lemma active_stream_has_ready_handle_witness :
  (standby stream_after_write = false ->
   pcm_config stream_after_write = Some (pcm_config_out board)
   /\ exists p, pcm stream_after_write = Some p /\ pcm_is_ready p = true)
  /\ (standby stream_after_write = true ->
      forall p, pcm stream_after_write = Some p -> pcm_is_ready p = false).
Proof.
  exact (active_stream_has_ready_handle board world_after_write 7%nat
           stream_after_write world_after_write_reachable
           stream_after_write_lookup).
Defined.

(** Muting the microphone of a device just opened. *)
Lemma hal_step_device_frame_witness :
  let w' := {| w_dev := set_mic_mute true new_audio_device; w_streams := ∅;
               w_log := [] |} in
  in_device (w_dev w') = in_device (w_dev adev_open)
  /\ adev_standby (w_dev w') = adev_standby (w_dev adev_open)
  /\ (mic_mute (w_dev w') <> mic_mute (w_dev adev_open) ->
      exists state, AdevSetMicMute true = AdevSetMicMute state)
  /\ (out_device (w_dev w') <> out_device (w_dev adev_open) ->
      exists a r value, AdevSetMicMute true = OutSetParameters a r value)
  /\ (orientation (w_dev w') <> orientation (w_dev adev_open)
      \/ screen_off (w_dev w') <> screen_off (w_dev adev_open) ->
      exists ro vo rs vs, AdevSetMicMute true = AdevSetParameters ro vo rs vs).
Proof.
  intros w'.
  assert (H : hal_step board (AdevSetMicMute true) adev_open = Some (0, w'))
    by reflexivity.
  exact (hal_step_device_frame board (AdevSetMicMute true) adev_open 0 w' H).
Defined.

Lemma routing_always_applies_a_mic_path_witness :
  exists paths,
    select_devices (w_dev world_after_write)
    = EvRouteReset :: paths
      ++ [EvRouteApplyPath
            (if decide (orientation (w_dev world_after_write)
                        = ORIENTATION_LANDSCAPE)
             then "main-mic-left" else "main-mic-top");
          EvRouteUpdateMixer].
Proof.
  exact (routing_always_applies_a_mic_path board world_after_write
           world_after_write_reachable).
Defined.

Lemma active_out_is_live_witness :
  exists s, w_streams world_after_write !! 7%nat = Some s /\ standby s = false.
Proof.
  assert (H : active_out (w_dev world_after_write) = Some 7%nat) by reflexivity.
  exact (active_out_is_live board world_after_write 7%nat
           world_after_write_reachable H).
Defined.

(** The converse of the last property fails: with two streams playing,
    a standby of the second clears [active_out] while the first plays on. *)
Example playing_stream_without_active_out :
  exists w s,
    hal_run board [AdevOpenOutputStream (Some 7%nat);
                   AdevOpenOutputStream (Some 8%nat);
                   OutWrite 7%nat (hw_with [] 0) [] 0;
                   OutWrite 8%nat (hw_with [] 0) [] 0;
                   OutStandby 8%nat] adev_open = Some w
    /\ w_streams w !! 7%nat = Some s
    /\ standby s = false
    /\ active_out (w_dev w) = None.
Proof.
  eexists. eexists.
  split; [vm_compute; reflexivity|].
  vm_compute. repeat split; reflexivity.
Qed.

(** A further write in that world. *)
Lemma hal_step_defined_witness :
  is_Some (hal_step board (OutWrite 7%nat (hw_with [] 0) [] 0) world_after_write).
Proof.
  assert (Hd : config_divides (pcm_config_out board) = true)
    by (vm_compute; reflexivity).
  assert (Hch : channels (pcm_config_out board) >= 2)
    by (apply Z.le_ge, Z.leb_le; vm_compute; reflexivity).
  assert (Hc : call_allowed board (OutWrite 7%nat (hw_with [] 0) [] 0)
                 world_after_write).
  { split; [|left; exact Hch].
    exists stream_after_write. split; [exact stream_after_write_lookup|].
    discriminate. }
  exact (hal_step_defined board (OutWrite 7%nat (hw_with [] 0) [] 0)
           world_after_write world_after_write_reachable Hd Hc).
Defined.

Lemma pcm_write_gets_ready_handle_witness :
  forallb handle_ok (w_log world_after_write) = true.
Proof.
  exact (pcm_write_gets_ready_handle board world_after_write
           world_after_write_reachable).
Defined.

(** The mute set before a stream is opened is read back after. *)
Lemma mic_mute_round_trip_witness :
  adev_get_mic_mute (w_dev world_muted) = (0, true).
Proof.
  assert (Hf : forallb (λ c, negb (is_set_mic_mute c))
                 [AdevOpenOutputStream (Some 7%nat)] = true) by reflexivity.
  assert (Hr : hal_run board [AdevSetMicMute true; AdevOpenOutputStream (Some 7%nat)]
                 adev_open
               = Some world_muted)
    by (vm_compute; reflexivity).
  exact (mic_mute_round_trip board true [AdevOpenOutputStream (Some 7%nat)]
           adev_open world_muted Hf Hr).
Defined.
